(** * Transition failure matrix

    A shallow embedding of the tracker (tfm_decorator.py), the analyzer
    matrix and its log parser (tfm_analyze.py) and the flow-diagram renderer
    (tfm_visualizations.py), with the properties of the specification stated
    over them.

    Modelling conventions.
    - Python [int] is [Z]. A [float] quantity (durations, rates) is an exact
      rational [Q]; how a float prints ([repr], [.1f]) is left as a
      parameter of the renderers.
    - Text is [string], the bytes of UTF-8 text. [len], alignment and the
      escapes of [json.dumps] count and read characters (code points), which
      are recovered from the bytes. [strip], [upper], the regular-expression
      classes and IGNORECASE are the ASCII ones: on ASCII text they are
      Python's, and the properties that depend on what they accept are
      stated for ASCII lines ([ascii_text]).
    - A Python [dict] iterates in insertion order; where that order is
      observable (the failure matrix, the rates) it is an association list
      updated in place ([odict]); where it is not (the per-workflow current
      state) it is a [gmap]. A Python [set] is a [gset].
    - A method that mutates [self] takes the object and returns the new one.
    - Code that can raise returns [option]; [None] is the exception. The
      wrappers, whose callers see which object is raised, return an
      [outcome].
    - [sorted] is a stable sort. *)

From Stdlib Require Import ZArith QArith String Ascii List Lia Permutation Sorted.
From stdpp Require Import base option gmap strings list pretty.

Import ListNotations.
Local Set Warnings "-register-all".
Local Open Scope string_scope.
Local Open Scope list_scope.
Local Open Scope Z_scope.

(** ** Insertion-ordered dictionaries *)

Definition odict (V : Type) : Type := list (string * V).

(** [d.get(k)] *)
Fixpoint od_get {V : Type} (k : string) (d : odict V) : option V :=
  match d with
  | [] => None
  | (k', v) :: d' => if String.eqb k k' then Some v else od_get k d'
  end.

(** [d[k] = v]: an existing key keeps its position, a new key goes last. *)
Fixpoint od_set {V : Type} (k : string) (v : V) (d : odict V) : odict V :=
  match d with
  | [] => [(k, v)]
  | (k', v') :: d' =>
      if String.eqb k k' then (k', v) :: d' else (k', v') :: od_set k v d'
  end.

(** ** The failure matrix: [defaultdict(lambda: defaultdict(int))] *)

Definition Matrix : Type := odict (odict Z).

(** [matrix[from_state][to_state] += 1]. A missing row is created (last) by
    the outer default factory, a missing cell starts from [int() = 0]. *)
Definition matrix_incr (from_state to_state : string) (m : Matrix) : Matrix :=
  let row := default [] (od_get from_state m) in
  let count := default 0 (od_get to_state row) in
  od_set from_state (od_set to_state (count + 1) row) m.

(** [matrix[from_state][to_state]] read as an expression: the value, and the
    matrix with the row and the cell that the default factories insert. *)
Definition matrix_read (from_state to_state : string) (m : Matrix) : Z * Matrix :=
  let row := default [] (od_get from_state m) in
  match od_get to_state row with
  | Some count => (count, od_set from_state row m)
  | None => (0, od_set from_state (od_set to_state 0 row) m)
  end.

(** The count stored for a pair, 0 when the pair has no cell. *)
Definition failure_count (m : Matrix) (from_state to_state : string) : Z :=
  default 0 (od_get from_state m ≫= od_get to_state).

(** [for from_state, to_states in matrix.items():
       for to_state, count in to_states.items(): ...] *)
Definition row_items (from_state : string) (row : odict Z)
  : list (string * string * Z) :=
  map (fun tc => (from_state, fst tc, snd tc)) row.

Definition matrix_items (m : Matrix) : list (string * string * Z) :=
  concat (map (fun fr => row_items (fst fr) (snd fr)) m).

Definition hotspot_count (h : string * string * Z) : Z := snd h.

Definition sum_Z (l : list Z) : Z := fold_right Z.add 0 l.

(** Sum of all counts in the matrix. *)
Definition matrix_total (m : Matrix) : Z :=
  sum_Z (map hotspot_count (matrix_items m)).

(** The weight of a dictionary is the sum of the weights of its values. *)
Definition od_weight {V : Type} (w : V -> Z) (d : odict V) : Z :=
  sum_Z (map (fun kv => w (snd kv)) d).

(** ** [sorted]: stable, ascending *)

Fixpoint insert_sorted {A : Type} (le : A -> A -> bool) (x : A) (l : list A)
  : list A :=
  match l with
  | [] => [x]
  | y :: l' => if le x y then x :: y :: l' else y :: insert_sorted le x l'
  end.

(** [sorted(l)] under the order [le]: an element stays before the later
    elements it does not exceed. *)
Definition sorted_with {A : Type} (le : A -> A -> bool) (l : list A) : list A :=
  fold_right (insert_sorted le) [] l.

(** [sorted(l, key=key)] *)
Definition sorted_by {A : Type} (key : A -> Z) (l : list A) : list A :=
  sorted_with (fun a b => key a <=? key b) l.

(** [sorted(s)] for a set of strings *)
Definition sorted_set (s : gset string) : list string :=
  sorted_with String.leb (elements s).

(** The body shared by both [get_hotspots] methods. *)
Definition matrix_hotspots (m : Matrix) (min_count : Z)
  : list (string * string * Z) :=
  sorted_by (fun x => - hotspot_count x)
            (List.filter (fun x => min_count <=? hotspot_count x) (matrix_items m)).

(** ** Numbers and text *)

(** A value that is an [int] on one path and a [float] on another. *)
Inductive number : Type :=
| PyInt (z : Z)
| PyFloat (q : Q).

Definition number_value (n : number) : Q :=
  match n with
  | PyInt z => inject_Z z
  | PyFloat q => q
  end.

(** [a / b] on ints; [None] is ZeroDivisionError. *)
Definition py_truediv (a b : Z) : option Q :=
  if b =? 0 then None else Some (inject_Z a / inject_Z b)%Q.

(** [max(l)] of a non-empty sequence; [None] is ValueError. *)
Definition py_max (l : list nat) : option nat :=
  match l with
  | [] => None
  | x :: l' => Some (fold_left Nat.max l' x)
  end.

Definition nl : string := String (ascii_of_nat 10) EmptyString.

(** The middle dot U+00B7, one character, two bytes of UTF-8. *)
Definition middle_dot : string :=
  String (ascii_of_nat 194) (String (ascii_of_nat 183) EmptyString).

(** [s * n] *)
Fixpoint str_repeat (s : string) (n : nat) : string :=
  match n with
  | O => EmptyString
  | S n' => s +:+ str_repeat s n'
  end.

(** [str(z)] *)
Definition str_Z (z : Z) : string := pretty z.

(** A byte 10xxxxxx, which continues a character of UTF-8 text. *)
Definition is_continuation (c : ascii) : bool :=
  let n := nat_of_ascii c in
  ((128 <=? n) && (n <? 192))%nat.

(** [len(s)]: the number of characters, one for each byte that starts
    one. *)
Fixpoint py_len (s : string) : nat :=
  match s with
  | EmptyString => O
  | String c s' => ((if is_continuation c then 0 else 1) + py_len s')%nat
  end.

(** [f"{s:^{width}}"] for a text of [len] characters. *)
Definition format_center (width len : nat) (s : string) : string :=
  let pad := (width - len)%nat in
  let left := (pad / 2)%nat in
  str_repeat " " left +:+ s +:+ str_repeat " " (pad - left).

(** [f"{s:>{width}}"] *)
Definition format_right (width : nat) (s : string) : string :=
  str_repeat " " (width - py_len s) +:+ s.

(** [s.split(sep)] for a non-empty separator. [skip] counts the characters
    of a separator just found that are still to be passed over, [cur] is
    the current piece, reversed. *)
Fixpoint split_go (sep : string) (skip : nat) (cur : list ascii) (s : string)
  : list string :=
  match s with
  | EmptyString => [string_of_list_ascii (rev cur)]
  | String c s' =>
      match skip with
      | S k => split_go sep k cur s'
      | O =>
          if String.prefix sep s
          then string_of_list_ascii (rev cur)
               :: split_go sep (String.length sep - 1) [] s'
          else split_go sep 0 (c :: cur) s'
      end
  end.

Definition py_split (sep s : string) : list string := split_go sep 0 [] s.

(** Text of ASCII characters only. *)
Definition ascii_text (s : string) : bool :=
  forallb (fun c => (nat_of_ascii c <? 128)%nat) (list_ascii_of_string s).

(** Text without a line terminator of a text file (LF, CR). *)
Definition single_line (s : string) : bool :=
  forallb (fun c => negb ((nat_of_ascii c =? 10)%nat || (nat_of_ascii c =? 13)%nat))
          (list_ascii_of_string s).

(** The character classes on ASCII text: what [str.isspace] and the
    classes [\s] and [\w] accept among the ASCII characters. *)
Definition is_space (c : ascii) : bool :=
  let n := nat_of_ascii c in
  ((9 <=? n) && (n <=? 13) || (28 <=? n) && (n <=? 32))%nat.

Definition is_word (c : ascii) : bool :=
  let n := nat_of_ascii c in
  ((48 <=? n) && (n <=? 57) || (65 <=? n) && (n <=? 90)
   || (97 <=? n) && (n <=? 122) || (n =? 95))%nat.

Definition upper_ascii (c : ascii) : ascii :=
  let n := nat_of_ascii c in
  if ((97 <=? n) && (n <=? 122))%nat then ascii_of_nat (n - 32) else c.

(** [s.upper()], on ASCII text *)
Fixpoint upper (s : string) : string :=
  match s with
  | EmptyString => EmptyString
  | String c s' => String (upper_ascii c) (upper s')
  end.

Fixpoint lstrip (s : string) : string :=
  match s with
  | EmptyString => EmptyString
  | String c s' => if is_space c then lstrip s' else s
  end.

Fixpoint rstrip (s : string) : string :=
  match s with
  | EmptyString => EmptyString
  | String c s' =>
      match rstrip s' with
      | EmptyString => if is_space c then EmptyString else String c EmptyString
      | r => String c r
      end
  end.

(** [s.strip()], on ASCII text *)
Definition strip (s : string) : string := rstrip (lstrip s).

(** Truthiness of an [Optional[str]]: [None] and the empty string are false. *)
Definition truthy (o : option string) : bool :=
  match o with
  | Some (String _ _) => true
  | _ => false
  end.

(** ** Regular expressions, as far as the parser's patterns use them

    [re.search] semantics: leftmost match, greedy repetition with
    backtracking, ordered alternation; classes and IGNORECASE as they are
    on ASCII text. *)

Inductive cclass : Type :=
| CWord    (* \w *)
| CSpace.  (* \s *)

Inductive regex : Type :=
| Lit (s : string)        (* literal text *)
| Star (c : cclass)       (* c*, greedy *)
| Plus (c : cclass)       (* c+, greedy *)
| Group (r : regex)       (* ( r ), capturing *)
| Alt (r1 r2 : regex)     (* r1 | r2 *)
| Seq (r1 r2 : regex).    (* r1 r2 *)

Definition in_class (c : cclass) (a : ascii) : bool :=
  match c with
  | CWord => is_word a
  | CSpace => is_space a
  end.

(** Two characters are the same, under IGNORECASE up to case: on ASCII
    text. *)
Definition char_eq (ignorecase : bool) (a b : ascii) : bool :=
  if ignorecase
  then Ascii.eqb (upper_ascii a) (upper_ascii b)
  else Ascii.eqb a b.

(** The text left after the literal [l], when the text starts with it. *)
Fixpoint match_lit (ignorecase : bool) (l s : string) : option string :=
  match l, s with
  | EmptyString, _ => Some s
  | String a l', String b s' =>
      if char_eq ignorecase a b then match_lit ignorecase l' s' else None
  | String _ _, EmptyString => None
  end.

(** [c*] followed by the continuation [k]: the longest run first, then
    shorter ones. *)
Fixpoint match_star {R : Type} (c : cclass) (s : string)
    (k : string -> option R) : option R :=
  match s with
  | EmptyString => k s
  | String a s' =>
      if in_class c a
      then match match_star c s' k with
           | Some r => Some r
           | None => k s
           end
      else k s
  end.

(** The first [n] characters of [s]. *)
Fixpoint str_take (n : nat) (s : string) : string :=
  match n, s with
  | S n', String a s' => String a (str_take n' s')
  | _, _ => EmptyString
  end.

(** What a match that started at [s] and stopped at [rest] has consumed. *)
Definition consumed (s rest : string) : string :=
  str_take (String.length s - String.length rest) s.

(** Match [r] at the start of [s], then continue with [k] on the rest of the
    text and the groups captured so far. *)
Fixpoint match_here {R : Type} (ignorecase : bool) (r : regex) (s : string)
    (groups : list string) (k : string -> list string -> option R) : option R :=
  match r with
  | Lit l =>
      match match_lit ignorecase l s with
      | Some rest => k rest groups
      | None => None
      end
  | Star c => match_star c s (fun rest => k rest groups)
  | Plus c =>
      match s with
      | String a s' =>
          if in_class c a then match_star c s' (fun rest => k rest groups)
          else None
      | EmptyString => None
      end
  | Group r1 =>
      match_here ignorecase r1 s groups
        (fun rest groups' => k rest (groups' ++ [consumed s rest]))
  | Alt r1 r2 =>
      match match_here ignorecase r1 s groups k with
      | Some x => Some x
      | None => match_here ignorecase r2 s groups k
      end
  | Seq r1 r2 =>
      match_here ignorecase r1 s groups
        (fun rest groups' => match_here ignorecase r2 rest groups' k)
  end.

(** [pattern.search(s)]: the groups of the leftmost match. *)
Fixpoint re_search (ignorecase : bool) (r : regex) (s : string)
  : option (list string) :=
  match match_here ignorecase r s [] (fun _ groups => Some groups) with
  | Some groups => Some groups
  | None =>
      match s with
      | EmptyString => None
      | String _ s' => re_search ignorecase r s'
      end
  end.

(** What a successful match is: [star_run c s rest] when [rest] is [s]
    without some leading characters of class [c]; [matches ic r s g rest g']
    when [r] matches a prefix of [s] that ends where [rest] starts and
    takes the captured groups from [g] to [g']. *)
Inductive star_run (c : cclass) : string -> string -> Prop :=
| run_stop (s : string) : star_run c s s
| run_step (a : ascii) (s rest : string) :
    in_class c a = true -> star_run c s rest -> star_run c (String a s) rest.

Inductive matches (ic : bool)
  : regex -> string -> list string -> string -> list string -> Prop :=
| M_Lit (l s : string) (g : list string) (rest : string) :
    match_lit ic l s = Some rest -> matches ic (Lit l) s g rest g
| M_Star (c : cclass) (s : string) (g : list string) (rest : string) :
    star_run c s rest -> matches ic (Star c) s g rest g
| M_Plus (c : cclass) (a : ascii) (s : string) (g : list string) (rest : string) :
    in_class c a = true -> star_run c s rest ->
    matches ic (Plus c) (String a s) g rest g
| M_Group (r : regex) (s : string) (g : list string) (rest : string)
    (g' : list string) :
    matches ic r s g rest g' ->
    matches ic (Group r) s g rest (g' ++ [consumed s rest])
| M_AltL (r1 r2 : regex) (s : string) (g : list string) (rest : string)
    (g' : list string) :
    matches ic r1 s g rest g' -> matches ic (Alt r1 r2) s g rest g'
| M_AltR (r1 r2 : regex) (s : string) (g : list string) (rest : string)
    (g' : list string) :
    matches ic r2 s g rest g' -> matches ic (Alt r1 r2) s g rest g'
| M_Seq (r1 r2 : regex) (s : string) (g : list string) (mid : string)
    (g1 : list string) (rest : string) (g2 : list string) :
    matches ic r1 s g mid g1 -> matches ic r2 mid g1 rest g2 ->
    matches ic (Seq r1 r2) s g rest g2.

(** ** [json.dumps(value, indent=2)] *)

Inductive json : Type :=
| JNum (n : number)
| JStr (s : string)
| JList (l : list json)
| JObj (l : list (string * json)).

(** What the first byte of a character of UTF-8 text contributes to its
    code point. *)
Definition lead_bits (n : N) : N :=
  (if n <? 128 then n
   else if n <? 224 then n - 192
   else if n <? 240 then n - 224
   else n - 240)%N.

Definition emit (cur : option N) : list N :=
  match cur with
  | Some cp => [cp]
  | None => []
  end.

(** The characters (code points) of UTF-8 text; [cur] is the character
    whose bytes are being read, each continuation byte adding six bits. *)
Fixpoint code_points_go (cur : option N) (s : string) : list N :=
  match s with
  | EmptyString => emit cur
  | String c s' =>
      let n := N_of_ascii c in
      if is_continuation c
      then code_points_go (Some (default 0 cur * 64 + (n - 128))%N) s'
      else emit cur ++ code_points_go (Some (lead_bits n)) s'
  end.

Definition code_points (s : string) : list N := code_points_go None s.

Definition hex_digit (n : N) : ascii :=
  (if n <? 10 then ascii_of_N (48 + n) else ascii_of_N (87 + n))%N.

(** Four hexadecimal digits, lower case. *)
Definition hex4 (n : N) : string :=
  String (hex_digit (n / 4096 mod 16)%N)
 (String (hex_digit (n / 256 mod 16)%N)
 (String (hex_digit (n / 16 mod 16)%N)
 (String (hex_digit (n mod 16)%N) EmptyString))).

(** One character of a JSON string ([ensure_ascii]): the short escapes,
    printable ASCII as it is, [\uXXXX] for the rest, a pair of surrogates
    for a character outside the basic plane. *)
Definition json_escape_char (cp : N) : string :=
  (if cp =? 34 then "\" +:+ String (ascii_of_nat 34) EmptyString
   else if cp =? 92 then "\\"
   else if cp =? 10 then "\n"
   else if cp =? 13 then "\r"
   else if cp =? 9 then "\t"
   else if cp =? 8 then "\b"
   else if cp =? 12 then "\f"
   else if (32 <=? cp) && (cp <=? 126) then String (ascii_of_N cp) EmptyString
   else if cp <? 65536 then "\u" +:+ hex4 cp
   else "\u" +:+ hex4 (55296 + (cp - 65536) / 1024)
        +:+ "\u" +:+ hex4 (56320 + (cp - 65536) mod 1024))%N.

Definition json_escape (s : string) : string :=
  String.concat EmptyString (map json_escape_char (code_points s)).

Definition json_quote (s : string) : string :=
  String (ascii_of_nat 34) (json_escape s) +:+ String (ascii_of_nat 34) EmptyString.

Section JsonDumps.

(** [float.__repr__], not modelled. *)
Variable float_repr : Q -> string.

Definition json_number (n : number) : string :=
  match n with
  | PyInt z => str_Z z
  | PyFloat q => float_repr q
  end.

(** [level] is the nesting depth of the value being written. *)
Fixpoint json_dumps_at (level : nat) (j : json) : string :=
  let inner := nl +:+ str_repeat "  " (S level) in
  let close := nl +:+ str_repeat "  " level in
  match j with
  | JNum n => json_number n
  | JStr s => json_quote s
  | JList [] => "[]"
  | JList l =>
      "[" +:+ inner
      +:+ String.concat ("," +:+ inner) (map (json_dumps_at (S level)) l)
      +:+ close +:+ "]"
  | JObj [] => "{}"
  | JObj l =>
      "{" +:+ inner
      +:+ String.concat ("," +:+ inner)
            (map (fun kv => json_quote (fst kv) +:+ ": "
                            +:+ json_dumps_at (S level) (snd kv)) l)
      +:+ close +:+ "}"
  end.

Definition json_dumps (j : json) : string := json_dumps_at 0 j.

End JsonDumps.

(** ** tfm_decorator.py *)

Module Decorator.

Record TransitionEvent : Type := mkEvent {
  from_state : string;
  to_state : string;
  success : bool;
  timestamp : Z;
  duration_ms : Q;
  error_message : option string;
  metadata : list (string * string)
}.

Record TransitionTracker : Type := mkTracker {
  events : list TransitionEvent;
  current_state : gmap string string;   (* workflow_id -> state *)
  matrix : Matrix
}.

(** [__init__] *)
Definition init : TransitionTracker :=
  {| events := []; current_state := ∅; matrix := [] |}.

(** [get_instance], on the class attribute [_instance]: the instance and
    the attribute afterwards. *)
Definition get_instance (_instance : option TransitionTracker)
  : TransitionTracker * option TransitionTracker :=
  match _instance with
  | Some t => (t, Some t)
  | None => (init, Some init)
  end.

Definition set_state (self : TransitionTracker) (state workflow_id : string)
  : TransitionTracker :=
  {| events := events self;
     current_state := <[workflow_id := state]> (current_state self);
     matrix := matrix self |}.

(** [dict.get]: [None] for a workflow that has no entry. *)
Definition get_current_state (self : TransitionTracker) (workflow_id : string)
  : option string :=
  current_state self !! workflow_id.

(** The line handed to [logger.info] by [record_transition]. *)
Definition log_msg (from_state to_state : string) (success : bool)
    (error_message : option string) : string :=
  let status := if success then "SUCCESS" else "FAILURE" in
  let msg := "TRANSITION: " +:+ from_state +:+ " -> " +:+ to_state
             +:+ " " +:+ status in
  if truthy error_message
  then msg +:+ " ERROR: " +:+ default EmptyString error_message
  else msg.

(** [record_transition]; [now] is the reading of [datetime.now()]. *)
Definition record_transition (self : TransitionTracker)
    (from_state to_state : string) (success : bool) (duration_ms : Q)
    (error_message : option string) (workflow_id : string)
    (metadata : list (string * string)) (now : Z) : TransitionTracker :=
  let event := mkEvent from_state to_state success now duration_ms
                       error_message metadata in
  {| events := events self ++ [event];
     matrix := if negb success
               then matrix_incr from_state to_state (matrix self)
               else matrix self;
     current_state := if success
                      then <[workflow_id := to_state]> (current_state self)
                      else current_state self |}.

Record MatrixSummary : Type := mkSummary {
  summary_states : list string;
  summary_matrix : Matrix;
  total_events : Z;
  total_failures : Z
}.

Definition matrix_states (m : Matrix) : list string :=
  concat (map (fun fr => fst fr :: map fst (snd fr)) m).

Definition event_states (l : list TransitionEvent) : list string :=
  concat (map (fun e => [from_state e; to_state e]) l).

Definition get_matrix_summary (self : TransitionTracker) : MatrixSummary :=
  let states : gset string :=
    list_to_set (matrix_states (matrix self) ++ event_states (events self)) in
  {| summary_states := sorted_set states;
     summary_matrix := matrix self;
     total_events := Z.of_nat (length (events self));
     total_failures :=
       Z.of_nat (length (List.filter (fun e => negb (success e)) (events self))) |}.

Definition get_hotspots (self : TransitionTracker) (min_count : Z)
  : list (string * string * Z) :=
  matrix_hotspots (matrix self) min_count.

Definition reset (self : TransitionTracker) : TransitionTracker := init.

(** One table row of [render_markdown]: the cells read, and insert into,
    the matrix. *)
Definition markdown_row (from_state : string) (states : list string)
    (m : Matrix) : string * Matrix :=
  fold_left
    (fun acc to_state =>
       let '(count, m') := matrix_read from_state to_state (snd acc) in
       (fst acc +:+ (if 0 <? count then " **" +:+ str_Z count +:+ "** |"
                     else " - |"), m'))
    states ("| **" +:+ from_state +:+ "** |", m).

Definition markdown_rows (states : list string) (m : Matrix)
  : list string * Matrix :=
  fold_left
    (fun acc from_state =>
       let '(row, m') := markdown_row from_state states (snd acc) in
       (fst acc ++ [row], m'))
    states ([], m).

Definition markdown_header (states : list string) : list string :=
  [fold_left (fun h state => h +:+ " " +:+ state +:+ " |") states "| From \ To |";
   fold_left (fun s _ => s +:+ "--------|") states "|-----------|"].

Definition hotspot_line (h : string * string * Z) : string :=
  "- " +:+ fst (fst h) +:+ " -> " +:+ snd (fst h) +:+ ": **"
  +:+ str_Z (snd h) +:+ " failures**".

(** [render_markdown]: the text, and the tracker with the zero cells the
    table has touched. *)
Definition render_markdown (self : TransitionTracker)
  : string * TransitionTracker :=
  let summary := get_matrix_summary self in
  let states := summary_states summary in
  match states with
  | [] => ("# Transition Failure Matrix" +:+ nl +:+ nl
           +:+ "No transitions recorded.", self)
  | _ =>
      let lines :=
        ["# Transition Failure Matrix" +:+ nl;
         "**Total Events:** " +:+ str_Z (total_events summary);
         "**Total Failures:** " +:+ str_Z (total_failures summary) +:+ nl]
        ++ markdown_header states in
      let '(rows, m') := markdown_rows states (matrix self) in
      let hotspots := matrix_hotspots m' 2 in
      let tail :=
        match hotspots with
        | [] => []
        | _ => (nl +:+ "## Hotspots" +:+ nl)
               :: map hotspot_line (take 10 hotspots)
        end in
      (String.concat nl (lines ++ rows ++ tail),
       {| events := events self;
          current_state := current_state self;
          matrix := m' |})
  end.

(** *** [track_state] *)

(** What a raised object is to the wrapper: whether [except Exception]
    catches it, and what [str] of it does, which runs its [__str__]: it
    returns a text ([inl]) or raises an object of its own ([inr]). *)
Inductive BaseException : Type := mkExc {
  exc_name : string;
  is_Exception : bool;
  exc_str : string + BaseException
}.

(** How a call ends. *)
Inductive outcome (R : Type) : Type :=
| Returned (r : R)
| Raised (e : BaseException).

Arguments Returned {R} r.
Arguments Raised {R} e.

(** [get_current_state(workflow_id) or "START"] *)
Definition inferred_from_state (self : TransitionTracker) (workflow_id : string)
  : string :=
  match get_current_state self workflow_id with
  | Some (String c s) => String c s
  | _ => "START"
  end.

(** [sync_wrapper]. [_tracker] is the object the first line resolves to;
    the wrapped call of [func] runs on that same object and
    may record transitions of its own. [start_time] and [end_time] are the
    two readings of [time.perf_counter()]. In the handler, [str(e)] is an
    argument of the call of [record_transition]: when it raises, the call
    is not made and the object it raised leaves the wrapper in place of
    [e]. *)
Definition sync_wrapper {R : Type} (state_name workflow_id : string)
    (func : TransitionTracker -> outcome R * TransitionTracker)
    (start_time end_time : Q) (now : Z) (_tracker : TransitionTracker)
  : outcome R * TransitionTracker :=
  let from_state := inferred_from_state _tracker workflow_id in
  let '(result, tracker1) := func _tracker in
  let duration_ms := ((end_time - start_time) * 1000)%Q in
  match result with
  | Returned r =>
      (Returned r,
       record_transition tracker1 from_state state_name true duration_ms
                         None workflow_id [] now)
  | Raised e =>
      if is_Exception e
      then match exc_str e with
           | inl message =>
               (Raised e,
                record_transition tracker1 from_state state_name false
                                  duration_ms (Some message) workflow_id [] now)
           | inr e' => (Raised e', tracker1)
           end
      else (Raised e, tracker1)
  end.

(** [async_wrapper]: the same steps around [await func(...)],
    the awaited call taken from its start to its completion. *)
Definition async_wrapper {R : Type} (state_name workflow_id : string)
    (func : TransitionTracker -> outcome R * TransitionTracker)
    (start_time end_time : Q) (now : Z) (_tracker : TransitionTracker)
  : outcome R * TransitionTracker :=
  let from_state := inferred_from_state _tracker workflow_id in
  let '(result, tracker1) := func _tracker in
  let duration_ms := ((end_time - start_time) * 1000)%Q in
  match result with
  | Returned r =>
      (Returned r,
       record_transition tracker1 from_state state_name true duration_ms
                         None workflow_id [] now)
  | Raised e =>
      if is_Exception e
      then match exc_str e with
           | inl message =>
               (Raised e,
                record_transition tracker1 from_state state_name false
                                  duration_ms (Some message) workflow_id [] now)
           | inr e' => (Raised e', tracker1)
           end
      else (Raised e, tracker1)
  end.

End Decorator.

(** ** tfm_analyze.py *)

Module Analyze.

Record TransitionFailureMatrix : Type := mkTFM {
  states : list string;
  matrix : Matrix;
  total_transitions : Z;
  total_failures : Z;
  discovered_states : gset string
}.

(** [__init__(states)]: [states or []] *)
Definition init (states : option (list string)) : TransitionFailureMatrix :=
  {| states := default [] states;
     matrix := [];
     total_transitions := 0;
     total_failures := 0;
     discovered_states := ∅ |}.

Definition record_failure (self : TransitionFailureMatrix)
    (from_state to_state : string) : TransitionFailureMatrix :=
  {| states := states self;
     matrix := matrix_incr from_state to_state (matrix self);
     total_transitions := total_transitions self;
     total_failures := total_failures self + 1;
     discovered_states := {[to_state]} ∪ ({[from_state]} ∪ discovered_states self) |}.

Definition record_transition (self : TransitionFailureMatrix)
    (from_state to_state : string) (success : bool) : TransitionFailureMatrix :=
  let self1 :=
    {| states := states self;
       matrix := matrix self;
       total_transitions := total_transitions self + 1;
       total_failures := total_failures self;
       discovered_states :=
         {[to_state]} ∪ ({[from_state]} ∪ discovered_states self) |} in
  if negb success then record_failure self1 from_state to_state else self1.

Definition get_all_states (self : TransitionFailureMatrix) : list string :=
  match states self with
  | _ :: _ => states self
  | [] => sorted_set (discovered_states self)
  end.

Definition get_hotspots (self : TransitionFailureMatrix) (min_count : Z)
  : list (string * string * Z) :=
  matrix_hotspots (matrix self) min_count.

(** The matrix object replaced, the counters kept: what reading a cell of
    the defaultdict does to [self]. *)
Definition with_matrix (self : TransitionFailureMatrix) (m : Matrix)
  : TransitionFailureMatrix :=
  {| states := states self;
     matrix := m;
     total_transitions := total_transitions self;
     total_failures := total_failures self;
     discovered_states := discovered_states self |}.

(** [total_failures / total_transitions * 100 if total_transitions > 0 else 0] *)
Definition failure_rate_percent (self : TransitionFailureMatrix) : option number :=
  if 0 <? total_transitions self
  then q ← py_truediv (total_failures self) (total_transitions self);
       Some (PyFloat (q * 100)%Q)
  else Some (PyInt 0).

(** [total_failures / total_transitions if total_transitions > 0 else 0] *)
Definition failure_rate (self : TransitionFailureMatrix) : option number :=
  if 0 <? total_transitions self
  then q ← py_truediv (total_failures self) (total_transitions self);
       Some (PyFloat q)
  else Some (PyInt 0).

(** The rows of a table; [first] starts a row and [cell] writes a count. *)
Definition table_row (first : string -> string) (cell : Z -> string)
    (from_state : string) (states : list string) (m : Matrix) : string * Matrix :=
  fold_left
    (fun acc to_state =>
       let '(count, m') := matrix_read from_state to_state (snd acc) in
       (fst acc +:+ cell count, m'))
    states (first from_state, m).

Definition table_rows (first : string -> string) (cell : Z -> string)
    (states : list string) (m : Matrix) : list string * Matrix :=
  fold_left
    (fun acc from_state =>
       let '(row, m') := table_row first cell from_state states (snd acc) in
       (fst acc ++ [row], m'))
    states ([], m).

Section Render.

(** [f"{x:.1f}"] and [repr(x)] of a float, not modelled. *)
Variable format_1f : Q -> string.
Variable float_repr : Q -> string.

(** [render_markdown]: the text and [self] with the zero cells the table
    has touched; [None] when an exception escapes. *)
Definition render_markdown (self : TransitionFailureMatrix)
  : option (string * TransitionFailureMatrix) :=
  let states := get_all_states self in
  match states with
  | [] => Some ("# Transition Failure Matrix" +:+ nl +:+ nl
                +:+ "No transitions found.", self)
  | _ =>
      rate ← failure_rate_percent self;
      let lines :=
        ["# Transition Failure Matrix" +:+ nl;
         "**Total Transitions:** " +:+ str_Z (total_transitions self);
         "**Total Failures:** " +:+ str_Z (total_failures self);
         "**Failure Rate:** " +:+ format_1f (number_value rate) +:+ "%" +:+ nl;
         fold_left (fun h state => h +:+ " " +:+ state +:+ " |") states
                   "| From \ To |";
         fold_left (fun s _ => s +:+ "--------|") states "|-----------|"] in
      let '(rows, m') :=
        table_rows (fun f => "| **" +:+ f +:+ "** |")
                   (fun count => if 0 <? count
                                 then " **" +:+ str_Z count +:+ "** |"
                                 else " - |")
                   states (matrix self) in
      let hotspots := matrix_hotspots m' 2 in
      let tail :=
        match hotspots with
        | [] => []
        | _ => (nl +:+ "## Hotspots (failures >= 2)" +:+ nl)
               :: map (fun h => "- " +:+ fst (fst h) +:+ " -> " +:+ snd (fst h)
                                +:+ ": **" +:+ str_Z (snd h) +:+ " failures**")
                      (take 10 hotspots)
        end in
      Some (String.concat nl (lines ++ rows ++ tail), with_matrix self m')
  end.

(** [render_ascii]; [len] and the alignments count characters. *)
Definition render_ascii (self : TransitionFailureMatrix)
  : option (string * TransitionFailureMatrix) :=
  let states := get_all_states self in
  match states with
  | [] => Some ("No transitions found.", self)
  | _ =>
      max_state_len ← py_max (map py_len states);
      let col_width := Nat.max max_state_len 4 in
      let header :=
        fold_left
          (fun h state =>
             h +:+ format_center col_width (py_len state) state +:+ " ")
          states (str_repeat " " (col_width + 3)) in
      let lines :=
        ["Total Transitions: " +:+ str_Z (total_transitions self);
         "Total Failures: " +:+ str_Z (total_failures self);
         EmptyString;
         header;
         str_repeat "-" (py_len header)] in
      let '(rows, m') :=
        table_rows (fun f => format_right col_width f +:+ " |")
                   (fun count =>
                      if 0 <? count
                      then format_center col_width
                             (py_len (str_Z count)) (str_Z count) +:+ " "
                      else format_center col_width 1 middle_dot +:+ " ")
                   states (matrix self) in
      let hotspots := matrix_hotspots m' 2 in
      let tail :=
        match hotspots with
        | [] => []
        | _ => EmptyString :: "Hotspots:"
               :: map (fun h => "  " +:+ fst (fst h) +:+ " -> " +:+ snd (fst h)
                                +:+ ": " +:+ str_Z (snd h))
                      (take 5 hotspots)
        end in
      Some (String.concat nl (lines ++ rows ++ tail), with_matrix self m')
  end.

(** The dictionary [render_json] hands to [json.dumps]. *)
Definition render_json_value (self : TransitionFailureMatrix) (min_failures : Z)
  : option json :=
  rate ← failure_rate self;
  Some (JObj
    [("states", JList (map JStr (get_all_states self)));
     ("matrix",
      JObj (map (fun fr =>
                   (fst fr, JObj (map (fun tc => (fst tc, JNum (PyInt (snd tc))))
                                      (snd fr))))
                (matrix self)));
     ("hotspots",
      JList (map (fun h => JObj [("from", JStr (fst (fst h)));
                                 ("to", JStr (snd (fst h)));
                                 ("count", JNum (PyInt (snd h)))])
                 (get_hotspots self min_failures)));
     ("total_transitions", JNum (PyInt (total_transitions self)));
     ("total_failures", JNum (PyInt (total_failures self)));
     ("failure_rate", JNum rate)]).

(** [render_json] *)
Definition render_json (self : TransitionFailureMatrix) (min_failures : Z)
  : option string :=
  v ← render_json_value self min_failures;
  Some (json_dumps float_repr v).

End Render.

(** *** [LogParser] *)

(** [TRANSITION:\s*(\w+)\s*->\s*(\w+)\s*(SUCCESS|FAILURE)], IGNORECASE *)
Definition TRANSITION_PATTERN : regex :=
  Seq (Lit "TRANSITION:")
 (Seq (Star CSpace)
 (Seq (Group (Plus CWord))
 (Seq (Star CSpace)
 (Seq (Lit "->")
 (Seq (Star CSpace)
 (Seq (Group (Plus CWord))
 (Seq (Star CSpace)
      (Group (Alt (Lit "SUCCESS") (Lit "FAILURE")))))))))).

(** [STATE:\s*(\w+)] *)
Definition STATE_CHANGE_PATTERN : regex :=
  Seq (Lit "STATE:") (Seq (Star CSpace) (Group (Plus CWord))).

(** [(ERROR|EXCEPTION|FAILED|FAILURE)], IGNORECASE *)
Definition ERROR_PATTERN : regex :=
  Group (Alt (Lit "ERROR")
        (Alt (Lit "EXCEPTION") (Alt (Lit "FAILED") (Lit "FAILURE")))).

(** [TRANSITION_PATTERN.search(line)] and [match.groups()] *)
Definition search_transition (line : string) : option (string * string * string) :=
  match re_search true TRANSITION_PATTERN line with
  | Some [from_state; to_state; result] => Some (from_state, to_state, result)
  | _ => None
  end.

(** [STATE_CHANGE_PATTERN.search(line)] and [match.group(1)] *)
Definition search_state_change (line : string) : option string :=
  match re_search false STATE_CHANGE_PATTERN line with
  | Some [new_state] => Some new_state
  | _ => None
  end.

(** [bool(ERROR_PATTERN.search(line))] *)
Definition search_error (line : string) : bool :=
  match re_search true ERROR_PATTERN line with
  | Some _ => true
  | None => false
  end.

(** The loop state of [parse_lines]: the matrix and [current_state]. *)
Definition ParseState : Type := TransitionFailureMatrix * option string.

(** The body of the loop of [parse_lines] for one line. *)
Definition parse_line (st : ParseState) (raw : string) : ParseState :=
  let '(matrix, current_state) := st in
  let line := strip raw in
  match line with
  | EmptyString => st
  | _ =>
      match search_transition line with
      | Some (from_state, to_state, result) =>
          let success := String.eqb (upper result) "SUCCESS" in
          (record_transition matrix from_state to_state success,
           Some (if success then to_state else from_state))
      | None =>
          match search_state_change line with
          | Some new_state =>
              ((if truthy current_state
                   && negb (String.eqb (default EmptyString current_state) new_state)
                then record_transition matrix
                       (default EmptyString current_state) new_state
                       (negb (search_error line))
                else matrix),
               Some new_state)
          | None => st
          end
      end
  end.

(** [LogParser(states).parse_lines(lines)], with the final [current_state]. *)
Definition parse_lines_state (states : option (list string)) (lines : list string)
  : ParseState :=
  fold_left parse_line lines (init states, None).

Definition parse_lines (states : option (list string)) (lines : list string)
  : TransitionFailureMatrix :=
  fst (parse_lines_state states lines).

End Analyze.

(** ** Operations the other files import from tfm_decorator.py but that
    file does not define: [get_transition_rates], [compare_to_baseline] *)

Module Ledger.

Import Decorator.

(** The arrow U+2192 in UTF-8, and the label ["from → to"] of a pair. *)
Definition arrow : string :=
  String (ascii_of_nat 226) (String (ascii_of_nat 134)
         (String (ascii_of_nat 146) EmptyString)).

Definition pair_sep : string := " " +:+ arrow +:+ " ".

Definition pair_label (from_state to_state : string) : string :=
  from_state +:+ pair_sep +:+ to_state.

Record TransitionStats : Type := mkStats {
  total : Z;
  successes : Z;
  failures : Z;
  failure_rate : Q;
  avg_duration_ms : Q
}.

Definition sum_Q (l : list Q) : Q := fold_right Qplus 0%Q l.

(** The events grouped by ordered pair, in order of first occurrence. *)
Definition group_events (l : list TransitionEvent) : odict (list TransitionEvent) :=
  fold_left
    (fun groups e =>
       let label := pair_label (from_state e) (to_state e) in
       od_set label (default [] (od_get label groups) ++ [e]) groups)
    l [].

(** Modelled from the spec: the statistics of one pair of
    [transitionRates()], whose source ([get_transition_rates]) is missing:
    failureRatePercent = failures/total*100, 0 when total = 0;
    averageDurationMs = mean of the durations, 0 when there is no sample.
    [None] is a division by zero. *)
Definition group_stats (group : list TransitionEvent) : option TransitionStats :=
  let total := Z.of_nat (length group) in
  let failures := Z.of_nat (length (List.filter (fun e => negb (success e)) group)) in
  let successes := Z.of_nat (length (List.filter success group)) in
  rate ← (if total =? 0 then Some 0%Q
          else q ← py_truediv failures total; Some (q * 100)%Q);
  let avg := if total =? 0 then 0%Q
             else (sum_Q (map duration_ms group) / inject_Z total)%Q in
  Some {| total := total; successes := successes; failures := failures;
          failure_rate := rate; avg_duration_ms := avg |}.

(** [mapM] over the values of a dictionary. *)
Fixpoint od_mapM {A B : Type} (f : A -> option B) (d : odict A) : option (odict B) :=
  match d with
  | [] => Some []
  | (k, a) :: d' =>
      b ← f a; d'' ← od_mapM f d'; Some ((k, b) :: d'')
  end.

(** Modelled from the spec: [transitionRates()], the mapping from the label
    of a pair to its statistics, all events grouped by ordered pair. *)
Definition get_transition_rates (self : TransitionTracker)
  : option (odict TransitionStats) :=
  od_mapM group_stats (group_events (events self)).

Record Regression : Type := mkRegression {
  transition : string;
  baseline_rate : Q;
  current_rate : Q;
  delta : Q;
  percent_increase : Q
}.

Definition Qlt_bool (a b : Q) : bool := negb (Qle_bool b a).

(** [max(a, b)] *)
Definition Qmax_py (a b : Q) : Q := if Qlt_bool a b then b else a.

Section Baseline.

(** The spec's epsilon, which it does not give a value. *)
Variable epsilon : Q.

(** delta / max(baseline rate, epsilon) *)
Definition relative_increase (base cur : TransitionStats) : Q :=
  ((failure_rate cur - failure_rate base)
   / Qmax_py (failure_rate base) epsilon)%Q.

(** The condition under which a pair is a regression. *)
Definition is_regression (base cur : TransitionStats) (threshold : Q) : bool :=
  Qlt_bool 0 (failure_rate cur - failure_rate base)
  && Qlt_bool threshold (relative_increase base cur).

Definition regression_record (pair : string) (base cur : TransitionStats)
  : Regression :=
  {| transition := pair;
     baseline_rate := failure_rate base;
     current_rate := failure_rate cur;
     delta := (failure_rate cur - failure_rate base)%Q;
     percent_increase := (relative_increase base cur * 100)%Q |}.

(** Modelled from the spec: [compareToBaseline(currentRates, baselineRates,
    threshold)], whose source ([compare_to_baseline]) is missing. For every
    pair present in both mappings, delta = current rate - baseline rate; a
    regression is reported when delta > 0 and delta / max(baseline rate,
    epsilon) > threshold; pairs present on one side only are ignored. *)
Definition compare_to_baseline (current_rates baseline_rates : odict TransitionStats)
    (threshold : Q) : list Regression :=
  concat
    (map (fun kv =>
            match od_get (fst kv) baseline_rates with
            | Some base =>
                if is_regression base (snd kv) threshold
                then [regression_record (fst kv) base (snd kv)]
                else []
            | None => []
            end)
         current_rates).

End Baseline.

End Ledger.

(** ** tfm_visualizations.py *)

Module Visualizations.

Import Ledger.

Definition fence : string := "```".

Definition no_transitions : string :=
  fence +:+ "mermaid" +:+ nl +:+ "sankey-beta" +:+ nl +:+ nl
  +:+ "No transitions recorded" +:+ nl +:+ fence.

(** The lines one entry of the rates contributes. *)
Definition sankey_lines (include_failures : bool) (min_transitions : Z)
    (entry : string * TransitionStats) : list string :=
  match py_split pair_sep (fst entry) with
  | [from_state; to_state] =>
      let successes := successes (snd entry) in
      let failures := failures (snd entry) in
      if (successes <? min_transitions) && (failures <? min_transitions)
      then []
      else
        (if min_transitions <=? successes
         then [from_state +:+ "," +:+ to_state +:+ "," +:+ str_Z successes]
         else [])
        ++ (if include_failures && (min_transitions <=? failures)
            then [from_state +:+ ",FAIL," +:+ str_Z failures]
            else [])
  | _ => []
  end.

(** The body of [render_sankey] once [tracker.get_transition_rates()] has
    returned [rates]. *)
Definition render_sankey_rates (rates : odict TransitionStats)
    (include_failures : bool) (min_transitions : Z) : string :=
  match rates with
  | [] => no_transitions
  | _ =>
      String.concat nl
        ([fence +:+ "mermaid"; "---"; "config:"; "  sankey:";
          "    showValues: true"; "---"; "sankey-beta"; EmptyString]
         ++ concat (map (sankey_lines include_failures min_transitions)
                        (sorted_with (fun a b => String.leb (fst a) (fst b)) rates))
         ++ [fence])
  end.

(** [render_sankey(tracker, include_failures, min_transitions)] *)
Definition render_sankey (tracker : Decorator.TransitionTracker)
    (include_failures : bool) (min_transitions : Z) : option string :=
  rates ← get_transition_rates tracker;
  Some (render_sankey_rates rates include_failures min_transitions).

Definition render_sankey_success_only (tracker : Decorator.TransitionTracker)
    (min_transitions : Z) : option string :=
  render_sankey tracker false min_transitions.

End Visualizations.

(** ** Sequences of calls, and the specification's own wording *)

(** The arguments of one call of the tracker's [record_transition]. *)
Record Call : Type := mkCall {
  call_from : string;
  call_to : string;
  call_success : bool;
  call_duration : Q;
  call_error : option string;
  call_workflow : string;
  call_metadata : list (string * string);
  call_now : Z
}.

Definition call_event (c : Call) : Decorator.TransitionEvent :=
  Decorator.mkEvent (call_from c) (call_to c) (call_success c) (call_now c)
                    (call_duration c) (call_error c) (call_metadata c).

Definition do_call (t : Decorator.TransitionTracker) (c : Call)
  : Decorator.TransitionTracker :=
  Decorator.record_transition t (call_from c) (call_to c) (call_success c)
    (call_duration c) (call_error c) (call_workflow c) (call_metadata c)
    (call_now c).

(** A sequence of [record_transition] calls on a tracker. *)
Definition run_calls (cs : list Call) (t : Decorator.TransitionTracker)
  : Decorator.TransitionTracker :=
  fold_left do_call cs t.

(** The calls with [success=False]. *)
Definition failures_of (cs : list Call) : list Call :=
  List.filter (fun c => negb (call_success c)) cs.

(** Their number. *)
Definition failed_calls (cs : list Call) : Z :=
  Z.of_nat (length (failures_of cs)).

(** A sequence of [record_transition] calls on an analyzer matrix. *)
Definition run_records (rs : list (string * string * bool))
    (m : Analyze.TransitionFailureMatrix) : Analyze.TransitionFailureMatrix :=
  fold_left (fun m r => Analyze.record_transition m (fst (fst r)) (snd (fst r)) (snd r))
            rs m.

Definition failed_records (rs : list (string * string * bool)) : Z :=
  Z.of_nat (length (List.filter (fun r => negb (snd r)) rs)).

(** What can change the tracker's current state. *)
Inductive TrackerOp : Type :=
| OpRecord (c : Call)
| OpSetState (state workflow_id : string).

Definition do_op (t : Decorator.TransitionTracker) (op : TrackerOp)
  : Decorator.TransitionTracker :=
  match op with
  | OpRecord c => do_call t c
  | OpSetState state workflow_id => Decorator.set_state t state workflow_id
  end.

Definition run_ops (ops : list TrackerOp) (t : Decorator.TransitionTracker)
  : Decorator.TransitionTracker :=
  fold_left do_op ops t.

(** The state an operation makes current for [workflow_id], if any. *)
Definition entered (workflow_id : string) (op : TrackerOp) : option string :=
  match op with
  | OpRecord c =>
      if call_success c && String.eqb (call_workflow c) workflow_id
      then Some (call_to c) else None
  | OpSetState state w =>
      if String.eqb w workflow_id then Some state else None
  end.

(** The state most recently entered by [workflow_id]: the first one met
    going back from the last operation. *)
Definition most_recent_entered (workflow_id : string) (ops : list TrackerOp)
  : option string :=
  head (omap (entered workflow_id) (rev ops)).

(** The specification's FailureCount, read literally: one mapping from the
    ordered pair to its count, in order of first occurrence of the pair. *)
Fixpoint bump_pair (from_state to_state : string) (l : list (string * string * Z))
  : list (string * string * Z) :=
  match l with
  | [] => [(from_state, to_state, 1)]
  | (f, t, c) :: l' =>
      if String.eqb from_state f && String.eqb to_state t
      then (f, t, c + 1) :: l'
      else (f, t, c) :: bump_pair from_state to_state l'
  end.

Definition pair_counts (l : list Decorator.TransitionEvent)
  : list (string * string * Z) :=
  fold_left
    (fun acc e =>
       if Decorator.success e then acc
       else bump_pair (Decorator.from_state e) (Decorator.to_state e) acc)
    l [].

(** The specification's [hotspots(minCount)], read literally: ties in the
    order in which the pairs first occurred. *)
Definition hotspots_first_occurrence (l : list Decorator.TransitionEvent)
    (min_count : Z) : list (string * string * Z) :=
  sorted_by (fun x => - hotspot_count x)
            (List.filter (fun x => min_count <=? hotspot_count x) (pair_counts l)).

(** What the specification asks of [hotspots(min_count)] over the entries
    of the failure matrix, taken in the order [entries]: exactly the
    entries with count >= min_count, by count descending, entries of equal
    count in the order they have in [entries]. *)
Definition hotspots_of (entries : list (string * string * Z)) (min_count : Z)
    (hs : list (string * string * Z)) : Prop :=
  Permutation hs (List.filter (fun x => min_count <=? hotspot_count x) entries)
  /\ StronglySorted (fun x y => hotspot_count y <= hotspot_count x) hs
  /\ forall c,
       List.filter (fun x => hotspot_count x =? c) hs
       = List.filter (fun x => hotspot_count x =? c)
           (List.filter (fun x => min_count <=? hotspot_count x) entries).

(** Calls with the default arguments, for the examples. *)
Definition failed_call (from_state to_state : string) : Call :=
  mkCall from_state to_state false 0%Q None "default" [] 0.

(** The scenario of the specification: A to B succeeds in 10 ms, B to C
    fails in 20 ms and again in 15 ms. *)
Definition scenario_calls : list Call :=
  [mkCall "A" "B" true 10%Q None "default" [] 0;
   mkCall "B" "C" false 20%Q None "default" [] 1;
   mkCall "B" "C" false 15%Q None "default" [] 2].

(** Three failures: A to B, C to D, A to E. *)
Definition tracker_AB_CD_AE : Decorator.TransitionTracker :=
  run_calls [failed_call "A" "B"; failed_call "C" "D"; failed_call "A" "E"]
            Decorator.init.

(** Raised objects for the examples: [KeyboardInterrupt] and
    [asyncio.CancelledError] derive from [BaseException] only. *)
Definition KeyboardInterrupt : Decorator.BaseException :=
  Decorator.mkExc "KeyboardInterrupt" false (inl EmptyString).

Definition CancelledError : Decorator.BaseException :=
  Decorator.mkExc "CancelledError" false (inl EmptyString).

Definition ValueError (msg : string) : Decorator.BaseException :=
  Decorator.mkExc "ValueError" true (inl msg).

(** An exception whose [__str__] raises [TypeError]. *)
Definition BrokenStr : Decorator.BaseException :=
  Decorator.mkExc "BrokenStr" true
    (inr (Decorator.mkExc "TypeError" true
            (inl "__str__ returned non-string (type NoneType)"))).

(** A wrapped function that raises [e] and leaves the tracker alone. *)
Definition raising (e : Decorator.BaseException)
  : Decorator.TransitionTracker
    -> Decorator.outcome unit * Decorator.TransitionTracker :=
  fun t => (Decorator.Raised e, t).







(** The distinct elements of [l] after those of [seen], each at its first
    occurrence. *)
Definition add_first_occurrences (seen l : list string) : list string :=
  fold_left
    (fun acc x => if existsb (String.eqb x) acc then acc else acc ++ [x])
    l seen.

Definition first_occurrences (l : list string) : list string :=
  add_first_occurrences [] l.

(** ** Vocabulary of the further properties *)

(** Every character of [w] is in the class [c]. *)
Definition in_class_all (c : cclass) (w : string) : bool :=
  forallb (in_class c) (list_ascii_of_string w).

(** A name that [\w+] matches whole: ASCII word characters, at least
    one. *)
Definition word_name (s : string) : bool :=
  match s with
  | EmptyString => false
  | String _ _ => in_class_all CWord s
  end.

(** The text [s] is empty or starts with a character outside [c]. *)
Definition starts_outside (c : cclass) (s : string) : bool :=
  match s with
  | EmptyString => true
  | String a _ => negb (in_class c a)
  end.

(** A match of the literal [l] can start at the start of [p], given a
    suitable continuation of [p]. *)
Fixpoint may_start (ic : bool) (l p : string) : bool :=
  match l, p with
  | String a l', String b p' => char_eq ic a b && may_start ic l' p'
  | _, _ => true
  end.

(** No match of the literal [l] can start inside [pre], whatever follows. *)
Fixpoint clear_of (ic : bool) (l pre : string) : bool :=
  match pre with
  | EmptyString => true
  | String _ p' => negb (may_start ic l pre) && clear_of ic l p'
  end.

(** The line of [record_transition], the blanks and the keywords apart. *)
Definition transition_text (f t : string) (success : bool) (tail : string)
  : string :=
  "TRANSITION:" +:+ " " +:+ f +:+ " " +:+ "->" +:+ " " +:+ t +:+ " "
  +:+ (if success then "SUCCESS" else "FAILURE") +:+ tail.

Definition error_tail (error_message : option string) : string :=
  if truthy error_message
  then " ERROR: " +:+ default EmptyString error_message
  else EmptyString.

(** The line a log file holds for the call [c]: what the handler's format
    puts in front ([stamp c], a time stamp for instance), then the message
    of [record_transition]. *)
Definition log_line (stamp : Call -> string) (c : Call) : string :=
  stamp c +:+ Decorator.log_msg (call_from c) (call_to c) (call_success c)
                                (call_error c).

(** A call whose line the parser reads back: the stamp is ASCII text in
    which the TRANSITION keyword cannot start, both states are word names,
    and neither the stamp nor the error message holds a line terminator,
    so that the call has one line of the log. *)
Definition loggable (stamp : Call -> string) (c : Call) : bool :=
  ascii_text (stamp c) && single_line (stamp c)
  && clear_of true "TRANSITION:" (stamp c)
  && word_name (call_from c) && word_name (call_to c)
  && single_line (default EmptyString (call_error c)).

(** The records an analyzer matrix gets from the calls. *)
Definition call_record (c : Call) : string * string * bool :=
  (call_from c, call_to c, call_success c).

(** The text [s] holds a match of the literal [l]. *)
Fixpoint has_lit (ic : bool) (l s : string) : bool :=
  match match_lit ic l s with
  | Some _ => true
  | None =>
      match s with
      | EmptyString => false
      | String _ s' => has_lit ic l s'
      end
  end.

(** A line that holds one of the two keywords of the parser's patterns. *)
Definition relevant_line (raw : string) : bool :=
  has_lit true "TRANSITION:" (strip raw) || has_lit false "STATE:" (strip raw).

(** The matrix after the failures [pairs], in that order. *)
Definition incr_all (pairs : list (string * string)) (m : Matrix) : Matrix :=
  fold_left (fun m p => matrix_incr (fst p) (snd p) m) pairs m.

(** The (from_state, to_state) of the records with [success=False]. *)
Definition failed_pairs (rs : list (string * string * bool))
  : list (string * string) :=
  map fst (List.filter (fun r => negb (snd r)) rs).

(** How many of [pairs] are the pair (f, t). *)
Definition count_pair (f t : string) (pairs : list (string * string)) : Z :=
  Z.of_nat (length (List.filter
                      (fun p => String.eqb (fst p) f && String.eqb (snd p) t)
                      pairs)).

(** No key twice among the rows, nor among the cells of a row. *)
Definition keys_unique (m : Matrix) : Prop :=
  NoDup (map fst m) /\ Forall (fun fr => NoDup (map fst (snd fr))) m.

(** Every cell holds at least 1. *)
Definition cells_positive (m : Matrix) : Prop :=
  Forall (fun fr => Forall (fun tc => 1 <= snd tc) (snd fr)) m.

(** The matrix [m'] holds what [m] holds, zero cells apart: the same entries
    of count >= min_count in the same order, and the same count for every
    pair. *)
Definition same_counts (min_count : Z) (m m' : Matrix) : Prop :=
  List.filter (fun x => min_count <=? hotspot_count x) (matrix_items m')
  = List.filter (fun x => min_count <=? hotspot_count x) (matrix_items m)
  /\ forall f t, failure_count m' f t = failure_count m f t.

(** [track_transition(from_state, to_state)]: [sync_wrapper]. The tracker
    is the singleton that [get_instance()] returns, on which the wrapped
    call also runs; the workflow is the default one. As in [track_state],
    [str(e)] is taken before [record_transition] is called and may raise. *)
Definition track_transition_sync_wrapper {R : Type} (from_state to_state : string)
    (func : Decorator.TransitionTracker
            -> Decorator.outcome R * Decorator.TransitionTracker)
    (start_time end_time : Q) (now : Z) (tracker : Decorator.TransitionTracker)
  : Decorator.outcome R * Decorator.TransitionTracker :=
  let '(result, tracker1) := func tracker in
  let duration_ms := ((end_time - start_time) * 1000)%Q in
  match result with
  | Decorator.Returned r =>
      (Decorator.Returned r,
       Decorator.record_transition tracker1 from_state to_state true
         duration_ms None "default" [] now)
  | Decorator.Raised e =>
      if Decorator.is_Exception e
      then match Decorator.exc_str e with
           | inl message =>
               (Decorator.Raised e,
                Decorator.record_transition tracker1 from_state to_state false
                  duration_ms (Some message) "default" [] now)
           | inr e' => (Decorator.Raised e', tracker1)
           end
      else (Decorator.Raised e, tracker1)
  end.

(** [track_transition]: [async_wrapper], the awaited call taken from its
    start to its completion. *)
Definition track_transition_async_wrapper {R : Type}
    (from_state to_state : string)
    (func : Decorator.TransitionTracker
            -> Decorator.outcome R * Decorator.TransitionTracker)
    (start_time end_time : Q) (now : Z) (tracker : Decorator.TransitionTracker)
  : Decorator.outcome R * Decorator.TransitionTracker :=
  let '(result, tracker1) := func tracker in
  let duration_ms := ((end_time - start_time) * 1000)%Q in
  match result with
  | Decorator.Returned r =>
      (Decorator.Returned r,
       Decorator.record_transition tracker1 from_state to_state true
         duration_ms None "default" [] now)
  | Decorator.Raised e =>
      if Decorator.is_Exception e
      then match Decorator.exc_str e with
           | inl message =>
               (Decorator.Raised e,
                Decorator.record_transition tracker1 from_state to_state false
                  duration_ms (Some message) "default" [] now)
           | inr e' => (Decorator.Raised e', tracker1)
           end
      else (Decorator.Raised e, tracker1)
  end.

(** [name or "START"] *)
Definition or_START (name : string) : string :=
  match name with
  | EmptyString => "START"
  | String _ _ => name
  end.

(** [sep in s] *)
Fixpoint contains (sep s : string) : bool :=
  String.prefix sep s
  || match s with
     | EmptyString => false
     | String _ s' => contains sep s'
     end.

(** The letter e with an acute accent, U+00E9: one character, two bytes. *)
Definition e_acute : string :=
  String (ascii_of_nat 195) (String (ascii_of_nat 169) EmptyString).

(** The euro sign U+20AC, whose UTF-8 bytes start like those of the arrow. *)
Definition euro : string :=
  String (ascii_of_nat 226) (String (ascii_of_nat 130)
         (String (ascii_of_nat 172) EmptyString)).

(** The states that records, and calls, name. *)
Definition record_states (rs : list (string * string * bool)) : list string :=
  concat (map (fun r => [fst (fst r); snd (fst r)]) rs).

Definition call_states (cs : list Call) : list string :=
  concat (map (fun c => [call_from c; call_to c]) cs).

(** The order of [sorted] on strings. *)
Definition str_le (a b : string) : Prop := String.leb a b = true.

(** The rows of a table whose cells show the failure counts of [m]. *)
Definition count_rows (first : string -> string) (cell : Z -> string)
    (states : list string) (m : Matrix) : list string :=
  map (fun from_state =>
         fold_left (fun row to_state =>
                      row +:+ cell (failure_count m from_state to_state))
                   states (first from_state))
      states.

(** A cell of the Markdown tables. *)
Definition markdown_cell (count : Z) : string :=
  if 0 <? count then " **" +:+ str_Z count +:+ "** |" else " - |".

(** The text of the analyzer's [render_markdown] as a function of the
    state list, the counters and the failure counts of [self]. *)
Definition markdown_of_counts (format_1f : Q -> string)
    (self : Analyze.TransitionFailureMatrix) : string :=
  match Analyze.get_all_states self with
  | [] => "# Transition Failure Matrix" +:+ nl +:+ nl +:+ "No transitions found."
  | states =>
      let rate :=
        if 0 <? Analyze.total_transitions self
        then (inject_Z (Analyze.total_failures self)
              / inject_Z (Analyze.total_transitions self) * 100)%Q
        else 0%Q in
      let hotspots := matrix_hotspots (Analyze.matrix self) 2 in
      String.concat nl
        (["# Transition Failure Matrix" +:+ nl;
          "**Total Transitions:** " +:+ str_Z (Analyze.total_transitions self);
          "**Total Failures:** " +:+ str_Z (Analyze.total_failures self);
          "**Failure Rate:** " +:+ format_1f rate +:+ "%" +:+ nl;
          fold_left (fun h state => h +:+ " " +:+ state +:+ " |") states
                    "| From \ To |";
          fold_left (fun s _ => s +:+ "--------|") states "|-----------|"]
         ++ count_rows (fun f => "| **" +:+ f +:+ "** |") markdown_cell states
                       (Analyze.matrix self)
         ++ match hotspots with
            | [] => []
            | _ => (nl +:+ "## Hotspots (failures >= 2)" +:+ nl)
                   :: map (fun h => "- " +:+ fst (fst h) +:+ " -> "
                                    +:+ snd (fst h) +:+ ": **"
                                    +:+ str_Z (snd h) +:+ " failures**")
                          (take 10 hotspots)
            end)
  end.

(** The same for [render_ascii]. *)
Definition ascii_of_counts (self : Analyze.TransitionFailureMatrix) : string :=
  match Analyze.get_all_states self with
  | [] => "No transitions found."
  | s :: l =>
      let states := s :: l in
      let col_width :=
        Nat.max (fold_left Nat.max (map py_len l) (py_len s)) 4 in
      let header :=
        fold_left
          (fun h state =>
             h +:+ format_center col_width (py_len state) state +:+ " ")
          states (str_repeat " " (col_width + 3)) in
      let hotspots := matrix_hotspots (Analyze.matrix self) 2 in
      String.concat nl
        (["Total Transitions: " +:+ str_Z (Analyze.total_transitions self);
          "Total Failures: " +:+ str_Z (Analyze.total_failures self);
          EmptyString; header; str_repeat "-" (py_len header)]
         ++ count_rows (fun f => format_right col_width f +:+ " |")
              (fun count =>
                 if 0 <? count
                 then format_center col_width (py_len (str_Z count))
                        (str_Z count) +:+ " "
                 else format_center col_width 1 middle_dot +:+ " ")
              states (Analyze.matrix self)
         ++ match hotspots with
            | [] => []
            | _ => EmptyString :: "Hotspots:"
                   :: map (fun h => "  " +:+ fst (fst h) +:+ " -> "
                                    +:+ snd (fst h) +:+ ": " +:+ str_Z (snd h))
                          (take 5 hotspots)
            end)
  end.

(** The same for the tracker's [render_markdown]. *)
Definition tracker_markdown_of_counts (self : Decorator.TransitionTracker)
  : string :=
  let summary := Decorator.get_matrix_summary self in
  match Decorator.summary_states summary with
  | [] => "# Transition Failure Matrix" +:+ nl +:+ nl +:+ "No transitions recorded."
  | states =>
      let hotspots := matrix_hotspots (Decorator.matrix self) 2 in
      String.concat nl
        (["# Transition Failure Matrix" +:+ nl;
          "**Total Events:** " +:+ str_Z (Decorator.total_events summary);
          "**Total Failures:** " +:+ str_Z (Decorator.total_failures summary)
          +:+ nl]
         ++ Decorator.markdown_header states
         ++ count_rows (fun f => "| **" +:+ f +:+ "** |") markdown_cell states
                       (Decorator.matrix self)
         ++ match hotspots with
            | [] => []
            | _ => (nl +:+ "## Hotspots" +:+ nl)
                   :: map Decorator.hotspot_line (take 10 hotspots)
            end)
  end.

(** The states of [m'] are those of [m] and some of [extra]. *)
Definition states_within (extra : list string) (m m' : Matrix) : Prop :=
  forall x,
    (In x (Decorator.matrix_states m) -> In x (Decorator.matrix_states m'))
    /\ (In x (Decorator.matrix_states m') ->
        In x (Decorator.matrix_states m) \/ In x extra).

(** * Properties *)

(** ** Dictionaries and the matrix *)

Lemma od_get_set_same {V : Type} (k : string) (v : V) (d : odict V) :
  od_get k (od_set k v d) = Some v.
Proof.
  induction d as [|[k' v'] d IH]; simpl.
  - now rewrite String.eqb_refl.
  - destruct (String.eqb k k') eqn:E; simpl; now rewrite E.
Qed.

Lemma od_get_set_other {V : Type} (k k' : string) (v : V) (d : odict V) :
  k <> k' -> od_get k' (od_set k v d) = od_get k' d.
Proof.
  intros Hne. induction d as [|[k0 v0] d IH]; simpl.
  - apply String.eqb_neq in Hne. rewrite String.eqb_sym in Hne. now rewrite Hne.
  - destruct (String.eqb k k0) eqn:E; simpl.
    + apply String.eqb_eq in E. subst k0.
      destruct (String.eqb k' k) eqn:E'; [|reflexivity].
      apply String.eqb_eq in E'. congruence.
    + now rewrite IH.
Qed.

Lemma od_weight_set {V : Type} (w : V -> Z) (k : string) (v : V) (d : odict V) :
  od_weight w (od_set k v d)
  = od_weight w d - from_option w 0 (od_get k d) + w v.
Proof.
  unfold od_weight. induction d as [|[k' v'] d IH]; simpl.
  - lia.
  - destruct (String.eqb k k'); simpl; lia.
Qed.

Lemma sum_Z_app (l1 l2 : list Z) : sum_Z (l1 ++ l2) = sum_Z l1 + sum_Z l2.
Proof. induction l1 as [|x l1 IH]; simpl; lia. Qed.

Lemma matrix_total_rows (m : Matrix) :
  matrix_total m = od_weight (od_weight id) m.
Proof.
  unfold matrix_total, matrix_items, od_weight.
  induction m as [|[f row] m IH]; simpl; [reflexivity|].
  rewrite map_app, sum_Z_app, IH. f_equal.
  unfold row_items. rewrite map_map. reflexivity.
Qed.

Lemma matrix_total_incr (f t : string) (m : Matrix) :
  matrix_total (matrix_incr f t m) = matrix_total m + 1.
Proof.
  rewrite !matrix_total_rows. unfold matrix_incr.
  rewrite od_weight_set, od_weight_set.
  destruct (od_get f m) as [row|]; simpl.
  - destruct (od_get t row); simpl; unfold id; lia.
  - unfold od_weight; simpl. unfold id. lia.
Qed.

Lemma failure_count_incr (f t f' t' : string) (m : Matrix) :
  failure_count (matrix_incr f t m) f' t'
  = failure_count m f' t'
    + (if String.eqb f' f && String.eqb t' t then 1 else 0).
Proof.
  unfold failure_count, matrix_incr.
  destruct (String.eqb f' f) eqn:Ef.
  - apply String.eqb_eq in Ef. subst f'. rewrite od_get_set_same. simpl.
    destruct (String.eqb t' t) eqn:Et.
    + apply String.eqb_eq in Et. subst t'. rewrite od_get_set_same.
      destruct (od_get f m) as [row|]; simpl; [|lia].
      destruct (od_get t row); simpl; lia.
    + apply String.eqb_neq in Et.
      rewrite od_get_set_other by congruence.
      destruct (od_get f m) as [row|]; simpl; lia.
  - apply String.eqb_neq in Ef.
    rewrite od_get_set_other by congruence. simpl. lia.
Qed.

(** ** Recording *)

Lemma run_calls_events (cs : list Call) (t : Decorator.TransitionTracker) :
  Decorator.events (run_calls cs t) = Decorator.events t ++ map call_event cs.
Proof.
  revert t. induction cs as [|c cs IH]; intros t; simpl.
  - now rewrite app_nil_r.
  - rewrite IH. simpl. now rewrite <- app_assoc.
Qed.

Lemma run_calls_matrix_total (cs : list Call) (t : Decorator.TransitionTracker) :
  matrix_total (Decorator.matrix (run_calls cs t))
  = matrix_total (Decorator.matrix t) + failed_calls cs.
Proof.
  revert t. unfold failed_calls.
  induction cs as [|c cs IH]; intros t; simpl; [lia|].
  rewrite IH. simpl.
  destruct (call_success c); simpl; [lia|].
  rewrite matrix_total_incr. lia.
Qed.

Lemma failed_events_of_calls (cs : list Call) :
  length (List.filter (fun e => negb (Decorator.success e)) (map call_event cs))
  = length (List.filter (fun c => negb (call_success c)) cs).
Proof.
  induction cs as [|c cs IH]; simpl; [reflexivity|].
  destruct (call_success c); simpl; now rewrite IH.
Qed.

Lemma run_records_counts (rs : list (string * string * bool))
    (m : Analyze.TransitionFailureMatrix) :
  let m' := run_records rs m in
  matrix_total (Analyze.matrix m')
    = matrix_total (Analyze.matrix m) + failed_records rs
  /\ Analyze.total_failures m' = Analyze.total_failures m + failed_records rs
  /\ Analyze.total_transitions m'
     = Analyze.total_transitions m + Z.of_nat (length rs).
Proof.
  revert m. unfold failed_records.
  induction rs as [|[[f t] s] rs IH]; intros m; simpl.
  - lia.
  - destruct (IH (Analyze.record_transition m f t s)) as (H1 & H2 & H3).
    unfold run_records in *. simpl in *. rewrite H1, H2, H3.
    unfold Analyze.record_transition.
    destruct s; simpl; rewrite ?matrix_total_incr; lia.
Qed.

(** C1. On a fresh tracker, after any sequence of [record_transition] calls,
    the events are those of the calls, the counts of the failure matrix sum
    to the number of events with success false, which is the summary's
    total_failures, and the summary's total_events is the number of calls.
    On a fresh analyzer matrix (with or without a fixed state list), the
    counts sum to total_failures, which is the number of records with
    success false, and total_transitions is the number of records. *)
Theorem counts_match_recorded_events
    (cs : list Call) (states : option (list string))
    (rs : list (string * string * bool)) :
  let t := run_calls cs Decorator.init in
  let m := run_records rs (Analyze.init states) in
  let failed_events :=
    Z.of_nat (length (List.filter (fun e => negb (Decorator.success e))
                                  (Decorator.events t))) in
  Decorator.events t = map call_event cs
  /\ failed_events = failed_calls cs
  /\ matrix_total (Decorator.matrix t) = failed_events
  /\ Decorator.total_failures (Decorator.get_matrix_summary t) = failed_events
  /\ Decorator.total_events (Decorator.get_matrix_summary t)
     = Z.of_nat (length cs)
  /\ matrix_total (Analyze.matrix m) = failed_records rs
  /\ Analyze.total_failures m = failed_records rs
  /\ Analyze.total_transitions m = Z.of_nat (length rs).
Proof.
  intros t m failed_events.
  assert (Hev : Decorator.events t = map call_event cs).
  { subst t. now rewrite run_calls_events. }
  assert (Hfe : failed_events = failed_calls cs).
  { subst failed_events. rewrite Hev, failed_events_of_calls. reflexivity. }
  split; [exact Hev|]. split; [exact Hfe|].
  split.
  { rewrite Hfe. subst t. rewrite run_calls_matrix_total. reflexivity. }
  split; [reflexivity|].
  split.
  { simpl. rewrite Hev, length_map. reflexivity. }
  destruct (run_records_counts rs (Analyze.init states)) as (H1 & H2 & H3).
  simpl in H1, H2, H3. subst m. rewrite H1, H2, H3. repeat split; lia.
Qed.

(** The scenario of the specification, evaluated. *)
Example scenario_three_records :
  let t := run_calls scenario_calls Decorator.init in
  Decorator.total_events (Decorator.get_matrix_summary t) = 3
  /\ Decorator.total_failures (Decorator.get_matrix_summary t) = 2
  /\ Decorator.get_hotspots t 2 = [("B", "C", 2)]
  /\ (rates ← Ledger.get_transition_rates t;
      stats ← od_get (Ledger.pair_label "B" "C") rates;
      Some (Ledger.total stats, Ledger.successes stats, Ledger.failures stats,
            Qred (Ledger.failure_rate stats), Qred (Ledger.avg_duration_ms stats)))
     = Some (2, 0, 2, 100%Q, (35 # 2)%Q).
Proof. repeat split; reflexivity. Qed.

(** C2. One call of [record_transition] appends exactly one event, built
    from the arguments; the failure count of (from_state, to_state) goes up
    by one exactly when success is false and no other count changes; the
    current state of workflow_id becomes to_state exactly when success is
    true and the mapping is otherwise unchanged. The operation is total: it
    has a result for every state name, the empty one included. *)
Theorem record_transition_effect
    (self : Decorator.TransitionTracker) (from_state to_state : string)
    (success : bool) (duration_ms : Q) (error_message : option string)
    (workflow_id : string) (metadata : list (string * string)) (now : Z) :
  let self' := Decorator.record_transition self from_state to_state success
                 duration_ms error_message workflow_id metadata now in
  Decorator.events self'
    = Decorator.events self
      ++ [Decorator.mkEvent from_state to_state success now duration_ms
                            error_message metadata]
  /\ (forall f t,
        failure_count (Decorator.matrix self') f t
        = failure_count (Decorator.matrix self) f t
          + (if negb success && (String.eqb f from_state && String.eqb t to_state)
             then 1 else 0))
  /\ Decorator.current_state self'
     = (if success
        then <[workflow_id := to_state]> (Decorator.current_state self)
        else Decorator.current_state self)
  /\ (forall w,
        Decorator.get_current_state self' w
        = (if success && String.eqb w workflow_id then Some to_state
           else Decorator.get_current_state self w)).
Proof.
  intros self'. subst self'. simpl.
  split; [reflexivity|]. split.
  { intros f t. destruct success; simpl; [lia|]. apply failure_count_incr. }
  split; [reflexivity|].
  intros w. unfold Decorator.get_current_state. simpl.
  destruct success; simpl; [|reflexivity].
  destruct (String.eqb w workflow_id) eqn:E.
  - apply String.eqb_eq in E. subst w. apply lookup_insert_eq.
  - apply String.eqb_neq in E. apply lookup_insert_ne. congruence.
Qed.

(** ** Sorting *)

Section Sorting.

Context {A : Type}.
Variable key : A -> Z.

Lemma insert_sorted_perm (le : A -> A -> bool) (x : A) (l : list A) :
  Permutation (insert_sorted le x l) (x :: l).
Proof.
  induction l as [|y l IH]; simpl; [reflexivity|].
  destruct (le x y); [reflexivity|].
  rewrite IH. apply perm_swap.
Qed.

Lemma sorted_with_perm (le : A -> A -> bool) (l : list A) :
  Permutation (sorted_with le l) l.
Proof.
  induction l as [|x l IH]; simpl; [reflexivity|].
  rewrite insert_sorted_perm. now apply perm_skip.
Qed.

Let key_le (a b : A) : Prop := key a <= key b.
Let key_leb (a b : A) : bool := key a <=? key b.

Lemma insert_sorted_sorted (x : A) (l : list A) :
  StronglySorted key_le l -> StronglySorted key_le (insert_sorted key_leb x l).
Proof.
  induction 1 as [|y l Hs IH Hy]; simpl.
  - repeat constructor.
  - unfold key_leb at 1. destruct (Z.leb_spec (key x) (key y)) as [Hle|Hlt].
    + constructor; [now constructor|].
      constructor; [exact Hle|].
      eapply Forall_impl; [exact Hy|]. unfold key_le. intros z Hz. simpl in Hz. lia.
    + constructor; [exact IH|].
      eapply Permutation_Forall.
      * symmetry. apply insert_sorted_perm.
      * constructor; [unfold key_le; lia|exact Hy].
Qed.

Lemma sorted_by_sorted (l : list A) : StronglySorted key_le (sorted_by key l).
Proof.
  induction l as [|x l IH]; simpl; [constructor|].
  now apply insert_sorted_sorted.
Qed.

(** Stability: elements of equal key keep their order. *)
Lemma insert_sorted_stable (c : Z) (x : A) (l : list A) :
  List.filter (fun y => key y =? c) (insert_sorted key_leb x l)
  = List.filter (fun y => key y =? c) (x :: l).
Proof.
  induction l as [|y l IH]; simpl; [reflexivity|].
  unfold key_leb at 1. destruct (Z.leb_spec (key x) (key y)) as [Hle|Hlt].
  - reflexivity.
  - simpl. rewrite IH. simpl.
    destruct (Z.eqb_spec (key x) c), (Z.eqb_spec (key y) c); try reflexivity.
    lia.
Qed.

Lemma sorted_by_stable (c : Z) (l : list A) :
  List.filter (fun y => key y =? c) (sorted_by key l)
  = List.filter (fun y => key y =? c) l.
Proof.
  induction l as [|x l IH]; simpl; [reflexivity|].
  unfold sorted_by, sorted_with in *. simpl.
  rewrite (insert_sorted_stable c x). simpl. now rewrite IH.
Qed.

End Sorting.

Lemma strongly_sorted_weaken {A : Type} (R1 R2 : A -> A -> Prop) (l : list A) :
  (forall x y, R1 x y -> R2 x y) -> StronglySorted R1 l -> StronglySorted R2 l.
Proof.
  intros HR. induction 1 as [|x l Hs IH Hx]; constructor; [exact IH|].
  eapply Forall_impl; [exact Hx|]. intros y. apply HR.
Qed.

Lemma filter_ext_count (c : Z) (l : list (string * string * Z)) :
  List.filter (fun x => - hotspot_count x =? - c) l
  = List.filter (fun x => hotspot_count x =? c) l.
Proof.
  apply List.filter_ext. intros x.
  destruct (Z.eqb_spec (- hotspot_count x) (- c)), (Z.eqb_spec (hotspot_count x) c);
    (reflexivity || lia).
Qed.

Lemma matrix_hotspots_spec (m : Matrix) (min_count : Z) :
  hotspots_of (matrix_items m) min_count (matrix_hotspots m min_count).
Proof.
  unfold hotspots_of, matrix_hotspots. split; [|split].
  - apply sorted_with_perm.
  - eapply strongly_sorted_weaken;
      [|apply (sorted_by_sorted (fun x => - hotspot_count x))].
    simpl. intros x y H. lia.
  - intros c. rewrite <- (filter_ext_count c (sorted_by _ _)).
    rewrite sorted_by_stable. apply filter_ext_count.
Qed.

(** A list sorted by count descending is determined by its sublists of
    equal count. *)
Lemma sorted_groups_unique (l1 l2 : list (string * string * Z)) :
  StronglySorted (fun x y => hotspot_count y <= hotspot_count x) l1 ->
  StronglySorted (fun x y => hotspot_count y <= hotspot_count x) l2 ->
  (forall c, List.filter (fun x => hotspot_count x =? c) l1
             = List.filter (fun x => hotspot_count x =? c) l2) ->
  l1 = l2.
Proof.
  intros H1. revert l2.
  induction H1 as [|x l1 Hs1 IH Hx]; intros l2 H2 Heq.
  - destruct l2 as [|y l2]; [reflexivity|].
    specialize (Heq (hotspot_count y)). simpl in Heq.
    rewrite Z.eqb_refl in Heq. discriminate.
  - destruct H2 as [|y l2 Hs2 Hy].
    + specialize (Heq (hotspot_count x)). simpl in Heq.
      rewrite Z.eqb_refl in Heq. discriminate.
    + assert (Hxy : hotspot_count x = hotspot_count y).
      { apply Z.le_antisymm.
        - pose proof (Heq (hotspot_count x)) as E. simpl in E.
          rewrite Z.eqb_refl in E.
          assert (Hin : In x (List.filter (fun z => hotspot_count z =? hotspot_count x)
                                          (y :: l2))).
          { simpl. rewrite <- E. now left. }
          apply filter_In in Hin. destruct Hin as [[->|Hin] _]; [lia|].
          rewrite Forall_forall in Hy. apply Hy. now apply list_elem_of_In.
        - pose proof (Heq (hotspot_count y)) as E. simpl in E.
          rewrite Z.eqb_refl in E.
          assert (Hin : In y (List.filter (fun z => hotspot_count z =? hotspot_count y)
                                          (x :: l1))).
          { simpl. rewrite E. now left. }
          apply filter_In in Hin. destruct Hin as [[->|Hin] _]; [lia|].
          rewrite Forall_forall in Hx. apply Hx. now apply list_elem_of_In. }
      assert (x = y).
      { pose proof (Heq (hotspot_count x)) as E. simpl in E.
        rewrite <- Hxy, Z.eqb_refl in E. congruence. }
      subst y. f_equal. apply IH; [exact Hs2|].
      intros c. specialize (Heq c). simpl in Heq.
      destruct (hotspot_count x =? c); congruence.
Qed.

Lemma hotspots_of_unique (entries hs1 hs2 : list (string * string * Z))
    (min_count : Z) :
  hotspots_of entries min_count hs1 -> hotspots_of entries min_count hs2 ->
  hs1 = hs2.
Proof.
  intros (_ & S1 & E1) (_ & S2 & E2).
  apply sorted_groups_unique; [exact S1|exact S2|].
  intros c. now rewrite E1, E2.
Qed.

(** The keys of a dictionary after an assignment. *)
Lemma od_set_keys {V : Type} (k : string) (v : V) (d : odict V) :
  map fst (od_set k v d)
  = if existsb (String.eqb k) (map fst d) then map fst d else map fst d ++ [k].
Proof.
  induction d as [|[k' v'] d IH]; simpl; [reflexivity|].
  destruct (String.eqb k k'); simpl; [reflexivity|].
  rewrite IH. now destruct (existsb (String.eqb k) (map fst d)).
Qed.

Lemma matrix_incr_row (f t f' : string) (m : Matrix) :
  map fst (default [] (od_get f' (matrix_incr f t m)))
  = if String.eqb f' f
    then add_first_occurrences (map fst (default [] (od_get f' m))) [t]
    else map fst (default [] (od_get f' m)).
Proof.
  unfold matrix_incr, add_first_occurrences.
  destruct (String.eqb f' f) eqn:E.
  - apply String.eqb_eq in E. subst f'. rewrite od_get_set_same. simpl.
    apply od_set_keys.
  - apply String.eqb_neq in E. rewrite od_get_set_other by congruence.
    reflexivity.
Qed.

Lemma run_calls_matrix_order (cs : list Call) (t : Decorator.TransitionTracker) :
  map fst (Decorator.matrix (run_calls cs t))
    = add_first_occurrences (map fst (Decorator.matrix t))
                            (map call_from (failures_of cs))
  /\ forall f,
       map fst (default [] (od_get f (Decorator.matrix (run_calls cs t))))
       = add_first_occurrences
           (map fst (default [] (od_get f (Decorator.matrix t))))
           (map call_to
              (List.filter (fun c => String.eqb f (call_from c)) (failures_of cs))).
Proof.
  revert t. induction cs as [|c cs IH]; intros t; [now split|].
  destruct (IH (do_call t c)) as [Hrows Hcells]. simpl.
  unfold run_calls in *. split.
  - rewrite Hrows. unfold do_call at 1. simpl.
    destruct (call_success c); simpl; [reflexivity|].
    unfold matrix_incr. rewrite od_set_keys. reflexivity.
  - intros f. rewrite Hcells. unfold do_call at 1. simpl.
    destruct (call_success c); simpl; [reflexivity|].
    rewrite matrix_incr_row.
    destruct (String.eqb f (call_from c)); reflexivity.
Qed.

(** The iteration order of the matrix of a tracker that has only recorded
    transitions: the rows in the order in which their from_state first
    failed, the cells of a row in the order in which its to_state first
    failed from that state. *)
Lemma matrix_iteration_order (cs : list Call) :
  let m := Decorator.matrix (run_calls cs Decorator.init) in
  map fst m = first_occurrences (map call_from (failures_of cs))
  /\ forall f,
       map fst (default [] (od_get f m))
       = first_occurrences
           (map call_to
              (List.filter (fun c => String.eqb f (call_from c)) (failures_of cs))).
Proof. exact (run_calls_matrix_order cs Decorator.init). Qed.

(** C3, as the code has it. For every tracker, every analyzer matrix and
    every min_count, [get_hotspots(min_count)] is exactly the entries of the
    failure matrix with count >= min_count, sorted by count descending,
    entries of equal count staying in the iteration order of the nested
    dictionaries: rows in the order their from_state first failed, cells of
    a row in the order its to_state first failed. These conditions leave
    one possible result, which depends on the matrix alone, so repeated
    calls on the same state agree. *)
Theorem hotspots_filtered_sorted_stable
    (t : Decorator.TransitionTracker) (a : Analyze.TransitionFailureMatrix)
    (min_count : Z) :
  hotspots_of (matrix_items (Decorator.matrix t)) min_count
              (Decorator.get_hotspots t min_count)
  /\ hotspots_of (matrix_items (Analyze.matrix a)) min_count
                 (Analyze.get_hotspots a min_count)
  /\ (forall hs, hotspots_of (matrix_items (Decorator.matrix t)) min_count hs ->
                 hs = Decorator.get_hotspots t min_count)
  /\ (forall hs, hotspots_of (matrix_items (Analyze.matrix a)) min_count hs ->
                 hs = Analyze.get_hotspots a min_count).
Proof.
  pose proof (matrix_hotspots_spec (Decorator.matrix t) min_count) as Ht.
  pose proof (matrix_hotspots_spec (Analyze.matrix a) min_count) as Ha.
  repeat split; try apply Ht; try apply Ha.
  - intros hs H. eapply hotspots_of_unique; [exact H|exact Ht].
  - intros hs H. eapply hotspots_of_unique; [exact H|exact Ha].
Qed.

(** The theorem at the tracker with failures A to B, C to D, A to E: the
    one list that meets [hotspots_of] there. *)
Lemma hotspots_filtered_sorted_stable_witness :
  hotspots_of (matrix_items (Decorator.matrix tracker_AB_CD_AE)) 1
              [("A", "B", 1); ("A", "E", 1); ("C", "D", 1)]
  /\ [("A", "B", 1); ("A", "E", 1); ("C", "D", 1)]
     = Decorator.get_hotspots tracker_AB_CD_AE 1.
Proof.
  assert (H : hotspots_of (matrix_items (Decorator.matrix tracker_AB_CD_AE)) 1
                [("A", "B", 1); ("A", "E", 1); ("C", "D", 1)]).
  { exact (proj1 (hotspots_filtered_sorted_stable
                    tracker_AB_CD_AE (Analyze.init None) 1)). }
  split; [exact H|].
  exact (proj1 (proj2 (proj2 (hotspots_filtered_sorted_stable
                                tracker_AB_CD_AE (Analyze.init None) 1)))
               _ H).
Defined.

(** C3, as stated, fails. After failures A to B, C to D, A to E (each pair
    once), the pairs first occurred in that order, but [get_hotspots(1)]
    lists A to E before C to D: the row of A was created first. *)
Lemma hotspots_ties_not_by_first_occurrence :
  Decorator.get_hotspots tracker_AB_CD_AE 1
    = [("A", "B", 1); ("A", "E", 1); ("C", "D", 1)]
  /\ hotspots_first_occurrence (Decorator.events tracker_AB_CD_AE) 1
    = [("A", "B", 1); ("C", "D", 1); ("A", "E", 1)]
  /\ Decorator.get_hotspots tracker_AB_CD_AE 1
     <> hotspots_first_occurrence (Decorator.events tracker_AB_CD_AE) 1.
Proof.
  split; [reflexivity|]. split; [reflexivity|]. discriminate.
Qed.

(** ** The current state of a workflow *)

Lemma do_op_current_state (t : Decorator.TransitionTracker) (op : TrackerOp)
    (w : string) :
  Decorator.get_current_state (do_op t op) w
  = match entered w op with
    | Some s => Some s
    | None => Decorator.get_current_state t w
    end.
Proof.
  unfold Decorator.get_current_state.
  destruct op as [c|state w']; simpl.
  - destruct (call_success c); simpl; [|reflexivity].
    destruct (String.eqb (call_workflow c) w) eqn:E.
    + apply String.eqb_eq in E. subst w. apply lookup_insert_eq.
    + apply String.eqb_neq in E. now apply lookup_insert_ne.
  - destruct (String.eqb w' w) eqn:E.
    + apply String.eqb_eq in E. subst w. apply lookup_insert_eq.
    + apply String.eqb_neq in E. now apply lookup_insert_ne.
Qed.

Lemma run_ops_current_state (ops : list TrackerOp)
    (t : Decorator.TransitionTracker) (w : string) :
  Decorator.get_current_state (run_ops ops t) w
  = match most_recent_entered w ops with
    | Some s => Some s
    | None => Decorator.get_current_state t w
    end.
Proof.
  unfold most_recent_entered.
  induction ops as [|op ops IH] using rev_ind; [reflexivity|].
  unfold run_ops in *. rewrite fold_left_app. simpl.
  rewrite do_op_current_state, rev_app_distr. simpl.
  destruct (entered w op); simpl; [reflexivity|exact IH].
Qed.

(** C5, as the code has it. [get_current_state(workflow_id)] is a lookup
    that returns None, not a sentinel, for a workflow with no successful
    record and no [set_state], and otherwise the state most recently
    entered by that workflow (the to_state of its last successful record or
    the state of its last [set_state]); the sentinel START is what the
    [track_state] wrappers put in place of None or of an empty state when
    they infer the from_state. *)
Theorem current_state_most_recent (ops : list TrackerOp) (workflow_id : string) :
  let t := run_ops ops Decorator.init in
  Decorator.get_current_state t workflow_id
    = most_recent_entered workflow_id ops
  /\ Decorator.inferred_from_state t workflow_id
     = match most_recent_entered workflow_id ops with
       | Some (String c s) => String c s
       | _ => "START"
       end.
Proof.
  intros t.
  assert (H : Decorator.get_current_state t workflow_id
              = most_recent_entered workflow_id ops).
  { subst t. rewrite run_ops_current_state.
    destruct (most_recent_entered workflow_id ops); reflexivity. }
  split; [exact H|].
  unfold Decorator.inferred_from_state. now rewrite H.
Qed.

(** C5, as stated, fails: on a fresh tracker, and after a failed record,
    the lookup returns None, not START. *)
Lemma current_state_absent_is_not_START :
  Decorator.get_current_state Decorator.init "default" = None
  /\ Decorator.get_current_state
       (run_calls [failed_call "A" "B"] Decorator.init) "default" = None
  /\ Decorator.get_current_state Decorator.init "default" <> Some "START".
Proof.
  split; [reflexivity|]. split; [reflexivity|]. discriminate.
Qed.

(** ** The regular-expression matcher *)

Lemma match_star_sound {R : Type} (c : cclass) (s : string)
    (k : string -> option R) (x : R) :
  match_star c s k = Some x -> exists rest, star_run c s rest /\ k rest = Some x.
Proof.
  induction s as [|a s IH]; simpl; intros H.
  - exists EmptyString. split; [constructor|exact H].
  - destruct (in_class c a) eqn:Ec.
    + destruct (match_star c s k) as [y|] eqn:Es.
      * injection H as ->. destruct (IH eq_refl) as (rest & Hr & Hk).
        exists rest. split; [now constructor|exact Hk].
      * exists (String a s). split; [constructor|exact H].
    + exists (String a s). split; [constructor|exact H].
Qed.

Lemma match_here_sound {R : Type} (ic : bool) (r : regex) :
  forall (s : string) (g : list string)
         (k : string -> list string -> option R) (x : R),
    match_here ic r s g k = Some x ->
    exists rest g', matches ic r s g rest g' /\ k rest g' = Some x.
Proof.
  induction r as [l|c|c|r IH|r1 IH1 r2 IH2|r1 IH1 r2 IH2]; simpl; intros s g k x H.
  - destruct (match_lit ic l s) as [rest|] eqn:El; [|discriminate].
    exists rest, g. split; [now constructor|exact H].
  - apply match_star_sound in H. destruct H as (rest & Hr & Hk).
    exists rest, g. split; [now constructor|exact Hk].
  - destruct s as [|a s]; [discriminate|].
    destruct (in_class c a) eqn:Ec; [|discriminate].
    apply match_star_sound in H. destruct H as (rest & Hr & Hk).
    exists rest, g. split; [now constructor|exact Hk].
  - apply IH in H. destruct H as (rest & g' & Hm & Hk).
    exists rest, (g' ++ [consumed s rest]). split; [now constructor|exact Hk].
  - destruct (match_here ic r1 s g k) as [y|] eqn:E1.
    + injection H as ->. apply IH1 in E1. destruct E1 as (rest & g' & Hm & Hk).
      exists rest, g'. split; [now apply M_AltL|exact Hk].
    + apply IH2 in H. destruct H as (rest & g' & Hm & Hk).
      exists rest, g'. split; [now apply M_AltR|exact Hk].
  - apply IH1 in H. destruct H as (mid & g1 & Hm1 & H).
    apply IH2 in H. destruct H as (rest & g2 & Hm2 & Hk).
    exists rest, g2. split; [eapply M_Seq; eassumption|exact Hk].
Qed.

Lemma re_search_sound (ic : bool) (r : regex) (s : string) (groups : list string) :
  re_search ic r s = Some groups ->
  exists s' rest, matches ic r s' [] rest groups.
Proof.
  induction s as [|a s IH]; simpl; intros H.
  - destruct (match_here ic r EmptyString [] (fun _ g => Some g)) as [g|] eqn:E;
      [|discriminate].
    injection H as ->. apply match_here_sound in E.
    destruct E as (rest & g' & Hm & Hk). injection Hk as ->. eauto.
  - destruct (match_here ic r (String a s) [] (fun _ g => Some g)) as [g|] eqn:E.
    + injection H as ->. apply match_here_sound in E.
      destruct E as (rest & g' & Hm & Hk). injection Hk as ->. eauto.
    + auto.
Qed.

Lemma match_lit_length (ic : bool) (l s rest : string) :
  match_lit ic l s = Some rest ->
  String.length s = (String.length l + String.length rest)%nat.
Proof.
  revert s. induction l as [|a l IH]; intros s; simpl.
  - now intros [= ->].
  - destruct s as [|b s]; [discriminate|].
    destruct (char_eq ic a b); [|discriminate].
    intros H. simpl. f_equal. now apply IH.
Qed.

Lemma match_lit_take_upper (l s rest : string) :
  match_lit true l s = Some rest ->
  upper (str_take (String.length l) s) = upper l.
Proof.
  revert s. induction l as [|a l IH]; intros s; simpl; [reflexivity|].
  destruct s as [|b s]; [discriminate|].
  destruct (Ascii.eqb (upper_ascii a) (upper_ascii b)) eqn:E; [|discriminate].
  intros H. simpl. apply Ascii.eqb_eq in E. rewrite E. f_equal. now apply IH.
Qed.

(** Under IGNORECASE a literal matches text that is the literal up to case. *)
Lemma match_lit_consumed_upper (l s rest : string) :
  match_lit true l s = Some rest -> upper (consumed s rest) = upper l.
Proof.
  intros H. unfold consumed.
  rewrite (match_lit_length _ _ _ _ H).
  replace (String.length l + String.length rest - String.length rest)%nat
    with (String.length l) by lia.
  now apply (match_lit_take_upper l s rest).
Qed.

Lemma star_run_length (c : cclass) (s rest : string) :
  star_run c s rest -> (String.length rest <= String.length s)%nat.
Proof. induction 1; simpl; lia. Qed.

(** A group around [\w+] captures at least one character. *)
Lemma plus_group_nonempty (c : cclass) (a : ascii) (s rest : string) :
  star_run c s rest -> consumed (String a s) rest <> EmptyString.
Proof.
  intros H. apply star_run_length in H. unfold consumed. simpl.
  replace (S (String.length s) - String.length rest)%nat
    with (S (String.length s - String.length rest)) by lia.
  discriminate.
Qed.

Ltac invert_matches :=
  repeat match goal with
    | H : matches _ (Seq _ _) _ _ _ _ |- _ => inversion H; subst; clear H
    | H : matches _ (Group _) _ _ _ _ |- _ => inversion H; subst; clear H
    | H : matches _ (Star _) _ _ _ _ |- _ => inversion H; subst; clear H
    | H : matches _ (Plus _) _ _ _ _ |- _ => inversion H; subst; clear H
    | H : matches _ (Lit _) _ _ _ _ |- _ => inversion H; subst; clear H
    | H : matches _ (Alt _ _) _ _ _ _ |- _ => inversion H; subst; clear H
    end.

(** The groups of a match of the TRANSITION pattern: two non-empty names
    and SUCCESS or FAILURE in some mix of cases. *)
Lemma search_transition_groups (line from_state to_state result : string) :
  Analyze.search_transition line = Some (from_state, to_state, result) ->
  from_state <> EmptyString /\ to_state <> EmptyString
  /\ (upper result = "SUCCESS" \/ upper result = "FAILURE").
Proof.
  unfold Analyze.search_transition.
  destruct (re_search true Analyze.TRANSITION_PATTERN line) as [g|] eqn:E;
    [|discriminate].
  apply re_search_sound in E. destruct E as (s' & rest & Hm).
  unfold Analyze.TRANSITION_PATTERN in Hm. invert_matches; simpl;
    intros [= <- <- <-];
    (split; [eapply plus_group_nonempty; eassumption|]);
    (split; [eapply plus_group_nonempty; eassumption|]).
  - left. now apply (match_lit_consumed_upper "SUCCESS").
  - right. now apply (match_lit_consumed_upper "FAILURE").
Qed.

Lemma search_state_change_nonempty (line new_state : string) :
  Analyze.search_state_change line = Some new_state -> new_state <> EmptyString.
Proof.
  unfold Analyze.search_state_change.
  destruct (re_search false Analyze.STATE_CHANGE_PATTERN line) as [g|] eqn:E;
    [|discriminate].
  apply re_search_sound in E. destruct E as (s' & rest & Hm).
  unfold Analyze.STATE_CHANGE_PATTERN in Hm. invert_matches; simpl.
  intros [= <-]. eapply plus_group_nonempty; eassumption.
Qed.

(** ** The log parser

    The statements about what a line matches take the lines to be ASCII
    text ([ascii_text]), on which the classes, [strip], [upper] and
    IGNORECASE of the model are Python's. *)

Lemma parse_lines_state_snoc (states : option (list string))
    (lines : list string) (raw : string) :
  Analyze.parse_lines_state states (lines ++ [raw])
  = Analyze.parse_line (Analyze.parse_lines_state states lines) raw.
Proof. unfold Analyze.parse_lines_state. now rewrite fold_left_app. Qed.

Lemma parse_line_transition (m : Analyze.TransitionFailureMatrix)
    (cur : option string) (raw from_state to_state result : string) :
  Analyze.search_transition (strip raw) = Some (from_state, to_state, result) ->
  Analyze.parse_line (m, cur) raw
  = (Analyze.record_transition m from_state to_state
       (String.eqb (upper result) "SUCCESS"),
     Some (if String.eqb (upper result) "SUCCESS" then to_state else from_state)).
Proof.
  intros H. unfold Analyze.parse_line.
  destruct (strip raw) as [|c s] eqn:E.
  - vm_compute in H. discriminate.
  - now rewrite H.
Qed.

Lemma parse_line_state_change (m : Analyze.TransitionFailureMatrix)
    (cur : option string) (raw new_state : string) :
  Analyze.search_transition (strip raw) = None ->
  Analyze.search_state_change (strip raw) = Some new_state ->
  Analyze.parse_line (m, cur) raw
  = ((if truthy cur && negb (String.eqb (default EmptyString cur) new_state)
      then Analyze.record_transition m (default EmptyString cur) new_state
             (negb (Analyze.search_error (strip raw)))
      else m),
     Some new_state).
Proof.
  intros Hn Hs. unfold Analyze.parse_line.
  destruct (strip raw) as [|c s] eqn:E.
  - vm_compute in Hs. discriminate.
  - now rewrite Hn, Hs.
Qed.

(** The parser's current state is never the empty string. *)
Lemma parse_line_current_nonempty (st : Analyze.ParseState) (raw : string) :
  snd st <> Some EmptyString -> snd (Analyze.parse_line st raw) <> Some EmptyString.
Proof.
  destruct st as [m cur]. simpl. intros Hcur. unfold Analyze.parse_line.
  destruct (strip raw) as [|c s]; [exact Hcur|].
  destruct (Analyze.search_transition (String c s)) as [[[f t] r]|] eqn:Et.
  - apply search_transition_groups in Et. destruct Et as (Hf & Ht & _).
    simpl. destruct (String.eqb (upper r) "SUCCESS"); congruence.
  - destruct (Analyze.search_state_change (String c s)) as [n|] eqn:Es;
      [|exact Hcur].
    apply search_state_change_nonempty in Es. simpl. congruence.
Qed.

Lemma parse_lines_current_nonempty (states : option (list string))
    (lines : list string) :
  snd (Analyze.parse_lines_state states lines) <> Some EmptyString.
Proof.
  induction lines as [|raw lines IH] using rev_ind.
  - discriminate.
  - rewrite parse_lines_state_snoc. now apply parse_line_current_nonempty.
Qed.

(** C6, as the code has it. At any point of [parse_lines] on a log of
    ASCII lines, a line that does not match the TRANSITION pattern and
    matches [STATE: <NAME>] makes NAME the parser's current state; it
    records a transition, from the state last seen to NAME, only when a
    state has been seen before and differs from NAME, and that transition
    is a failure exactly when the line matches one of the error keywords. *)
Theorem state_line_effect (states : option (list string)) (lines : list string)
    (raw new_state : string)
    (Hascii : forallb ascii_text (lines ++ [raw]) = true)
    (Hnot : Analyze.search_transition (strip raw) = None)
    (Hstate : Analyze.search_state_change (strip raw) = Some new_state) :
  let st := Analyze.parse_lines_state states lines in
  let st' := Analyze.parse_lines_state states (lines ++ [raw]) in
  snd st' = Some new_state
  /\ fst st'
     = match snd st with
       | Some last_seen =>
           if String.eqb last_seen new_state then fst st
           else Analyze.record_transition (fst st) last_seen new_state
                  (negb (Analyze.search_error (strip raw)))
       | None => fst st
       end.
Proof.
  intros st st'. subst st'. rewrite parse_lines_state_snoc. fold st.
  pose proof (parse_lines_current_nonempty states lines) as Hne. fold st in Hne.
  destruct st as [m cur]. simpl in Hne.
  rewrite (parse_line_state_change m cur raw new_state Hnot Hstate). simpl.
  split; [reflexivity|].
  destruct cur as [[|c s]|]; [congruence| |reflexivity].
  cbn [truthy default from_option andb snd fst]. unfold id.
  destruct (String.eqb (String c s) new_state); reflexivity.
Qed.

(** The theorem after the line [STATE: A], at the line [STATE: B failed]. *)
Lemma state_line_effect_witness :
  snd (Analyze.parse_lines_state None (["STATE: A"] ++ ["STATE: B failed"]))
    = Some "B"
  /\ fst (Analyze.parse_lines_state None (["STATE: A"] ++ ["STATE: B failed"]))
     = Analyze.record_transition (Analyze.init None) "A" "B" false.
Proof.
  exact (state_line_effect None ["STATE: A"] "STATE: B failed" "B"
           eq_refl eq_refl eq_refl).
Defined.

(** C6, as stated, fails: the first [STATE:] line of a log, and a [STATE:]
    line that names the state already current, record no transition; a
    line that also matches the TRANSITION pattern is read as that explicit
    transition and its [STATE:] part is not looked at. *)
Lemma state_line_may_record_nothing :
  Analyze.search_state_change (strip "STATE: A") = Some "A"
  /\ Analyze.total_transitions (Analyze.parse_lines None ["STATE: A"]) = 0
  /\ Analyze.total_transitions
       (Analyze.parse_lines None ["STATE: A"; "STATE: A"]) = 0
  /\ Analyze.search_state_change (strip "TRANSITION: A -> B SUCCESS STATE: C")
     = Some "C"
  /\ Analyze.parse_lines_state None ["TRANSITION: A -> B SUCCESS STATE: C"]
     = (Analyze.record_transition (Analyze.init None) "A" "B" true, Some "B").
Proof. repeat split; reflexivity. Qed.

(** C10. At any point of [parse_lines] on a log of ASCII lines, after a
    line that matches the TRANSITION pattern with groups (from_state,
    to_state, result), the result is SUCCESS or FAILURE up to case; on
    SUCCESS the transition is recorded as a success and the parser's
    current state is to_state; on FAILURE it is recorded as a failure and
    the current state is from_state. *)
Theorem explicit_transition_current_state (states : option (list string))
    (lines : list string) (raw from_state to_state result : string)
    (Hascii : forallb ascii_text (lines ++ [raw]) = true)
    (Hmatch : Analyze.search_transition (strip raw)
              = Some (from_state, to_state, result)) :
  let st := Analyze.parse_lines_state states lines in
  let st' := Analyze.parse_lines_state states (lines ++ [raw]) in
  (upper result = "SUCCESS"
   /\ snd st' = Some to_state
   /\ fst st' = Analyze.record_transition (fst st) from_state to_state true)
  \/ (upper result = "FAILURE"
      /\ snd st' = Some from_state
      /\ fst st' = Analyze.record_transition (fst st) from_state to_state false).
Proof.
  intros st st'. subst st'. rewrite parse_lines_state_snoc. fold st.
  destruct st as [m cur].
  rewrite (parse_line_transition m cur raw _ _ _ Hmatch). simpl.
  destruct (search_transition_groups _ _ _ _ Hmatch) as (_ & _ & [Hr|Hr]);
    rewrite Hr; [left|right]; repeat split; reflexivity.
Qed.

(** The theorem after [STATE: X], at a failed explicit transition, and what
    the next [STATE:] line then records. *)
Lemma explicit_transition_current_state_witness :
  (upper "failure" = "SUCCESS"
   /\ snd (Analyze.parse_lines_state None
             (["STATE: X"] ++ ["TRANSITION: A -> B failure"])) = Some "B"
   /\ fst (Analyze.parse_lines_state None
             (["STATE: X"] ++ ["TRANSITION: A -> B failure"]))
      = Analyze.record_transition
          (fst (Analyze.parse_lines_state None ["STATE: X"])) "A" "B" true)
  \/ (upper "failure" = "FAILURE"
      /\ snd (Analyze.parse_lines_state None
                (["STATE: X"] ++ ["TRANSITION: A -> B failure"])) = Some "A"
      /\ fst (Analyze.parse_lines_state None
                (["STATE: X"] ++ ["TRANSITION: A -> B failure"]))
         = Analyze.record_transition
             (fst (Analyze.parse_lines_state None ["STATE: X"])) "A" "B" false).
Proof.
  exact (explicit_transition_current_state None ["STATE: X"]
           "TRANSITION: A -> B failure" "A" "B" "failure" eq_refl eq_refl).
Defined.

(** ** The [track_state] wrappers *)

Lemma async_wrapper_as_sync {R : Type} (state_name workflow_id : string)
    (func : Decorator.TransitionTracker
            -> Decorator.outcome R * Decorator.TransitionTracker)
    (start_time end_time : Q) (now : Z) (tracker : Decorator.TransitionTracker) :
  Decorator.async_wrapper state_name workflow_id func start_time end_time now tracker
  = Decorator.sync_wrapper state_name workflow_id func start_time end_time now tracker.
Proof. reflexivity. Qed.

(** C7, as the code has it. After a return, both wrappers record one
    success transition from the inferred from_state to the declared state
    and return the value. After a raise that [except Exception] catches,
    [str] of the raised object is taken: when it returns, one failure
    transition with that text as its error message is recorded and the
    object is raised again; when it raises, nothing is recorded and the
    object raised by [str] leaves the wrapper. After a raise that is not
    caught (an object that derives from [BaseException] only) nothing is
    recorded and the object goes through. So the caller gets the outcome of
    the wrapped function unchanged in every case but one: a caught
    exception whose [str] raises. *)
Theorem wrapper_records_and_propagates {R : Type}
    (state_name workflow_id : string)
    (func : Decorator.TransitionTracker
            -> Decorator.outcome R * Decorator.TransitionTracker)
    (start_time end_time : Q) (now : Z) (tracker : Decorator.TransitionTracker) :
  let from_state := Decorator.inferred_from_state tracker workflow_id in
  let duration_ms := ((end_time - start_time) * 1000)%Q in
  let after := snd (func tracker) in
  let w := Decorator.sync_wrapper state_name workflow_id func
             start_time end_time now tracker in
  let w' := Decorator.async_wrapper state_name workflow_id func
              start_time end_time now tracker in
  w = match fst (func tracker) with
      | Decorator.Returned r =>
          (Decorator.Returned r,
           Decorator.record_transition after from_state state_name true
             duration_ms None workflow_id [] now)
      | Decorator.Raised e =>
          if Decorator.is_Exception e
          then match Decorator.exc_str e with
               | inl message =>
                   (Decorator.Raised e,
                    Decorator.record_transition after from_state state_name
                      false duration_ms (Some message) workflow_id [] now)
               | inr e' => (Decorator.Raised e', after)
               end
          else (Decorator.Raised e, after)
      end
  /\ Decorator.events (snd w)
     = Decorator.events after
       ++ match fst (func tracker) with
          | Decorator.Returned _ =>
              [Decorator.mkEvent from_state state_name true now duration_ms
                                 None []]
          | Decorator.Raised e =>
              if Decorator.is_Exception e
              then match Decorator.exc_str e with
                   | inl message =>
                       [Decorator.mkEvent from_state state_name false now
                                          duration_ms (Some message) []]
                   | inr _ => []
                   end
              else []
          end
  /\ (fst w = fst (func tracker)
      \/ exists e e',
           fst (func tracker) = Decorator.Raised e
           /\ Decorator.is_Exception e = true
           /\ Decorator.exc_str e = inr e'
           /\ w = (Decorator.Raised e', after))
  /\ w' = w.
Proof.
  simpl. unfold Decorator.sync_wrapper, Decorator.async_wrapper.
  destruct (func tracker) as [[r|e] after]; simpl.
  - repeat split; try reflexivity. now left.
  - destruct (Decorator.is_Exception e) eqn:Ee; simpl.
    + destruct (Decorator.exc_str e) as [message|e'] eqn:Es; simpl.
      * repeat split; try reflexivity. now left.
      * rewrite app_nil_r. repeat split; try reflexivity.
        right. exists e, e'. repeat split; assumption.
    + rewrite app_nil_r. repeat split; try reflexivity. now left.
Qed.

(** A caught exception whose [__str__] raises: the wrapper records nothing
    and raises what [__str__] raised. *)
Example wrapper_raises_what_str_raises :
  Decorator.sync_wrapper "Parse" "default" (raising BrokenStr)
                         0%Q 1%Q 0 Decorator.init
  = (Decorator.Raised
       (Decorator.mkExc "TypeError" true
          (inl "__str__ returned non-string (type NoneType)")),
     Decorator.init).
Proof. reflexivity. Qed.

(** C7, as stated, fails: when the wrapped function raises
    [KeyboardInterrupt] (or, awaited, [asyncio.CancelledError]) the wrapper
    lets it through and records no transition; a raised [ValueError] is
    recorded. *)
Lemma wrapper_records_nothing_for_base_exception :
  Decorator.sync_wrapper "Parse" "default" (raising KeyboardInterrupt)
                         0%Q 1%Q 0 Decorator.init
    = (Decorator.Raised KeyboardInterrupt, Decorator.init)
  /\ Decorator.events
       (snd (Decorator.async_wrapper "Parse" "default" (raising CancelledError)
                                     0%Q 1%Q 0 Decorator.init)) = []
  /\ map Decorator.error_message
       (Decorator.events
          (snd (Decorator.sync_wrapper "Parse" "default"
                  (raising (ValueError "Empty request"))
                  0%Q 1%Q 0 Decorator.init)))
     = [Some "Empty request"].
Proof. repeat split; reflexivity. Qed.

(** ** Rates and rendering *)

Lemma py_truediv_positive (a b : Z) :
  0 < b -> py_truediv a b = Some (inject_Z a / inject_Z b)%Q.
Proof.
  intros Hb. unfold py_truediv.
  destruct (Z.eqb_spec b 0); [lia|reflexivity].
Qed.

Lemma failure_rate_percent_value (self : Analyze.TransitionFailureMatrix) :
  Analyze.failure_rate_percent self
  = Some (if 0 <? Analyze.total_transitions self
          then PyFloat (inject_Z (Analyze.total_failures self)
                        / inject_Z (Analyze.total_transitions self) * 100)%Q
          else PyInt 0).
Proof.
  unfold Analyze.failure_rate_percent.
  destruct (Z.ltb_spec 0 (Analyze.total_transitions self)) as [H|H];
    [|reflexivity].
  now rewrite py_truediv_positive.
Qed.

Lemma failure_rate_value (self : Analyze.TransitionFailureMatrix) :
  Analyze.failure_rate self
  = Some (if 0 <? Analyze.total_transitions self
          then PyFloat (inject_Z (Analyze.total_failures self)
                        / inject_Z (Analyze.total_transitions self))%Q
          else PyInt 0).
Proof.
  unfold Analyze.failure_rate.
  destruct (Z.ltb_spec 0 (Analyze.total_transitions self)) as [H|H];
    [|reflexivity].
  now rewrite py_truediv_positive.
Qed.

Lemma render_markdown_returns (format_1f : Q -> string)
    (self : Analyze.TransitionFailureMatrix) :
  is_Some (Analyze.render_markdown format_1f self).
Proof.
  unfold Analyze.render_markdown.
  destruct (Analyze.get_all_states self) as [|s l]; [eauto|].
  rewrite failure_rate_percent_value. simpl.
  destruct (Analyze.table_rows _ _ _ _) as [rows m']. eauto.
Qed.

Lemma render_ascii_returns (self : Analyze.TransitionFailureMatrix) :
  is_Some (Analyze.render_ascii self).
Proof.
  unfold Analyze.render_ascii.
  destruct (Analyze.get_all_states self) as [|s l]; [eauto|].
  simpl. destruct (Analyze.table_rows _ _ _ _) as [rows m']. eauto.
Qed.

Lemma render_json_returns (float_repr : Q -> string)
    (self : Analyze.TransitionFailureMatrix) (min_failures : Z) :
  is_Some (Analyze.render_json float_repr self min_failures).
Proof.
  unfold Analyze.render_json, Analyze.render_json_value.
  rewrite failure_rate_value. simpl. eauto.
Qed.

Lemma group_stats_value (group : list Decorator.TransitionEvent) :
  let total := Z.of_nat (length group) in
  let failures :=
    Z.of_nat (length (List.filter (fun e => negb (Decorator.success e)) group)) in
  exists stats,
    Ledger.group_stats group = Some stats
    /\ Ledger.total stats = total
    /\ Ledger.failures stats = failures
    /\ Ledger.failure_rate stats
       = (if total =? 0 then 0
          else inject_Z failures / inject_Z total * 100)%Q.
Proof.
  intros total failures. unfold Ledger.group_stats. fold total. fold failures.
  destruct (Z.eqb_spec total 0) as [H|H].
  - simpl. eexists. repeat split.
  - unfold py_truediv. destruct (Z.eqb_spec total 0); [contradiction|].
    simpl. eexists. repeat split.
Qed.

Lemma od_mapM_returns {A B : Type} (f : A -> option B) (d : odict A) :
  (forall a, is_Some (f a)) -> is_Some (Ledger.od_mapM f d).
Proof.
  intros Hf. induction d as [|[k a] d IH]; simpl; [eauto|].
  destruct (Hf a) as [b ->]. destruct IH as [d' ->]. simpl. eauto.
Qed.

Lemma get_transition_rates_returns (t : Decorator.TransitionTracker) :
  is_Some (Ledger.get_transition_rates t).
Proof.
  apply od_mapM_returns. intros group.
  destruct (group_stats_value group) as (stats & -> & _). eauto.
Qed.

(** C9. For every state of the analyzer matrix, reachable or not, the
    percent rate is failures/total*100 and the fraction failures/total when
    total > 0, and both are 0 when it is not; the division is never one by
    zero. These are the rates that the renderers print: the Markdown text,
    when there is a state to show, has the line of the percent rate as its
    fourth line, and the JSON text is that of the object whose
    [failure_rate] is the fraction; the ASCII table, which shows no rate,
    returns a text. The rate of a pair in the ledger's [transitionRates()],
    as the specification describes it, is failures/total*100, or 0 for no
    event, again without a division by zero, and the flow diagram, which
    prints the counts it takes from there and no rate, returns the text
    made from them. Rates are exact rationals here. *)
Theorem rates_never_divide_by_zero
    (format_1f float_repr : Q -> string)
    (self : Analyze.TransitionFailureMatrix) (min_failures : Z)
    (tracker : Decorator.TransitionTracker)
    (group : list Decorator.TransitionEvent)
    (include_failures : bool) (min_transitions : Z) :
  let failures := Analyze.total_failures self in
  let total := Analyze.total_transitions self in
  let percent :=
    (if 0 <? total then inject_Z failures / inject_Z total * 100 else 0)%Q in
  let fraction :=
    if 0 <? total then PyFloat (inject_Z failures / inject_Z total)%Q
    else PyInt 0 in
  Analyze.failure_rate_percent self
    = Some (if 0 <? total
            then PyFloat (inject_Z failures / inject_Z total * 100)%Q
            else PyInt 0)
  /\ Analyze.failure_rate self = Some fraction
  /\ (exists text self',
        Analyze.render_markdown format_1f self = Some (text, self')
        /\ match Analyze.get_all_states self with
           | [] => text = "# Transition Failure Matrix" +:+ nl +:+ nl
                         +:+ "No transitions found."
           | _ :: _ =>
               exists rest,
                 text = String.concat nl
                          (("# Transition Failure Matrix" +:+ nl)
                           :: ("**Total Transitions:** " +:+ str_Z total)
                           :: ("**Total Failures:** " +:+ str_Z failures)
                           :: ("**Failure Rate:** " +:+ format_1f percent
                               +:+ "%" +:+ nl)
                           :: rest)
           end)
  /\ Analyze.render_json float_repr self min_failures
     = Some (json_dumps float_repr
               (JObj
                  [("states", JList (map JStr (Analyze.get_all_states self)));
                   ("matrix",
                    JObj (map (fun fr =>
                                 (fst fr,
                                  JObj (map (fun tc =>
                                               (fst tc, JNum (PyInt (snd tc))))
                                            (snd fr))))
                              (Analyze.matrix self)));
                   ("hotspots",
                    JList (map (fun h =>
                                  JObj [("from", JStr (fst (fst h)));
                                        ("to", JStr (snd (fst h)));
                                        ("count", JNum (PyInt (snd h)))])
                               (Analyze.get_hotspots self min_failures)));
                   ("total_transitions", JNum (PyInt total));
                   ("total_failures", JNum (PyInt failures));
                   ("failure_rate", JNum fraction)]))
  /\ is_Some (Analyze.render_ascii self)
  /\ (exists stats,
        Ledger.group_stats group = Some stats
        /\ Ledger.failure_rate stats
           = (if Z.of_nat (length group) =? 0 then 0
              else inject_Z (Z.of_nat (length (List.filter
                               (fun e => negb (Decorator.success e)) group)))
                   / inject_Z (Z.of_nat (length group)) * 100)%Q)
  /\ (exists rates,
        Ledger.get_transition_rates tracker = Some rates
        /\ Visualizations.render_sankey tracker include_failures min_transitions
           = Some (Visualizations.render_sankey_rates rates include_failures
                     min_transitions)).
Proof.
  intros failures total percent fraction.
  split; [apply failure_rate_percent_value|].
  split; [apply failure_rate_value|].
  split.
  { unfold Analyze.render_markdown.
    destruct (Analyze.get_all_states self) as [|s l]; [eauto|].
    rewrite failure_rate_percent_value. cbn [mbind option_bind].
    destruct (Analyze.table_rows _ _ _ _) as [rows m'].
    eexists _, _. split; [reflexivity|].
    eexists. fold total failures. subst percent.
    destruct (0 <? total); reflexivity. }
  split.
  { unfold Analyze.render_json, Analyze.render_json_value.
    rewrite failure_rate_value. reflexivity. }
  split; [apply render_ascii_returns|].
  split.
  { destruct (group_stats_value group) as (stats & H1 & _ & _ & H2). eauto. }
  unfold Visualizations.render_sankey.
  destruct (get_transition_rates_returns tracker) as [rates ->]. simpl. eauto.
Qed.

(** ** Rendering a matrix without transitions *)

Lemma od_get_Forall {V : Type} (P : V -> Prop) (k : string) (d : odict V) (v : V) :
  Forall (fun kv => P (snd kv)) d -> od_get k d = Some v -> P v.
Proof.
  induction 1 as [|[k' v'] d Hv Hd IH]; simpl; [discriminate|].
  destruct (String.eqb k k'); [|exact IH].
  now intros [= <-].
Qed.

Lemma od_set_Forall {V : Type} (P : V -> Prop) (k : string) (v : V) (d : odict V) :
  Forall (fun kv => P (snd kv)) d -> P v ->
  Forall (fun kv => P (snd kv)) (od_set k v d).
Proof.
  intros Hd Hv. induction Hd as [|[k' v'] d Hv' Hd IH]; simpl.
  - now repeat constructor.
  - destruct (String.eqb k k'); constructor; assumption.
Qed.











(** Widths count characters, not bytes: the table of the fixed states
    e-acute and AB, and the JSON text of the state e-acute. *)
Example render_ascii_counts_characters :
  fst <$> Analyze.render_ascii (Analyze.init (Some [e_acute; "AB"]))
  = Some (String.concat nl
            ["Total Transitions: 0"; "Total Failures: 0"; EmptyString;
             "        " +:+ e_acute +:+ "    AB  ";
             "-----------------";
             "   " +:+ e_acute +:+ " | " +:+ middle_dot +:+ "    "
               +:+ middle_dot +:+ "   ";
             "  AB | " +:+ middle_dot +:+ "    " +:+ middle_dot +:+ "   "])
  /\ json_quote e_acute
     = String (ascii_of_nat 34) ("\u00e9" +:+ String (ascii_of_nat 34) EmptyString).
Proof. split; reflexivity. Qed.

(** ** Comparison to a baseline *)

Lemma Qlt_bool_iff (a b : Q) : Ledger.Qlt_bool a b = true <-> (a < b)%Q.
Proof.
  unfold Ledger.Qlt_bool. rewrite negb_true_iff, <- not_true_iff_false, Qle_bool_iff.
  split; [apply Qnot_le_lt|apply Qlt_not_le].
Qed.

Lemma is_regression_iff (epsilon threshold : Q) (base cur : Ledger.TransitionStats) :
  Ledger.is_regression epsilon base cur threshold = true
  <-> (0 < Ledger.failure_rate cur - Ledger.failure_rate base)%Q
      /\ (threshold
          < (Ledger.failure_rate cur - Ledger.failure_rate base)
            / Ledger.Qmax_py (Ledger.failure_rate base) epsilon)%Q.
Proof.
  unfold Ledger.is_regression, Ledger.relative_increase.
  now rewrite andb_true_iff, !Qlt_bool_iff.
Qed.

Lemma compare_to_baseline_In (epsilon threshold : Q)
    (current baseline : odict Ledger.TransitionStats) (r : Ledger.Regression) :
  In r (Ledger.compare_to_baseline epsilon current baseline threshold)
  <-> exists pair cur base,
        In (pair, cur) current
        /\ od_get pair baseline = Some base
        /\ Ledger.is_regression epsilon base cur threshold = true
        /\ r = Ledger.regression_record epsilon pair base cur.
Proof.
  unfold Ledger.compare_to_baseline. rewrite in_concat. split.
  - intros (rs & Hrs & Hr). apply in_map_iff in Hrs.
    destruct Hrs as ([pair cur] & <- & Hin). simpl in Hr.
    destruct (od_get pair baseline) as [base|] eqn:Eb; [|contradiction].
    destruct (Ledger.is_regression epsilon base cur threshold) eqn:Er;
      [|contradiction].
    destruct Hr as [<-|[]]. exists pair, cur, base. auto.
  - intros (pair & cur & base & Hin & Hb & Hr & ->).
    exists [Ledger.regression_record epsilon pair base cur]. split; [|now left].
    apply in_map_iff. exists (pair, cur). simpl. now rewrite Hb, Hr.
Qed.

Lemma Qmax_py_left (a epsilon : Q) : (epsilon <= a)%Q -> Ledger.Qmax_py a epsilon = a.
Proof.
  intros H. unfold Ledger.Qmax_py, Ledger.Qlt_bool.
  apply Qle_bool_iff in H. now rewrite H.
Qed.

(** C4. [compareToBaseline], as the specification describes it, reports a
    record exactly for the pairs that are in the current rates and in the
    baseline with delta = current rate - baseline rate > 0 and
    delta / max(baseline rate, epsilon) > threshold. For an epsilon that is
    positive and at most 10: with baseline rate 10, current rate 15 and
    threshold 0.2 the pair is reported, with delta 5 and a relative
    increase of 50 percent; with current rate 11 it is not. A pair that is
    on one side only is not reported. *)
Theorem regression_reported_iff
    (epsilon threshold : Q) (current baseline : odict Ledger.TransitionStats)
    (pair : string) (tb sb fb tc sc fc : Z) (db dc : Q)
    (Hpos : (0 < epsilon)%Q) (Hsmall : (epsilon <= 10)%Q) :
  let base := Ledger.mkStats tb sb fb 10 db in
  let cur15 := Ledger.mkStats tc sc fc 15 dc in
  let cur11 := Ledger.mkStats tc sc fc 11 dc in
  (forall r,
     In r (Ledger.compare_to_baseline epsilon current baseline threshold)
     <-> exists p cur base,
           In (p, cur) current
           /\ od_get p baseline = Some base
           /\ (0 < Ledger.failure_rate cur - Ledger.failure_rate base)%Q
           /\ (threshold
               < (Ledger.failure_rate cur - Ledger.failure_rate base)
                 / Ledger.Qmax_py (Ledger.failure_rate base) epsilon)%Q
           /\ r = Ledger.regression_record epsilon p base cur)
  /\ Ledger.compare_to_baseline epsilon [(pair, cur15)] [(pair, base)] (2 # 10)
     = [Ledger.regression_record epsilon pair base cur15]
  /\ (Ledger.delta (Ledger.regression_record epsilon pair base cur15) == 5)%Q
  /\ (Ledger.percent_increase (Ledger.regression_record epsilon pair base cur15)
      == 50)%Q
  /\ Ledger.compare_to_baseline epsilon [(pair, cur11)] [(pair, base)] (2 # 10)
     = []
  /\ Ledger.compare_to_baseline epsilon current [] threshold = []
  /\ Ledger.compare_to_baseline epsilon [] baseline threshold = [].
Proof.
  intros base cur15 cur11.
  assert (Hmax : Ledger.Qmax_py 10 epsilon = 10%Q) by now apply Qmax_py_left.
  split.
  { intros r. rewrite compare_to_baseline_In. split.
    - intros (p & c & b & H1 & H2 & H3 & H4).
      apply is_regression_iff in H3. destruct H3. exists p, c, b. auto.
    - intros (p & c & b & H1 & H2 & H3 & H4 & H5).
      exists p, c, b. rewrite is_regression_iff. auto. }
  split.
  { unfold Ledger.compare_to_baseline. simpl. rewrite String.eqb_refl.
    unfold Ledger.is_regression, Ledger.relative_increase. simpl.
    rewrite Hmax. reflexivity. }
  split; [reflexivity|].
  split.
  { unfold Ledger.regression_record, Ledger.relative_increase. simpl.
    rewrite Hmax. reflexivity. }
  split.
  { unfold Ledger.compare_to_baseline. simpl. rewrite String.eqb_refl.
    unfold Ledger.is_regression, Ledger.relative_increase. simpl.
    rewrite Hmax. reflexivity. }
  split; [|reflexivity].
  unfold Ledger.compare_to_baseline.
  induction current as [|[p c] current IH]; [reflexivity|exact IH].
Qed.

(** The theorem at epsilon = 1/1000000 and the pair from A to B. *)
Lemma regression_reported_iff_witness :
  Ledger.compare_to_baseline (1 # 1000000)
    [(Ledger.pair_label "A" "B", Ledger.mkStats 20 17 3 15 0)]
    [(Ledger.pair_label "A" "B", Ledger.mkStats 20 18 2 10 0)] (2 # 10)
  = [Ledger.regression_record (1 # 1000000) (Ledger.pair_label "A" "B")
       (Ledger.mkStats 20 18 2 10 0) (Ledger.mkStats 20 17 3 15 0)]
  /\ Ledger.compare_to_baseline (1 # 1000000)
       [(Ledger.pair_label "A" "B", Ledger.mkStats 20 17 3 11 0)]
       [(Ledger.pair_label "A" "B", Ledger.mkStats 20 18 2 10 0)] (2 # 10)
     = [].
Proof.
  assert (Hpos : (0 < 1 # 1000000)%Q) by reflexivity.
  assert (Hsmall : (1 # 1000000 <= 10)%Q) by discriminate.
  pose proof (regression_reported_iff (1 # 1000000) (2 # 10) [] []
                (Ledger.pair_label "A" "B") 20 18 2 20 17 3 0%Q 0%Q Hpos Hsmall)
    as (_ & H15 & _ & _ & H11 & _).
  split; [exact H15|exact H11].
Defined.

(** * Further properties *)

(** ** The log line of [record_transition], read by the parser *)

Lemma append_cons (x : ascii) (a b : string) :
  String x a +:+ b = String x (a +:+ b).
Proof. reflexivity. Qed.

Lemma append_nil_l (b : string) : EmptyString +:+ b = b.
Proof. reflexivity. Qed.

Lemma append_assoc (a b c : string) : (a +:+ b) +:+ c = a +:+ (b +:+ c).
Proof.
  induction a as [|x a IH]; [reflexivity|].
  now rewrite !append_cons, IH.
Qed.

Lemma length_append (a b : string) :
  String.length (a +:+ b) = (String.length a + String.length b)%nat.
Proof.
  induction a as [|x a IH]; [reflexivity|].
  rewrite append_cons. simpl. now rewrite IH.
Qed.

Lemma str_take_append (a b : string) : str_take (String.length a) (a +:+ b) = a.
Proof.
  induction a as [|x a IH]; [now destruct b|].
  rewrite append_cons. simpl. now rewrite IH.
Qed.

Lemma consumed_append (a b : string) : consumed (a +:+ b) b = a.
Proof.
  unfold consumed. rewrite length_append.
  replace (String.length a + String.length b - String.length b)%nat
    with (String.length a) by lia.
  apply str_take_append.
Qed.

Lemma word_not_space (c : ascii) : is_word c = true -> is_space c = false.
Proof.
  destruct c as [[] [] [] [] [] [] [] []]; vm_compute; congruence.
Qed.

Lemma match_star_greedy {R : Type} (c : cclass) (w s : string)
    (k : string -> option R) (x : R) :
  in_class_all c w = true -> starts_outside c s = true ->
  k s = Some x -> match_star c (w +:+ s) k = Some x.
Proof.
  intros Hw Hs Hk. induction w as [|a w IH].
  - rewrite append_nil_l. destruct s as [|b s]; [exact Hk|].
    simpl in Hs |- *. apply negb_true_iff in Hs. now rewrite Hs.
  - rewrite append_cons. unfold in_class_all in Hw. simpl in Hw |- *.
    apply andb_true_iff in Hw. destruct Hw as [Ha Hw].
    rewrite Ha, (IH Hw). reflexivity.
Qed.

Lemma char_eq_refl (ic : bool) (a : ascii) : char_eq ic a a = true.
Proof. unfold char_eq. destruct ic; apply Ascii.eqb_refl. Qed.

Lemma match_lit_append (ic : bool) (l s : string) :
  match_lit ic l (l +:+ s) = Some s.
Proof.
  induction l as [|a l IH]; [now destruct s|].
  rewrite append_cons. simpl. now rewrite char_eq_refl.
Qed.

Lemma match_here_seq {R : Type} (ic : bool) (r1 r2 : regex) (s : string)
    (g : list string) (k : string -> list string -> option R) :
  match_here ic (Seq r1 r2) s g k
  = match_here ic r1 s g (fun rest g' => match_here ic r2 rest g' k).
Proof. reflexivity. Qed.

Lemma match_here_lit {R : Type} (ic : bool) (l s : string)
    (g : list string) (k : string -> list string -> option R) :
  match_here ic (Lit l) (l +:+ s) g k = k s g.
Proof. simpl. now rewrite match_lit_append. Qed.

Lemma match_here_star {R : Type} (ic : bool) (c : cclass) (w s : string)
    (g : list string) (k : string -> list string -> option R) (x : R) :
  in_class_all c w = true -> starts_outside c s = true ->
  k s g = Some x -> match_here ic (Star c) (w +:+ s) g k = Some x.
Proof. intros Hw Hs Hk. simpl. now apply match_star_greedy. Qed.

Lemma match_here_plus_group {R : Type} (ic : bool) (c : cclass) (a : ascii)
    (w s : string) (g : list string) (k : string -> list string -> option R)
    (x : R) :
  in_class_all c (String a w) = true -> starts_outside c s = true ->
  k s (g ++ [String a w]) = Some x ->
  match_here ic (Group (Plus c)) (String a w +:+ s) g k = Some x.
Proof.
  intros Hw Hs Hk. unfold in_class_all in Hw. simpl in Hw.
  apply andb_true_iff in Hw. destruct Hw as [Ha Hw].
  rewrite append_cons. simpl. rewrite Ha.
  apply match_star_greedy; [exact Hw|exact Hs|].
  rewrite <- append_cons, consumed_append. exact Hk.
Qed.

Lemma transition_pattern_matches (f t tail : string) (success : bool) :
  let status := if success then "SUCCESS" else "FAILURE" in
  word_name f = true -> word_name t = true ->
  match_here true Analyze.TRANSITION_PATTERN
    ("TRANSITION:" +:+ " " +:+ f +:+ " " +:+ "->" +:+ " " +:+ t +:+ " "
     +:+ status +:+ tail)
    [] (fun _ g => Some g)
  = Some [f; t; status].
Proof.
  intros status Hf Ht.
  destruct f as [|a f]; [discriminate|]. destruct t as [|b t]; [discriminate|].
  unfold word_name in Hf, Ht.
  assert (Hsa : is_space a = false).
  { pose proof Hf as H. unfold in_class_all in H. simpl in H.
    apply andb_true_iff in H. now apply word_not_space. }
  assert (Hsb : is_space b = false).
  { pose proof Ht as H. unfold in_class_all in H. simpl in H.
    apply andb_true_iff in H. now apply word_not_space. }
  unfold Analyze.TRANSITION_PATTERN.
  rewrite match_here_seq, match_here_lit.
  rewrite match_here_seq. apply (match_here_star true CSpace " ");
    [reflexivity|simpl; now rewrite Hsa|].
  rewrite match_here_seq. apply match_here_plus_group;
    [exact Hf|reflexivity|].
  rewrite match_here_seq. apply (match_here_star true CSpace " ");
    [reflexivity|reflexivity|].
  rewrite match_here_seq, match_here_lit.
  rewrite match_here_seq. apply (match_here_star true CSpace " ");
    [reflexivity|simpl; now rewrite Hsb|].
  rewrite match_here_seq. apply match_here_plus_group;
    [exact Ht|reflexivity|].
  rewrite match_here_seq. apply (match_here_star true CSpace " ");
    [reflexivity|now destruct success|].
  subst status. destruct success.
  - cbn [match_here]. rewrite match_lit_append, consumed_append. reflexivity.
  - cbn [match_here].
    replace (match_lit true "SUCCESS" ("FAILURE" +:+ tail)) with (@None string)
      by reflexivity.
    rewrite match_lit_append, consumed_append. reflexivity.
Qed.

Lemma append_nil_r (a : string) : a +:+ EmptyString = a.
Proof.
  induction a as [|x a IH]; [reflexivity|]. now rewrite append_cons, IH.
Qed.

Lemma log_msg_text (f t : string) (success : bool) (err : option string) :
  Decorator.log_msg f t success err = transition_text f t success (error_tail err).
Proof.
  unfold Decorator.log_msg, transition_text, error_tail.
  destruct (truthy err).
  - rewrite !append_assoc. reflexivity.
  - rewrite append_nil_r. reflexivity.
Qed.

Lemma may_start_false (ic : bool) (l p rest : string) :
  may_start ic l p = false -> match_lit ic l (p +:+ rest) = None.
Proof.
  revert p. induction l as [|a l IH]; intros p; [discriminate|].
  destruct p as [|b p]; [discriminate|].
  rewrite append_cons. simpl. destruct (char_eq ic a b); [apply IH|reflexivity].
Qed.

Lemma re_search_here (ic : bool) (r : regex) (s : string) (g : list string) :
  match_here ic r s [] (fun _ groups => Some groups) = Some g ->
  re_search ic r s = Some g.
Proof. intros H. destruct s; simpl; now rewrite H. Qed.

Lemma re_search_skip (ic : bool) (l : string) (r : regex) (pre s : string) :
  clear_of ic l pre = true ->
  re_search ic (Seq (Lit l) r) (pre +:+ s) = re_search ic (Seq (Lit l) r) s.
Proof.
  induction pre as [|c pre IH]; [reflexivity|].
  intros H. cbn [clear_of] in H. apply andb_true_iff in H. destruct H as [H1 H2].
  apply negb_true_iff in H1.
  rewrite append_cons. cbn [re_search match_here].
  rewrite <- append_cons, (may_start_false _ _ _ _ H1). now apply IH.
Qed.

Lemma clear_of_lstrip (ic : bool) (l pre : string) :
  clear_of ic l pre = true -> clear_of ic l (lstrip pre) = true.
Proof.
  induction pre as [|c pre IH]; [reflexivity|].
  intros H. simpl. destruct (is_space c); [|exact H].
  apply IH. simpl in H. now apply andb_true_iff in H.
Qed.

Lemma lstrip_append (pre : string) (c : ascii) (s : string) :
  is_space c = false ->
  lstrip (pre +:+ String c s) = lstrip pre +:+ String c s.
Proof.
  intros Hc. induction pre as [|a pre IH].
  - rewrite !append_nil_l. simpl. now rewrite Hc.
  - rewrite append_cons. simpl. destruct (is_space a); [exact IH|reflexivity].
Qed.

Lemma rstrip_append (a : string) (c : ascii) (b : string) :
  is_space c = false ->
  rstrip (a +:+ String c b) = a +:+ String c (rstrip b).
Proof.
  intros Hc. induction a as [|x a IH].
  - rewrite !append_nil_l. simpl. rewrite Hc. now destruct (rstrip b).
  - rewrite !append_cons. simpl. rewrite IH.
    destruct a; reflexivity.
Qed.

Lemma strip_transition_text (pre f t : string) (success : bool) (tail : string) :
  strip (pre +:+ transition_text f t success tail)
  = lstrip pre +:+ transition_text f t success (rstrip tail).
Proof.
  unfold strip.
  replace (transition_text f t success tail)
    with (String "T" ("RANSITION:" +:+ " " +:+ f +:+ " " +:+ "->" +:+ " " +:+ t
                      +:+ " " +:+ (if success then "SUCCESS" else "FAILURE")
                      +:+ tail)) by reflexivity.
  rewrite lstrip_append by reflexivity.
  destruct success.
  - replace (lstrip pre +:+ String "T" ("RANSITION:" +:+ " " +:+ f +:+ " " +:+ "->" +:+ " " +:+ t +:+ " " +:+ "SUCCESS" +:+ tail))
      with ((lstrip pre +:+ "TRANSITION:" +:+ " " +:+ f +:+ " " +:+ "->" +:+ " " +:+ t +:+ " " +:+ "SUCCES") +:+ String "S" tail).
    + rewrite rstrip_append by reflexivity. unfold transition_text.
      rewrite !append_assoc. reflexivity.
    + rewrite !append_assoc. reflexivity.
  - replace (lstrip pre +:+ String "T" ("RANSITION:" +:+ " " +:+ f +:+ " " +:+ "->" +:+ " " +:+ t +:+ " " +:+ "FAILURE" +:+ tail))
      with ((lstrip pre +:+ "TRANSITION:" +:+ " " +:+ f +:+ " " +:+ "->" +:+ " " +:+ t +:+ " " +:+ "FAILUR") +:+ String "E" tail).
    + rewrite rstrip_append by reflexivity. unfold transition_text.
      rewrite !append_assoc. reflexivity.
    + rewrite !append_assoc. reflexivity.
Qed.

Lemma search_logged_transition (pre f t : string) (success : bool) (tail : string) :
  clear_of true "TRANSITION:" pre = true ->
  word_name f = true -> word_name t = true ->
  Analyze.search_transition (strip (pre +:+ transition_text f t success tail))
  = Some (f, t, if success then "SUCCESS" else "FAILURE").
Proof.
  intros Hpre Hf Ht. rewrite strip_transition_text.
  unfold Analyze.search_transition.
  unfold Analyze.TRANSITION_PATTERN at 1.
  rewrite re_search_skip by now apply clear_of_lstrip.
  rewrite (re_search_here true _ _ [f; t; if success then "SUCCESS" else "FAILURE"]).
  - reflexivity.
  - apply (transition_pattern_matches f t (rstrip tail) success Hf Ht).
Qed.

Lemma parse_logged_line (m : Analyze.TransitionFailureMatrix) (cur : option string)
    (pre f t : string) (success : bool) (err : option string) :
  clear_of true "TRANSITION:" pre = true ->
  word_name f = true -> word_name t = true ->
  Analyze.parse_line (m, cur) (pre +:+ Decorator.log_msg f t success err)
  = (Analyze.record_transition m f t success, Some (if success then t else f)).
Proof.
  intros Hpre Hf Ht. rewrite log_msg_text.
  rewrite (parse_line_transition m cur _ f t (if success then "SUCCESS" else "FAILURE")).
  - now destruct success.
  - now apply search_logged_transition.
Qed.

Lemma parse_logged_lines (stamp : Call -> string) (cs : list Call)
    (m : Analyze.TransitionFailureMatrix) (cur : option string) :
  forallb (loggable stamp) cs = true ->
  fst (fold_left Analyze.parse_line (map (log_line stamp) cs) (m, cur))
  = run_records (map call_record cs) m.
Proof.
  revert m cur. induction cs as [|c cs IH]; intros m cur H; [reflexivity|].
  simpl in H. apply andb_true_iff in H. destruct H as [Hc Hcs].
  unfold loggable in Hc. rewrite !andb_true_iff in Hc.
  destruct Hc as [[[[[_ _] Hpre] Hf] Ht] _].
  cbn [map fold_left].
  change (log_line stamp c)
    with (stamp c +:+ Decorator.log_msg (call_from c) (call_to c)
                        (call_success c) (call_error c)).
  rewrite (parse_logged_line m cur _ _ _ _ _ Hpre Hf Ht).
  rewrite (IH _ _ Hcs). reflexivity.
Qed.

Lemma run_records_matrix (cs : list Call) (m : Analyze.TransitionFailureMatrix)
    (t : Decorator.TransitionTracker) :
  Analyze.matrix m = Decorator.matrix t ->
  Analyze.matrix (run_records (map call_record cs) m)
  = Decorator.matrix (run_calls cs t).
Proof.
  revert m t. induction cs as [|c cs IH]; intros m t H; [exact H|].
  cbn [map]. unfold run_records, run_calls in *. cbn [fold_left].
  apply IH. unfold call_record, do_call, Analyze.record_transition,
    Decorator.record_transition. cbn [fst snd].
  destruct (call_success c); simpl; now rewrite H.
Qed.

Lemma failed_records_of_calls (cs : list Call) :
  failed_records (map call_record cs) = failed_calls cs.
Proof.
  unfold failed_records, failed_calls, failures_of. f_equal.
  induction cs as [|c cs IH]; simpl; [reflexivity|].
  destruct (call_success c); simpl; now rewrite IH.
Qed.

(** X1. At any point of [parse_lines] on a log of ASCII lines, the line
    that [record_transition] logs for a transition between two state names
    of ASCII word characters, with or without an error message and behind
    any ASCII prefix in which the keyword TRANSITION: cannot start (a time
    stamp), is read back as that same transition: it is recorded with the
    same states and the same success flag, and the parser's current state
    becomes to_state on success and from_state on failure. Neither the
    prefix nor the error message holds a line terminator, so that the
    message is one line of the log; the error message is otherwise any
    text. *)
Theorem logged_line_parsed_back (states : option (list string))
    (lines : list string) (pre from_state to_state : string) (success : bool)
    (error_message : option string)
    (Hlines : forallb ascii_text lines = true)
    (Hascii : ascii_text pre = true)
    (Hline : single_line pre
             && single_line (default EmptyString error_message) = true)
    (Hpre : clear_of true "TRANSITION:" pre = true)
    (Hfrom : word_name from_state = true) (Hto : word_name to_state = true) :
  Analyze.parse_lines_state states
    (lines ++ [pre +:+ Decorator.log_msg from_state to_state success error_message])
  = (Analyze.record_transition (fst (Analyze.parse_lines_state states lines))
       from_state to_state success,
     Some (if success then to_state else from_state)).
Proof.
  rewrite parse_lines_state_snoc.
  destruct (Analyze.parse_lines_state states lines) as [m cur].
  now apply parse_logged_line.
Qed.

(** The theorem at a failed transition from Parse to Route with the error
    message boom, behind a time stamp. *)
Lemma logged_line_parsed_back_witness :
  Analyze.parse_lines_state None
    ([] ++ ["2024-01-15T10:30:00 "
            +:+ Decorator.log_msg "Parse" "Route" false (Some "boom")])
  = (Analyze.record_transition (Analyze.init None) "Parse" "Route" false,
     Some "Parse").
Proof.
  exact (logged_line_parsed_back None [] "2024-01-15T10:30:00 " "Parse" "Route"
           false (Some "boom") eq_refl eq_refl eq_refl eq_refl eq_refl eq_refl).
Defined.

(** X2. A log that holds, in order, the lines of a sequence of
    [record_transition] calls on a fresh tracker (state names of ASCII word
    characters, ASCII stamps in which TRANSITION: cannot start, no line
    terminator in a stamp or in an error message) is parsed into the
    analyzer matrix that recording the same transitions directly gives: the
    failure matrix is the tracker's, cell by cell and in the same order, so
    the hotspots agree for every threshold, total_transitions is the
    number of calls and total_failures the number of failed calls. *)
Theorem log_reconstructs_matrix (stamp : Call -> string)
    (states : option (list string)) (cs : list Call) (min_count : Z)
    (Hcs : forallb (loggable stamp) cs = true) :
  let parsed := Analyze.parse_lines states (map (log_line stamp) cs) in
  let tracker := run_calls cs Decorator.init in
  parsed = run_records (map call_record cs) (Analyze.init states)
  /\ Analyze.matrix parsed = Decorator.matrix tracker
  /\ Analyze.get_hotspots parsed min_count
     = Decorator.get_hotspots tracker min_count
  /\ Analyze.total_transitions parsed = Z.of_nat (length cs)
  /\ Analyze.total_failures parsed = failed_calls cs.
Proof.
  intros parsed tracker.
  assert (Hp : parsed = run_records (map call_record cs) (Analyze.init states)).
  { subst parsed. unfold Analyze.parse_lines, Analyze.parse_lines_state.
    now apply parse_logged_lines. }
  assert (Hm : Analyze.matrix parsed = Decorator.matrix tracker).
  { rewrite Hp. subst tracker. now apply run_records_matrix. }
  split; [exact Hp|]. split; [exact Hm|]. split.
  { unfold Analyze.get_hotspots, Decorator.get_hotspots. now rewrite Hm. }
  destruct (run_records_counts (map call_record cs) (Analyze.init states))
    as (_ & H2 & H3).
  rewrite Hp. cbn zeta in H2, H3. rewrite H2, H3.
  rewrite failed_records_of_calls, length_map. simpl. split; lia.
Qed.

(** The theorem at the scenario's three calls, stamped with a date. *)
Lemma log_reconstructs_matrix_witness :
  Analyze.matrix
    (Analyze.parse_lines None
       (map (log_line (fun _ => "2024-01-15 ")) scenario_calls))
  = Decorator.matrix (run_calls scenario_calls Decorator.init)
  /\ Analyze.total_transitions
       (Analyze.parse_lines None
          (map (log_line (fun _ => "2024-01-15 ")) scenario_calls)) = 3.
Proof.
  pose proof (log_reconstructs_matrix (fun _ => "2024-01-15 ") None
                scenario_calls 1 eq_refl) as (_ & Hm & _ & Ht & _).
  split; [exact Hm|exact Ht].
Defined.

(** ** The parser on arbitrary input *)

Lemma parse_line_cases (m : Analyze.TransitionFailureMatrix)
    (cur : option string) (raw : string) :
  fst (Analyze.parse_line (m, cur) raw) = m
  \/ exists f t s,
       fst (Analyze.parse_line (m, cur) raw) = Analyze.record_transition m f t s.
Proof.
  unfold Analyze.parse_line.
  destruct (strip raw) as [|c s]; [now left|].
  destruct (Analyze.search_transition (String c s)) as [[[f t] r]|].
  - right. simpl. eauto.
  - destruct (Analyze.search_state_change (String c s)) as [n|]; [|now left].
    simpl. destruct (truthy cur && _); [right; eauto|now left].
Qed.

Lemma record_transition_counts (m : Analyze.TransitionFailureMatrix)
    (f t : string) (s : bool) :
  let m' := Analyze.record_transition m f t s in
  matrix_total (Analyze.matrix m')
    = matrix_total (Analyze.matrix m) + (if s then 0 else 1)
  /\ Analyze.total_failures m'
     = Analyze.total_failures m + (if s then 0 else 1)
  /\ Analyze.total_transitions m' = Analyze.total_transitions m + 1
  /\ Analyze.states m' = Analyze.states m.
Proof.
  unfold Analyze.record_transition.
  destruct s; simpl; rewrite ?matrix_total_incr; repeat split; lia.
Qed.

Lemma parse_lines_counts (states : option (list string)) (lines : list string) :
  let m := Analyze.parse_lines states lines in
  matrix_total (Analyze.matrix m) = Analyze.total_failures m
  /\ 0 <= Analyze.total_failures m
  /\ Analyze.total_failures m <= Analyze.total_transitions m
  /\ Analyze.total_transitions m <= Z.of_nat (length lines)
  /\ Analyze.states m = default [] states.
Proof.
  unfold Analyze.parse_lines.
  induction lines as [|raw lines IH] using rev_ind.
  - simpl. repeat split; try reflexivity; lia.
  - rewrite parse_lines_state_snoc, length_app. simpl length.
    destruct (Analyze.parse_lines_state states lines) as [m cur].
    simpl in IH. destruct IH as (H1 & H2 & H3 & H4 & H5).
    destruct (parse_line_cases m cur raw) as [->|(f & t & s & ->)].
    + repeat split; try assumption; lia.
    + destruct (record_transition_counts m f t s) as (R1 & R2 & R3 & R4).
      cbn zeta in R1, R2, R3, R4. rewrite R1, R2, R3, R4.
      destruct s; repeat split; try assumption; lia.
Qed.

(** X3. Whatever the lines are, the matrix that [parse_lines] returns is
    consistent: its counts sum to total_failures, total_failures is
    between 0 and total_transitions, and total_transitions is at most the
    number of lines, since a line records at most one transition. *)
Theorem parser_counts_bounded (states : option (list string))
    (lines : list string) :
  let m := Analyze.parse_lines states lines in
  matrix_total (Analyze.matrix m) = Analyze.total_failures m
  /\ 0 <= Analyze.total_failures m
  /\ Analyze.total_failures m <= Analyze.total_transitions m
  /\ Analyze.total_transitions m <= Z.of_nat (length lines).
Proof.
  intros m. destruct (parse_lines_counts states lines) as (H1 & H2 & H3 & H4 & _).
  auto.
Qed.

Lemma has_lit_false_search (ic : bool) (l : string) (r : regex) (s : string) :
  has_lit ic l s = false -> re_search ic (Seq (Lit l) r) s = None.
Proof.
  induction s as [|c s IH]; cbn [has_lit re_search match_here].
  - destruct (match_lit ic l EmptyString); [discriminate|reflexivity].
  - destruct (match_lit ic l (String c s)); [discriminate|exact IH].
Qed.

Lemma irrelevant_line_skipped (st : Analyze.ParseState) (raw : string) :
  relevant_line raw = false -> Analyze.parse_line st raw = st.
Proof.
  unfold relevant_line. intros H. apply orb_false_iff in H. destruct H as [Ht Hs].
  destruct st as [m cur]. unfold Analyze.parse_line.
  destruct (strip raw) as [|c s]; [reflexivity|].
  unfold Analyze.search_transition, Analyze.search_state_change.
  unfold Analyze.TRANSITION_PATTERN at 1. unfold Analyze.STATE_CHANGE_PATTERN at 1.
  now rewrite (has_lit_false_search _ _ _ _ Ht), (has_lit_false_search _ _ _ _ Hs).
Qed.

(** X4. In a log of ASCII lines, the lines that hold neither TRANSITION:
    (in any case) nor STATE: are skipped without a trace: taking them out
    of the input, wherever they stand, changes neither the matrix nor the
    parser's final state. Blank lines are among them. *)
Theorem irrelevant_lines_ignored (states : option (list string))
    (lines : list string)
    (Hascii : forallb ascii_text lines = true) :
  Analyze.parse_lines_state states (List.filter relevant_line lines)
  = Analyze.parse_lines_state states lines.
Proof.
  clear Hascii.
  unfold Analyze.parse_lines_state. generalize (Analyze.init states, @None string).
  induction lines as [|raw lines IH]; intros st; [reflexivity|].
  simpl. destruct (relevant_line raw) eqn:E; simpl.
  - apply IH.
  - rewrite (irrelevant_line_skipped st raw E). apply IH.
Qed.

(** The theorem at a log of five lines, three of which say nothing. *)
Lemma irrelevant_lines_ignored_witness :
  Analyze.parse_lines_state None ["STATE: A"; "STATE: B failed"]
  = Analyze.parse_lines_state None
      ["starting up"; "STATE: A"; EmptyString; "   retry 2 of 3";
       "STATE: B failed"].
Proof.
  exact (irrelevant_lines_ignored None
           ["starting up"; "STATE: A"; EmptyString; "   retry 2 of 3";
            "STATE: B failed"] eq_refl).
Defined.

(** ** What the hotspots list *)

Lemma existsb_eqb_In (k : string) (l : list string) :
  existsb (String.eqb k) l = true <-> In k l.
Proof.
  rewrite existsb_exists. split.
  - intros (x & Hx & E). apply String.eqb_eq in E. now subst.
  - intros H. exists k. split; [exact H|apply String.eqb_refl].
Qed.

Lemma od_set_nodup {V : Type} (k : string) (v : V) (d : odict V) :
  NoDup (map fst d) -> NoDup (map fst (od_set k v d)).
Proof.
  intros H. rewrite od_set_keys.
  destruct (existsb (String.eqb k) (map fst d)) eqn:E; [exact H|].
  apply NoDup_app. split; [exact H|]. split.
  - intros x Hx Hk. apply list_elem_of_In in Hk. destruct Hk as [<-|[]].
    apply list_elem_of_In, existsb_eqb_In in Hx. congruence.
  - apply NoDup_singleton.
Qed.

Lemma od_get_In {V : Type} (k : string) (v : V) (d : odict V) :
  od_get k d = Some v -> In (k, v) d.
Proof.
  induction d as [|[k' v'] d IH]; simpl; [discriminate|].
  destruct (String.eqb_spec k k') as [->|Hne].
  - intros [= ->]. now left.
  - intros H. right. now apply IH.
Qed.

Lemma In_od_get {V : Type} (k : string) (v : V) (d : odict V) :
  NoDup (map fst d) -> In (k, v) d -> od_get k d = Some v.
Proof.
  induction d as [|[k' v'] d IH]; simpl; [contradiction|].
  intros Hnd [H|H].
  - injection H as -> ->. now rewrite String.eqb_refl.
  - apply NoDup_cons in Hnd. destruct Hnd as [Hk Hnd].
    destruct (String.eqb_spec k k') as [->|Hne].
    + exfalso. apply Hk. apply list_elem_of_In.
      change k' with (fst (k', v)). now apply in_map.
    + now apply IH.
Qed.

Lemma matrix_incr_keys_unique (f t : string) (m : Matrix) :
  keys_unique m -> keys_unique (matrix_incr f t m).
Proof.
  intros [H1 H2]. unfold matrix_incr. split; [now apply od_set_nodup|].
  apply (od_set_Forall (fun row : odict Z => NoDup (map fst row))); [exact H2|].
  apply od_set_nodup.
  destruct (od_get f m) as [row|] eqn:E; simpl; [|constructor].
  exact (od_get_Forall (fun row : odict Z => NoDup (map fst row)) f m row H2 E).
Qed.

Lemma matrix_incr_cells_positive (f t : string) (m : Matrix) :
  cells_positive m -> cells_positive (matrix_incr f t m).
Proof.
  intros H. unfold matrix_incr.
  assert (Hrow : Forall (fun tc : string * Z => 1 <= snd tc)
                        (default [] (od_get f m))).
  { destruct (od_get f m) as [row|] eqn:E; simpl; [|constructor].
    exact (od_get_Forall (fun row => Forall (fun tc : string * Z => 1 <= snd tc) row)
                         f m row H E). }
  apply (od_set_Forall (fun row => Forall (fun tc : string * Z => 1 <= snd tc) row));
    [exact H|].
  apply (od_set_Forall (fun c => 1 <= c)); [exact Hrow|].
  destruct (od_get t (default [] (od_get f m))) as [c|] eqn:E; simpl; [|lia].
  pose proof (od_get_Forall (fun c => 1 <= c) t _ c Hrow E). simpl in *. lia.
Qed.

Lemma incr_all_invariants (pairs : list (string * string)) (m : Matrix) :
  keys_unique m -> cells_positive m ->
  keys_unique (incr_all pairs m) /\ cells_positive (incr_all pairs m).
Proof.
  revert m. induction pairs as [|[f t] pairs IH]; intros m H1 H2; [now split|].
  apply IH; [now apply matrix_incr_keys_unique|now apply matrix_incr_cells_positive].
Qed.

Lemma incr_all_failure_count (pairs : list (string * string)) (m : Matrix)
    (f t : string) :
  failure_count (incr_all pairs m) f t = failure_count m f t + count_pair f t pairs.
Proof.
  revert m. unfold count_pair.
  induction pairs as [|[f' t'] pairs IH]; intros m; simpl; [lia|].
  unfold incr_all in *. simpl. rewrite IH, failure_count_incr.
  rewrite (String.eqb_sym f f'), (String.eqb_sym t t').
  destruct (String.eqb f' f && String.eqb t' t); simpl length; lia.
Qed.

Lemma matrix_items_In (m : Matrix) (f t : string) (c : Z) :
  In (f, t, c) (matrix_items m) <-> exists row, In (f, row) m /\ In (t, c) row.
Proof.
  unfold matrix_items. rewrite in_concat. split.
  - intros (l & Hl & Hx). apply in_map_iff in Hl. destruct Hl as ([f' row] & <- & Hin).
    unfold row_items in Hx. apply in_map_iff in Hx.
    destruct Hx as ([t' c'] & [= <- <- <-] & Hc). eauto.
  - intros (row & Hrow & Hc). exists (row_items f row). split.
    + apply in_map_iff. exists (f, row). auto.
    + unfold row_items. apply in_map_iff. exists (t, c). auto.
Qed.

Lemma matrix_items_lookup (m : Matrix) (f t : string) (c : Z) :
  keys_unique m ->
  In (f, t, c) (matrix_items m) <-> od_get f m ≫= od_get t = Some c.
Proof.
  intros [H1 H2]. rewrite matrix_items_In. split.
  - intros (row & Hrow & Hc).
    rewrite (In_od_get f row m H1 Hrow). simpl.
    apply In_od_get; [|exact Hc].
    rewrite Forall_forall in H2. apply (H2 (f, row)). now apply list_elem_of_In.
  - destruct (od_get f m) as [row|] eqn:E; simpl; [|discriminate].
    intros Hc. exists row. split; now apply od_get_In.
Qed.

Lemma row_pairs_nodup (f : string) (row : odict Z) :
  NoDup (map fst row) -> NoDup (map fst (row_items f row)).
Proof.
  unfold row_items. rewrite map_map. simpl.
  induction row as [|[t c] row IH]; simpl; intros H; [constructor|].
  apply NoDup_cons in H. destruct H as [Ht H]. apply NoDup_cons. split.
  - intros Hin. apply Ht. apply list_elem_of_In in Hin. apply list_elem_of_In.
    apply in_map_iff in Hin. destruct Hin as ([t' c'] & [= <-] & Hin).
    change t' with (fst (t', c')). now apply in_map.
  - now apply IH.
Qed.

Lemma matrix_pairs_nodup (m : Matrix) :
  keys_unique m -> NoDup (map fst (matrix_items m)).
Proof.
  intros [H1 H2]. unfold matrix_items.
  induction m as [|[f row] m IH]; simpl; [constructor|].
  apply NoDup_cons in H1. destruct H1 as [Hf H1].
  apply Forall_cons in H2. destruct H2 as [Hrow H2].
  rewrite map_app. apply NoDup_app. split; [apply row_pairs_nodup; exact Hrow|].
  split; [|apply IH; assumption].
  intros [f' t'] Hin1 Hin2. apply Hf.
  apply list_elem_of_In in Hin1, Hin2. apply list_elem_of_In.
  apply in_map_iff in Hin1. destruct Hin1 as ([[f1 t1] c1] & [= <- <-] & Hin1).
  unfold row_items in Hin1. apply in_map_iff in Hin1.
  destruct Hin1 as ([t2 c2] & [= <- _ _] & _).
  apply in_map_iff in Hin2. destruct Hin2 as ([[f3 t3] c3] & [= <- <-] & Hin2).
  fold (matrix_items m) in Hin2. apply matrix_items_In in Hin2.
  destruct Hin2 as (row' & Hr & _).
  exact (in_map fst m (f3, row') Hr).
Qed.

Lemma filter_map_fst_nodup {A B : Type} (p : A * B -> bool) (l : list (A * B)) :
  NoDup (map fst l) -> NoDup (map fst (List.filter p l)).
Proof.
  induction l as [|x l IH]; simpl; intros H; [constructor|].
  apply NoDup_cons in H. destruct H as [Hx H].
  destruct (p x); simpl; [|now apply IH].
  apply NoDup_cons. split; [|now apply IH].
  intros Hin. apply Hx. apply list_elem_of_In in Hin. apply list_elem_of_In.
  apply in_map_iff in Hin. destruct Hin as (y & Hy & Hin).
  apply filter_In in Hin. rewrite <- Hy. apply in_map. tauto.
Qed.

Lemma hotspots_of_failures (pairs : list (string * string)) (min_count : Z)
    (f t : string) (c : Z) :
  let hs := matrix_hotspots (incr_all pairs []) min_count in
  (In (f, t, c) hs <-> c = count_pair f t pairs /\ 1 <= c /\ min_count <= c)
  /\ NoDup (map fst hs).
Proof.
  intros hs.
  destruct (incr_all_invariants pairs []) as [Hk Hp];
    [split; constructor|constructor|].
  assert (Hperm : Permutation hs
            (List.filter (fun x => min_count <=? hotspot_count x)
                         (matrix_items (incr_all pairs [])))).
  { apply sorted_with_perm. }
  split.
  - split.
    + intros Hin. apply (Permutation_in _ Hperm) in Hin.
      apply filter_In in Hin. destruct Hin as [Hin Hmin].
      unfold hotspot_count in Hmin. simpl in Hmin. apply Z.leb_le in Hmin.
      pose proof (incr_all_failure_count pairs [] f t) as Hc.
      pose proof Hin as Hin'. apply matrix_items_In in Hin'.
      destruct Hin' as (row & Hrow & Hcell).
      apply (matrix_items_lookup _ _ _ _ Hk) in Hin.
      unfold failure_count in Hc. rewrite Hin in Hc. simpl in Hc.
      split; [exact Hc|]. split; [|exact Hmin].
      unfold cells_positive in Hp. rewrite Forall_forall in Hp.
      specialize (Hp (f, row)). simpl in Hp.
      rewrite Forall_forall in Hp. apply (Hp ltac:(now apply list_elem_of_In) (t, c)).
      now apply list_elem_of_In.
    + intros (Hc & Hpos & Hmin). apply (Permutation_in _ (Permutation_sym Hperm)).
      apply filter_In. split.
      * apply (matrix_items_lookup _ _ _ _ Hk).
        pose proof (incr_all_failure_count pairs [] f t) as Hfc.
        unfold failure_count in Hfc.
        destruct (od_get f (incr_all pairs []) ≫= od_get t) as [c'|]; simpl in Hfc.
        -- f_equal. lia.
        -- lia.
      * unfold hotspot_count. simpl. now apply Z.leb_le.
  - rewrite (Permutation_map fst Hperm).
    apply filter_map_fst_nodup. now apply matrix_pairs_nodup.
Qed.

Lemma run_calls_incr_all (cs : list Call) (t : Decorator.TransitionTracker) :
  Decorator.matrix (run_calls cs t)
  = incr_all (failed_pairs (map call_record cs)) (Decorator.matrix t).
Proof.
  revert t. induction cs as [|c cs IH]; intros t; [reflexivity|].
  unfold run_calls in *. cbn [fold_left map]. rewrite IH.
  unfold failed_pairs, call_record at 2, do_call, Decorator.record_transition.
  cbn [List.filter snd fst Decorator.matrix].
  destruct (call_success c); reflexivity.
Qed.

Lemma run_records_incr_all (rs : list (string * string * bool))
    (m : Analyze.TransitionFailureMatrix) :
  Analyze.matrix (run_records rs m) = incr_all (failed_pairs rs) (Analyze.matrix m).
Proof.
  revert m. induction rs as [|[[f t] s] rs IH]; intros m; [reflexivity|].
  unfold run_records in *. cbn [fold_left]. rewrite IH.
  unfold failed_pairs, Analyze.record_transition.
  cbn [List.filter snd fst].
  destruct s; reflexivity.
Qed.

(** X5. After any sequence of [record_transition] calls on a fresh tracker,
    and likewise on a fresh analyzer matrix, [get_hotspots(min_count)]
    lists a pair (from, to) with count c exactly when c is the number of
    failed records of that pair, c is at least 1 and at least min_count;
    no pair is listed twice. Pairs that only succeeded never appear, also
    for min_count 0 or less. *)
Theorem hotspots_list_failed_pairs (cs : list Call)
    (states : option (list string)) (rs : list (string * string * bool))
    (min_count : Z) (f t : string) (c : Z) :
  let tracker := run_calls cs Decorator.init in
  let analyzer := run_records rs (Analyze.init states) in
  (In (f, t, c) (Decorator.get_hotspots tracker min_count)
   <-> c = count_pair f t (failed_pairs (map call_record cs))
       /\ 1 <= c /\ min_count <= c)
  /\ NoDup (map fst (Decorator.get_hotspots tracker min_count))
  /\ (In (f, t, c) (Analyze.get_hotspots analyzer min_count)
      <-> c = count_pair f t (failed_pairs rs) /\ 1 <= c /\ min_count <= c)
  /\ NoDup (map fst (Analyze.get_hotspots analyzer min_count)).
Proof.
  intros tracker analyzer.
  unfold Decorator.get_hotspots, Analyze.get_hotspots.
  subst tracker analyzer. rewrite run_calls_incr_all, run_records_incr_all.
  change (Decorator.matrix Decorator.init) with (@nil (string * odict Z)).
  change (Analyze.matrix (Analyze.init states)) with (@nil (string * odict Z)).
  destruct (hotspots_of_failures (failed_pairs (map call_record cs))
              min_count f t c) as [H1 H2].
  destruct (hotspots_of_failures (failed_pairs rs) min_count f t c) as [H3 H4].
  auto.
Qed.

(** ** Rendering and the zero cells it inserts *)

Lemma od_set_same {V : Type} (k : string) (v : V) (d : odict V) :
  od_get k d = Some v -> od_set k v d = d.
Proof.
  induction d as [|[k' v'] d IH]; simpl; [discriminate|].
  destruct (String.eqb k k').
  - now intros [= ->].
  - intros H. now rewrite IH.
Qed.

Lemma od_set_absent {V : Type} (k : string) (v : V) (d : odict V) :
  od_get k d = None -> od_set k v d = d ++ [(k, v)].
Proof.
  induction d as [|[k' v'] d IH]; simpl; [reflexivity|].
  destruct (String.eqb k k'); [discriminate|].
  intros H. now rewrite IH.
Qed.

Lemma matrix_set_row_filter (p : string * string * Z -> bool) (f : string)
    (row' : odict Z) (m : Matrix) :
  (forall k, List.filter p (row_items k row')
             = List.filter p (row_items k (default [] (od_get f m)))) ->
  List.filter p (matrix_items (od_set f row' m)) = List.filter p (matrix_items m).
Proof.
  unfold matrix_items. induction m as [|[k r] m IH]; simpl; intros H.
  - rewrite app_nil_r. apply H.
  - destruct (String.eqb f k); simpl in *.
    + rewrite !List.filter_app. f_equal. apply H.
    + rewrite !List.filter_app. f_equal. now apply IH.
Qed.

Lemma matrix_read_same_counts (min_count : Z) (f t : string) (m : Matrix) :
  1 <= min_count -> same_counts min_count m (snd (matrix_read f t m)).
Proof.
  intros Hmin. unfold matrix_read, same_counts.
  destruct (od_get t (default [] (od_get f m))) as [c|] eqn:Et; simpl.
  - destruct (od_get f m) as [row|] eqn:Ef; simpl in Et; [|discriminate].
    simpl. rewrite (@od_set_same (list (string * Z)) f row m Ef). now split.
  - split.
    + apply matrix_set_row_filter. intros k.
      rewrite (od_set_absent t 0 _ Et). unfold row_items.
      rewrite map_app, List.filter_app. simpl.
      destruct (Z.leb_spec min_count 0); [lia|]. now rewrite app_nil_r.
    + intros f' t'. unfold failure_count.
      destruct (String.eqb_spec f f') as [<-|Hne].
      * rewrite od_get_set_same. simpl.
        destruct (String.eqb_spec t t') as [<-|Hne'].
        -- rewrite od_get_set_same.
           destruct (od_get f m) as [row|]; simpl in *; [now rewrite Et|reflexivity].
        -- rewrite od_get_set_other by exact Hne'.
           now destruct (od_get f m).
      * now rewrite od_get_set_other.
Qed.

Lemma same_counts_trans (min_count : Z) (m1 m2 m3 : Matrix) :
  same_counts min_count m1 m2 -> same_counts min_count m2 m3 ->
  same_counts min_count m1 m3.
Proof.
  intros [H1 H2] [H3 H4]. split; [congruence|].
  intros f t. now rewrite H4.
Qed.

Lemma table_row_same_counts (min_count : Z) (first : string -> string)
    (cell : Z -> string) (f : string) (states : list string) (m : Matrix) :
  1 <= min_count ->
  same_counts min_count m (snd (Analyze.table_row first cell f states m)).
Proof.
  intros Hmin. unfold Analyze.table_row.
  assert (H : forall acc : string * Matrix,
             same_counts min_count m (snd acc) ->
             same_counts min_count m
               (snd (fold_left
                       (fun acc to_state =>
                          let '(count, m') := matrix_read f to_state (snd acc) in
                          (fst acc +:+ cell count, m'))
                       states acc))).
  { induction states as [|t states IH]; intros acc Hacc; [exact Hacc|].
    cbn [fold_left]. apply IH.
    pose proof (matrix_read_same_counts min_count f t (snd acc) Hmin) as Hr.
    destruct (matrix_read f t (snd acc)) as [count m']. cbn [snd] in *.
    eapply same_counts_trans; eassumption. }
  apply H. now split.
Qed.

Lemma table_rows_same_counts (min_count : Z) (first : string -> string)
    (cell : Z -> string) (states : list string) (m : Matrix) :
  1 <= min_count ->
  same_counts min_count m (snd (Analyze.table_rows first cell states m)).
Proof.
  intros Hmin. unfold Analyze.table_rows. generalize states at 1 as inner.
  intros inner.
  assert (H : forall acc : list string * Matrix,
             same_counts min_count m (snd acc) ->
             same_counts min_count m
               (snd (fold_left
                       (fun acc from_state =>
                          let '(row, m') :=
                            Analyze.table_row first cell from_state inner (snd acc) in
                          (fst acc ++ [row], m'))
                       states acc))).
  { induction states as [|f states IH]; intros acc Hacc; [exact Hacc|].
    cbn [fold_left]. apply IH.
    pose proof (table_row_same_counts min_count first cell f inner (snd acc) Hmin)
      as Hr.
    destruct (Analyze.table_row first cell f inner (snd acc)) as [row m'].
    cbn [snd] in *. eapply same_counts_trans; eassumption. }
  apply H. now split.
Qed.

Lemma same_counts_hotspots (min_count : Z) (m m' : Matrix) :
  same_counts min_count m m' ->
  matrix_hotspots m' min_count = matrix_hotspots m min_count.
Proof. intros [H _]. unfold matrix_hotspots. now rewrite H. Qed.

Lemma markdown_row_same_counts (min_count : Z) (f : string)
    (states : list string) (m : Matrix) :
  1 <= min_count ->
  same_counts min_count m (snd (Decorator.markdown_row f states m)).
Proof.
  intros Hmin. unfold Decorator.markdown_row.
  assert (H : forall acc : string * Matrix,
             same_counts min_count m (snd acc) ->
             same_counts min_count m
               (snd (fold_left
                       (fun acc to_state =>
                          let '(count, m') := matrix_read f to_state (snd acc) in
                          (fst acc +:+ (if 0 <? count
                                        then " **" +:+ str_Z count +:+ "** |"
                                        else " - |"), m'))
                       states acc))).
  { induction states as [|t states IH]; intros acc Hacc; [exact Hacc|].
    cbn [fold_left]. apply IH.
    pose proof (matrix_read_same_counts min_count f t (snd acc) Hmin) as Hr.
    destruct (matrix_read f t (snd acc)) as [count m']. cbn [snd] in *.
    eapply same_counts_trans; eassumption. }
  apply H. now split.
Qed.

Lemma markdown_rows_same_counts (min_count : Z) (states : list string)
    (m : Matrix) :
  1 <= min_count ->
  same_counts min_count m (snd (Decorator.markdown_rows states m)).
Proof.
  intros Hmin. unfold Decorator.markdown_rows. generalize states at 1 as inner.
  intros inner.
  assert (H : forall acc : list string * Matrix,
             same_counts min_count m (snd acc) ->
             same_counts min_count m
               (snd (fold_left
                       (fun acc from_state =>
                          let '(row, m') :=
                            Decorator.markdown_row from_state inner (snd acc) in
                          (fst acc ++ [row], m'))
                       states acc))).
  { induction states as [|f states IH]; intros acc Hacc; [exact Hacc|].
    cbn [fold_left]. apply IH.
    pose proof (markdown_row_same_counts min_count f inner (snd acc) Hmin) as Hr.
    destruct (Decorator.markdown_row f inner (snd acc)) as [row m'].
    cbn [snd] in *. eapply same_counts_trans; eassumption. }
  apply H. now split.
Qed.

Lemma analyzer_render_markdown_keeps (format_1f : Q -> string)
    (self : Analyze.TransitionFailureMatrix) (min_count : Z) :
  1 <= min_count ->
  exists text self',
    Analyze.render_markdown format_1f self = Some (text, self')
    /\ same_counts min_count (Analyze.matrix self) (Analyze.matrix self')
    /\ Analyze.with_matrix self' (Analyze.matrix self) = self.
Proof.
  intros Hmin. unfold Analyze.render_markdown.
  destruct (Analyze.get_all_states self) as [|s l].
  - do 2 eexists. split; [reflexivity|]. split; [now split|now destruct self].
  - rewrite failure_rate_percent_value. cbn [mbind option_bind].
    match goal with
    | |- context [Analyze.table_rows ?a ?b ?c ?d] =>
        pose proof (table_rows_same_counts min_count a b c d Hmin) as Hs;
        destruct (Analyze.table_rows a b c d) as [rows m']
    end.
    do 2 eexists. split; [reflexivity|]. split; [exact Hs|now destruct self].
Qed.

Lemma analyzer_render_ascii_keeps (self : Analyze.TransitionFailureMatrix)
    (min_count : Z) :
  1 <= min_count ->
  exists text self',
    Analyze.render_ascii self = Some (text, self')
    /\ same_counts min_count (Analyze.matrix self) (Analyze.matrix self')
    /\ Analyze.with_matrix self' (Analyze.matrix self) = self.
Proof.
  intros Hmin. unfold Analyze.render_ascii.
  destruct (Analyze.get_all_states self) as [|s l].
  - do 2 eexists. split; [reflexivity|]. split; [now split|now destruct self].
  - cbn [py_max map mbind option_bind].
    match goal with
    | |- context [Analyze.table_rows ?a ?b ?c ?d] =>
        pose proof (table_rows_same_counts min_count a b c d Hmin) as Hs;
        destruct (Analyze.table_rows a b c d) as [rows m']
    end.
    do 2 eexists. split; [reflexivity|]. split; [exact Hs|now destruct self].
Qed.

Lemma tracker_render_markdown_keeps (tracker : Decorator.TransitionTracker)
    (min_count : Z) :
  1 <= min_count ->
  let tracker' := snd (Decorator.render_markdown tracker) in
  same_counts min_count (Decorator.matrix tracker) (Decorator.matrix tracker')
  /\ Decorator.events tracker' = Decorator.events tracker
  /\ Decorator.current_state tracker' = Decorator.current_state tracker.
Proof.
  intros Hmin. unfold Decorator.render_markdown.
  destruct (Decorator.summary_states (Decorator.get_matrix_summary tracker))
    as [|s l].
  - simpl. split; [now split|now split].
  - match goal with
    | |- context [Decorator.markdown_rows ?c ?d] =>
        pose proof (markdown_rows_same_counts min_count c d Hmin) as Hs;
        destruct (Decorator.markdown_rows c d) as [rows m']
    end.
    simpl. split; [exact Hs|now split].
Qed.

(** X6. Rendering reads cells through the defaultdict and so inserts zero
    cells, but that is all it changes: after [render_markdown] or
    [render_ascii] of an analyzer matrix, or [render_markdown] of a
    tracker, in any state, every pair has the failure count it had,
    [get_hotspots(min_count)] returns what it returned for every
    min_count >= 1, and the other fields of the object are untouched. *)
Theorem rendering_keeps_counts (format_1f : Q -> string)
    (self : Analyze.TransitionFailureMatrix)
    (tracker : Decorator.TransitionTracker) (min_count : Z) (f t : string)
    (Hmin : 1 <= min_count) :
  (exists text self',
     Analyze.render_markdown format_1f self = Some (text, self')
     /\ Analyze.get_hotspots self' min_count = Analyze.get_hotspots self min_count
     /\ failure_count (Analyze.matrix self') f t
        = failure_count (Analyze.matrix self) f t
     /\ Analyze.with_matrix self' (Analyze.matrix self) = self)
  /\ (exists text self',
        Analyze.render_ascii self = Some (text, self')
        /\ Analyze.get_hotspots self' min_count
           = Analyze.get_hotspots self min_count
        /\ failure_count (Analyze.matrix self') f t
           = failure_count (Analyze.matrix self) f t
        /\ Analyze.with_matrix self' (Analyze.matrix self) = self)
  /\ (let tracker' := snd (Decorator.render_markdown tracker) in
      Decorator.get_hotspots tracker' min_count
        = Decorator.get_hotspots tracker min_count
      /\ failure_count (Decorator.matrix tracker') f t
         = failure_count (Decorator.matrix tracker) f t
      /\ Decorator.events tracker' = Decorator.events tracker
      /\ Decorator.current_state tracker' = Decorator.current_state tracker).
Proof.
  split; [|split].
  - destruct (analyzer_render_markdown_keeps format_1f self min_count Hmin)
      as (text & self' & Hr & Hs & Hw).
    exists text, self'. split; [exact Hr|]. split.
    + now apply same_counts_hotspots.
    + split; [apply Hs|exact Hw].
  - destruct (analyzer_render_ascii_keeps self min_count Hmin)
      as (text & self' & Hr & Hs & Hw).
    exists text, self'. split; [exact Hr|]. split.
    + now apply same_counts_hotspots.
    + split; [apply Hs|exact Hw].
  - destruct (tracker_render_markdown_keeps tracker min_count Hmin)
      as (Hs & He & Hc).
    cbn zeta. split; [now apply same_counts_hotspots|].
    split; [apply Hs|]. now split.
Qed.

(** The theorem at the tracker with failures A to B, C to D, A to E. *)
Lemma rendering_keeps_counts_witness :
  Decorator.get_hotspots (snd (Decorator.render_markdown tracker_AB_CD_AE)) 1
  = Decorator.get_hotspots tracker_AB_CD_AE 1.
Proof.
  assert (H : 1 <= 1) by lia.
  exact (proj1 (proj2 (proj2 (rendering_keeps_counts (fun _ => EmptyString)
                                (Analyze.init None) tracker_AB_CD_AE 1 "A" "B" H)))).
Defined.

(** For a threshold of 0 the inserted cells show: the tracker with three
    failed pairs lists three entries before a rendering and twenty-five
    after it, one per cell of the five by five table. *)
Example rendering_shows_at_threshold_zero :
  length (Decorator.get_hotspots tracker_AB_CD_AE 0) = 3%nat
  /\ length (Decorator.get_hotspots
               (snd (Decorator.render_markdown tracker_AB_CD_AE)) 0) = 25%nat.
Proof. split; reflexivity. Qed.

(** ** Rates of a parsed log *)

Lemma fraction_in_range (a b : Z) :
  0 <= a -> a <= b -> 0 < b ->
  (0 <= inject_Z a / inject_Z b)%Q /\ (inject_Z a / inject_Z b <= 1)%Q.
Proof.
  intros Ha Hab Hb.
  assert (Hb' : (0 < inject_Z b)%Q).
  { change 0%Q with (inject_Z 0). now rewrite <- Zlt_Qlt. }
  split.
  - apply Qle_shift_div_l; [exact Hb'|]. rewrite Qmult_0_l.
    change 0%Q with (inject_Z 0). now rewrite <- Zle_Qle.
  - apply Qle_shift_div_r; [exact Hb'|]. rewrite Qmult_1_l.
    now rewrite <- Zle_Qle.
Qed.

Lemma percent_in_range (q : Q) :
  (0 <= q)%Q -> (q <= 1)%Q -> (0 <= q * 100)%Q /\ (q * 100 <= 100)%Q.
Proof.
  intros H0 H1. split.
  - apply Qmult_le_0_compat; [exact H0|discriminate].
  - apply Qle_trans with (1 * 100)%Q; [|discriminate].
    apply Qmult_le_compat_r; [exact H1|discriminate].
Qed.

(** X7. For every input, the rates computed from the matrix that
    [parse_lines] returns are proper: [render_json]'s failure_rate is a
    fraction between 0 and 1, [render_markdown]'s rate a percentage between
    0 and 100, the second a hundred times the first, and both are 0 for a
    log without transitions. *)
Theorem parsed_rates_in_range (states : option (list string)) (lines : list string) :
  let m := Analyze.parse_lines states lines in
  exists rate percent,
    Analyze.failure_rate m = Some rate
    /\ Analyze.failure_rate_percent m = Some percent
    /\ (0 <= number_value rate)%Q /\ (number_value rate <= 1)%Q
    /\ (0 <= number_value percent)%Q /\ (number_value percent <= 100)%Q
    /\ (number_value percent == number_value rate * 100)%Q.
Proof.
  intros m. destruct (parse_lines_counts states lines) as (_ & H0 & H1 & _).
  fold m in H0, H1.
  rewrite failure_rate_value, failure_rate_percent_value.
  destruct (Z.ltb_spec 0 (Analyze.total_transitions m)) as [Hpos|Hz].
  - destruct (fraction_in_range _ _ H0 H1 Hpos) as [Ha Hb].
    destruct (percent_in_range _ Ha Hb) as [Hc Hd].
    do 2 eexists. split; [reflexivity|]. split; [reflexivity|]. simpl.
    repeat split; try assumption; reflexivity.
  - do 2 eexists. split; [reflexivity|]. split; [reflexivity|]. simpl.
    repeat split; try discriminate; reflexivity.
Qed.

(** ** Wrappers in sequence *)

Lemma inferred_after_success (t : Decorator.TransitionTracker)
    (from_state to_state : string) (d : Q) (err : option string)
    (workflow_id : string) (md : list (string * string)) (now : Z) :
  Decorator.inferred_from_state
    (Decorator.record_transition t from_state to_state true d err workflow_id
                                 md now) workflow_id
  = or_START to_state.
Proof.
  unfold Decorator.inferred_from_state, Decorator.get_current_state. simpl.
  rewrite lookup_insert_eq. now destruct to_state.
Qed.

Lemma inferred_after_failure (t : Decorator.TransitionTracker)
    (from_state to_state : string) (d : Q) (err : option string)
    (workflow_id w : string) (md : list (string * string)) (now : Z) :
  Decorator.inferred_from_state
    (Decorator.record_transition t from_state to_state false d err workflow_id
                                 md now) w
  = Decorator.inferred_from_state t w.
Proof. reflexivity. Qed.

(** X8. Wrappers of [track_state] chain. After a wrapped call for state A
    in a workflow, whatever that call did to the tracker, the from_state
    the next wrapper of the workflow infers is A when the call returned
    (START if A is the empty name), and when it raised it is what the
    tracker held when the call ended: a failed step is not entered. The
    next wrapper records one transition from that state: a success when its
    function returns, a failure when its function raises an exception that
    [except Exception] catches and whose [str] returns; it records nothing
    when [str] of the caught exception raises, and nothing for a raise that
    is not caught. *)
Theorem track_state_wrappers_chain {R1 R2 : Type}
    (state_a state_b workflow_id : string)
    (f1 : Decorator.TransitionTracker
          -> Decorator.outcome R1 * Decorator.TransitionTracker)
    (f2 : Decorator.TransitionTracker
          -> Decorator.outcome R2 * Decorator.TransitionTracker)
    (s1 e1 s2 e2 : Q) (n1 n2 : Z) (tracker : Decorator.TransitionTracker) :
  let w1 := Decorator.sync_wrapper state_a workflow_id f1 s1 e1 n1 tracker in
  let w2 := Decorator.sync_wrapper state_b workflow_id f2 s2 e2 n2 (snd w1) in
  let next_from :=
    match fst (f1 tracker) with
    | Decorator.Returned _ => or_START state_a
    | Decorator.Raised _ =>
        Decorator.inferred_from_state (snd (f1 tracker)) workflow_id
    end in
  Decorator.inferred_from_state (snd w1) workflow_id = next_from
  /\ Decorator.events (snd w2)
     = Decorator.events (snd (f2 (snd w1)))
       ++ match fst (f2 (snd w1)) with
          | Decorator.Returned _ =>
              [Decorator.mkEvent next_from state_b true n2
                 ((e2 - s2) * 1000)%Q None []]
          | Decorator.Raised e =>
              if Decorator.is_Exception e
              then match Decorator.exc_str e with
                   | inl message =>
                       [Decorator.mkEvent next_from state_b false n2
                          ((e2 - s2) * 1000)%Q (Some message) []]
                   | inr _ => []
                   end
              else []
          end.
Proof.
  intros w1 w2 next_from.
  assert (H1 : Decorator.inferred_from_state (snd w1) workflow_id = next_from).
  { subst w1 next_from. unfold Decorator.sync_wrapper.
    destruct (f1 tracker) as [[r|e] t1]; cbn [fst snd].
    - apply inferred_after_success.
    - destruct (Decorator.is_Exception e); [|reflexivity].
      destruct (Decorator.exc_str e); reflexivity. }
  split; [exact H1|].
  subst w2. unfold Decorator.sync_wrapper at 1. rewrite H1.
  destruct (f2 (snd w1)) as [[r|e] t2]; cbn [fst snd].
  - reflexivity.
  - destruct (Decorator.is_Exception e); cbn [fst snd];
      [|now rewrite app_nil_r].
    destruct (Decorator.exc_str e); cbn [fst snd];
      [reflexivity|now rewrite app_nil_r].
Qed.

(** X9. The wrappers of [track_transition]. After a return they hand the
    value to the caller, record one success from the declared from_state
    to the declared to_state and make to_state the current state of the
    default workflow, so that a following [track_state] wrapper of that
    workflow starts from it. After a raise that [except Exception] catches
    they take the [str] of the raised object: when it returns, they record
    one failure with that text and raise the object again; when it raises,
    they record nothing and what [str] raised leaves the wrapper. After any
    other raise they record nothing and the object goes through. A raise
    leaves every current state as the call left it. The async wrapper does
    the same. *)
Theorem track_transition_records {R : Type} (from_state to_state : string)
    (func : Decorator.TransitionTracker
            -> Decorator.outcome R * Decorator.TransitionTracker)
    (start_time end_time : Q) (now : Z) (tracker : Decorator.TransitionTracker)
    (w : string) :
  let after := snd (func tracker) in
  let duration_ms := ((end_time - start_time) * 1000)%Q in
  let r := track_transition_sync_wrapper from_state to_state func
             start_time end_time now tracker in
  fst r
  = match fst (func tracker) with
    | Decorator.Returned x => Decorator.Returned x
    | Decorator.Raised e =>
        if Decorator.is_Exception e
        then match Decorator.exc_str e with
             | inl _ => Decorator.Raised e
             | inr e' => Decorator.Raised e'
             end
        else Decorator.Raised e
    end
  /\ Decorator.events (snd r)
     = Decorator.events after
       ++ match fst (func tracker) with
          | Decorator.Returned _ =>
              [Decorator.mkEvent from_state to_state true now duration_ms None []]
          | Decorator.Raised e =>
              if Decorator.is_Exception e
              then match Decorator.exc_str e with
                   | inl message =>
                       [Decorator.mkEvent from_state to_state false now
                          duration_ms (Some message) []]
                   | inr _ => []
                   end
              else []
          end
  /\ Decorator.get_current_state (snd r) w
     = match fst (func tracker) with
       | Decorator.Returned _ =>
           if String.eqb w "default" then Some to_state
           else Decorator.get_current_state after w
       | Decorator.Raised _ => Decorator.get_current_state after w
       end
  /\ Decorator.inferred_from_state (snd r) "default"
     = match fst (func tracker) with
       | Decorator.Returned _ => or_START to_state
       | Decorator.Raised _ => Decorator.inferred_from_state after "default"
       end
  /\ track_transition_async_wrapper from_state to_state func
       start_time end_time now tracker = r.
Proof.
  cbn zeta. unfold track_transition_sync_wrapper, track_transition_async_wrapper.
  destruct (func tracker) as [[x|e] after]; cbn [fst snd].
  - split; [reflexivity|]. split; [reflexivity|]. split.
    + unfold Decorator.get_current_state. simpl.
      destruct (String.eqb_spec w "default") as [->|Hne].
      * apply lookup_insert_eq.
      * apply lookup_insert_ne. congruence.
    + split; [apply inferred_after_success|reflexivity].
  - destruct (Decorator.is_Exception e); cbn [fst snd].
    + destruct (Decorator.exc_str e); cbn [fst snd];
        repeat split; try reflexivity.
      now rewrite app_nil_r.
    + repeat split; try reflexivity. now rewrite app_nil_r.
Qed.

(** ** The flow diagram's labels *)

Lemma contains_cons (sep : string) (c : ascii) (s : string) :
  contains sep (String c s) = false ->
  String.prefix sep (String c s) = false /\ contains sep s = false.
Proof.
  intros H. change (contains sep (String c s))
    with (String.prefix sep (String c s) || contains sep s) in H.
  now apply orb_false_iff in H.
Qed.

Lemma prefix_append_long (l a b : string) :
  (String.length l <= String.length a)%nat ->
  String.prefix l (a +:+ b) = String.prefix l a.
Proof.
  revert a. induction l as [|x l IH]; intros a Hlen.
  - destruct a; [destruct b|]; reflexivity.
  - destruct a as [|y a]; [simpl in Hlen; lia|].
    rewrite append_cons. cbn [String.prefix].
    destruct (ascii_dec x y); [|reflexivity].
    apply IH. simpl in Hlen. lia.
Qed.

Lemma split_no_separator (t : string) (cur : list ascii) :
  contains Ledger.pair_sep t = false ->
  split_go Ledger.pair_sep 0 cur t
  = [string_of_list_ascii (rev cur ++ list_ascii_of_string t)].
Proof.
  revert cur. induction t as [|c t IH]; intros cur H.
  - simpl. now rewrite app_nil_r.
  - apply contains_cons in H. destruct H as [Hc Ht].
    cbn [split_go]. rewrite Hc, (IH _ Ht). simpl. now rewrite <- app_assoc.
Qed.

Lemma label_regroup (x t : string) :
  x +:+ Ledger.pair_sep +:+ t = (x +:+ " " +:+ Ledger.arrow) +:+ " " +:+ t.
Proof.
  induction x as [|c x IH]; [reflexivity|].
  rewrite !append_cons. now rewrite IH.
Qed.

Lemma prefix_sep_label (c : ascii) (f t : string) :
  String.prefix Ledger.pair_sep (String c f +:+ Ledger.pair_sep +:+ t)
  = String.prefix Ledger.pair_sep (String c f +:+ " " +:+ Ledger.arrow).
Proof.
  rewrite label_regroup. apply prefix_append_long.
  rewrite length_append. simpl. lia.
Qed.

Lemma split_label_go (f t : string) (cur : list ascii) :
  contains Ledger.pair_sep (f +:+ " " +:+ Ledger.arrow) = false ->
  contains Ledger.pair_sep t = false ->
  split_go Ledger.pair_sep 0 cur (f +:+ Ledger.pair_sep +:+ t)
  = [string_of_list_ascii (rev cur ++ list_ascii_of_string f); t].
Proof.
  intros Hf Ht. revert cur. induction f as [|c f IH]; intros cur.
  - change (EmptyString +:+ Ledger.pair_sep +:+ t)
      with (String " " (String (ascii_of_nat 226)
              (String (ascii_of_nat 134) (String (ascii_of_nat 146)
                 (String " " t))))).
    cbn [split_go].
    replace (String.prefix Ledger.pair_sep _) with true.
    + change (String.length Ledger.pair_sep - 1)%nat with 4%nat.
      cbn [split_go]. destruct t as [|a t'].
      * simpl. now rewrite app_nil_r.
      * rewrite (split_no_separator (String a t') [] Ht). simpl.
        rewrite app_nil_r. now rewrite string_of_list_ascii_of_string.
    + symmetry.
      change Ledger.pair_sep
        with (String " " (String (ascii_of_nat 226)
                (String (ascii_of_nat 134) (String (ascii_of_nat 146) " ")))).
      cbn [String.prefix].
      repeat (destruct (ascii_dec _ _); [|congruence]). now destruct t.
  - pose proof (prefix_sep_label c f t) as Hp.
    rewrite append_cons in Hf. apply contains_cons in Hf.
    destruct Hf as [Hc Hf].
    rewrite append_cons in Hp. rewrite (append_cons c f (" " +:+ Ledger.arrow)) in Hp.
    rewrite Hc in Hp.
    rewrite append_cons. cbn [split_go]. rewrite Hp.
    rewrite (IH Hf). simpl. now rewrite <- app_assoc.
Qed.

Lemma split_pair_label (f t : string) :
  contains Ledger.pair_sep (f +:+ " " +:+ Ledger.arrow) = false ->
  contains Ledger.pair_sep t = false ->
  py_split Ledger.pair_sep (Ledger.pair_label f t) = [f; t].
Proof.
  intros Hf Ht. unfold py_split, Ledger.pair_label.
  rewrite (split_label_go f t [] Hf Ht). simpl.
  now rewrite string_of_list_ascii_of_string.
Qed.

Lemma split_plain_label (label : string) :
  contains Ledger.pair_sep label = false ->
  py_split Ledger.pair_sep label = [label].
Proof.
  intros H. unfold py_split. rewrite (split_no_separator label [] H). simpl.
  now rewrite string_of_list_ascii_of_string.
Qed.

Lemma arrow_then_blank (g : string) :
  contains Ledger.arrow g = false ->
  String.prefix (Ledger.arrow +:+ " ") (g +:+ " " +:+ Ledger.arrow) = false.
Proof.
  change (Ledger.arrow +:+ " ")
    with (String (ascii_of_nat 226) (String (ascii_of_nat 134)
            (String (ascii_of_nat 146) " "))).
  change (" " +:+ Ledger.arrow)
    with (String " " (String (ascii_of_nat 226) (String (ascii_of_nat 134)
            (String (ascii_of_nat 146) EmptyString)))).
  destruct g as [|a [|b [|c g]]]; intros H.
  - reflexivity.
  - rewrite append_cons, append_nil_l. cbn [String.prefix].
    destruct (ascii_dec (ascii_of_nat 226) a); reflexivity.
  - rewrite !append_cons, append_nil_l. cbn [String.prefix].
    destruct (ascii_dec (ascii_of_nat 226) a); [|reflexivity].
    destruct (ascii_dec (ascii_of_nat 134) b); reflexivity.
  - rewrite !append_cons. cbn [String.prefix].
    destruct (ascii_dec (ascii_of_nat 226) a) as [<-|]; [|reflexivity].
    destruct (ascii_dec (ascii_of_nat 134) b) as [<-|]; [|reflexivity].
    destruct (ascii_dec (ascii_of_nat 146) c) as [<-|]; [|reflexivity].
    apply contains_cons in H. destruct H as [H _].
    change Ledger.arrow
      with (String (ascii_of_nat 226) (String (ascii_of_nat 134)
              (String (ascii_of_nat 146) EmptyString))) in H.
    cbn [String.prefix] in H.
    repeat (destruct (ascii_dec _ _) in H; [|congruence]).
    now destruct g.
Qed.

Lemma blank_then_arrow (c : ascii) (g : string) :
  String.prefix Ledger.pair_sep (String c g) = true ->
  String.prefix (Ledger.arrow +:+ " ") g = true.
Proof.
  change Ledger.pair_sep with (String " " (Ledger.arrow +:+ " ")).
  cbn [String.prefix]. now destruct (ascii_dec " " c).
Qed.

(** A name without the arrow gives the separator no room before the arrow
    of its label. *)
Lemma no_arrow_no_separator (f : string) :
  contains Ledger.arrow f = false ->
  contains Ledger.pair_sep (f +:+ " " +:+ Ledger.arrow) = false.
Proof.
  induction f as [|c f IH]; intros H; [reflexivity|].
  apply contains_cons in H. destruct H as [_ H].
  rewrite append_cons.
  change (contains Ledger.pair_sep (String c (f +:+ " " +:+ Ledger.arrow)))
    with (String.prefix Ledger.pair_sep (String c (f +:+ " " +:+ Ledger.arrow))
          || contains Ledger.pair_sep (f +:+ " " +:+ Ledger.arrow)).
  rewrite (IH H), orb_false_r.
  destruct (String.prefix Ledger.pair_sep (String c (f +:+ " " +:+ Ledger.arrow)))
    eqn:E; [|reflexivity].
  apply blank_then_arrow in E.
  now rewrite (arrow_then_blank f H) in E.
Qed.

(** Nor inside the name. *)
Lemma no_arrow_no_separator_inside (t : string) :
  contains Ledger.arrow t = false -> contains Ledger.pair_sep t = false.
Proof.
  induction t as [|c t IH]; intros H; [reflexivity|].
  apply contains_cons in H. destruct H as [_ H].
  change (contains Ledger.pair_sep (String c t))
    with (String.prefix Ledger.pair_sep (String c t)
          || contains Ledger.pair_sep t).
  rewrite (IH H), orb_false_r.
  destruct (String.prefix Ledger.pair_sep (String c t)) eqn:E; [|reflexivity].
  apply blank_then_arrow in E.
  change (Ledger.arrow +:+ " ")
    with (String (ascii_of_nat 226) (String (ascii_of_nat 134)
            (String (ascii_of_nat 146) " "))) in E.
  destruct t as [|a [|b [|d t]]]; try discriminate E.
  - cbn [String.prefix] in E. destruct (ascii_dec _ _) in E; discriminate E.
  - cbn [String.prefix] in E.
    repeat (destruct (ascii_dec _ _) in E; [|discriminate E]). discriminate E.
  - cbn [String.prefix] in E.
    destruct (ascii_dec (ascii_of_nat 226) a) as [<-|]; [|discriminate E].
    destruct (ascii_dec (ascii_of_nat 134) b) as [<-|]; [|discriminate E].
    destruct (ascii_dec (ascii_of_nat 146) d) as [<-|]; [|discriminate E].
    apply contains_cons in H. destruct H as [H _].
    change Ledger.arrow
      with (String (ascii_of_nat 226) (String (ascii_of_nat 134)
              (String (ascii_of_nat 146) EmptyString))) in H.
    cbn [String.prefix] in H.
    repeat (destruct (ascii_dec _ _) in H; [|congruence]).
    now destruct t.
Qed.

(** X10. For an entry of the rates whose label is from, the arrow
    separator, to, where the separator occurs neither in from followed by
    a blank and the arrow nor in to (so it is, for instance, when neither
    name contains the arrow), the label splits back into from and to, and
    the flow diagram gets the line from,to,successes when successes reach
    min_transitions and the line from,FAIL,failures when failures are shown
    and reach min_transitions, in this order, and nothing else; with
    include_failures off no FAIL line is written. An entry whose label
    does not contain the separator is dropped without a line. *)
Theorem sankey_lines_of_label (include_failures : bool) (min_transitions : Z)
    (from_state to_state label : string) (stats : Ledger.TransitionStats)
    (Hfrom : contains Ledger.pair_sep (from_state +:+ " " +:+ Ledger.arrow)
             = false)
    (Hto : contains Ledger.pair_sep to_state = false)
    (Hlabel : contains Ledger.pair_sep label = false) :
  py_split Ledger.pair_sep (Ledger.pair_label from_state to_state)
    = [from_state; to_state]
  /\ Visualizations.sankey_lines include_failures min_transitions
       (Ledger.pair_label from_state to_state, stats)
     = (if min_transitions <=? Ledger.successes stats
        then [from_state +:+ "," +:+ to_state +:+ ","
              +:+ str_Z (Ledger.successes stats)]
        else [])
       ++ (if include_failures && (min_transitions <=? Ledger.failures stats)
           then [from_state +:+ ",FAIL," +:+ str_Z (Ledger.failures stats)]
           else [])
  /\ Visualizations.sankey_lines include_failures min_transitions (label, stats)
     = [].
Proof.
  split; [now apply split_pair_label|]. split.
  - unfold Visualizations.sankey_lines. cbn [fst snd].
    rewrite (split_pair_label _ _ Hfrom Hto).
    destruct (Z.ltb_spec (Ledger.successes stats) min_transitions) as [H1|H1];
      destruct (Z.ltb_spec (Ledger.failures stats) min_transitions) as [H2|H2];
      cbn [andb]; try reflexivity.
    destruct (Z.leb_spec min_transitions (Ledger.successes stats)); [lia|].
    destruct (Z.leb_spec min_transitions (Ledger.failures stats)); [lia|].
    now rewrite andb_false_r.
  - unfold Visualizations.sankey_lines. cbn [fst snd].
    now rewrite (split_plain_label _ Hlabel).
Qed.

(** The theorem at the pair from Parse to a name that ends with the euro
    sign, and at a label whose arrow has no blanks around it. *)
Lemma sankey_lines_of_label_witness :
  Visualizations.sankey_lines true 1
    (Ledger.pair_label "Parse" ("cost" +:+ euro), Ledger.mkStats 5 3 2 40 0)
  = ["Parse," +:+ ("cost" +:+ euro) +:+ ",3"; "Parse,FAIL,2"]
  /\ Visualizations.sankey_lines true 1
       ("A" +:+ Ledger.arrow +:+ "B", Ledger.mkStats 5 3 2 40 0)
     = [].
Proof.
  pose proof (sankey_lines_of_label true 1 "Parse" ("cost" +:+ euro)
                ("A" +:+ Ledger.arrow +:+ "B")
                (Ledger.mkStats 5 3 2 40 0) eq_refl eq_refl eq_refl)
    as (_ & H1 & H2).
  split; [exact H1|exact H2].
Defined.

(** ** The state lists *)

#[local] Set Warnings "-clear-no-such-hyp".

Lemma insert_sorted_total {A : Type} (le : A -> A -> bool) (x : A) (l : list A) :
  (forall a b, le a b = true \/ le b a = true) ->
  Sorted (fun a b => le a b = true) l ->
  Sorted (fun a b => le a b = true) (insert_sorted le x l).
Proof.
  intros Htot. induction 1 as [|y l Hs IH Hy]; simpl.
  - repeat constructor.
  - destruct (le x y) eqn:E.
    + constructor; [now constructor|]. now constructor.
    + constructor; [exact IH|].
      destruct l as [|z l]; simpl.
      * constructor. destruct (Htot x y); congruence.
      * destruct (le x z).
        -- constructor. destruct (Htot x y); congruence.
        -- constructor. now inversion Hy.
Qed.

Lemma sorted_with_sorted {A : Type} (le : A -> A -> bool) (l : list A) :
  (forall a b, le a b = true \/ le b a = true) ->
  Sorted (fun a b => le a b = true) (sorted_with le l).
Proof.
  intros Htot. induction l as [|x l IH]; simpl; [constructor|].
  now apply insert_sorted_total.
Qed.

Lemma sorted_set_spec (s : gset string) :
  (forall x, In x (sorted_set s) <-> x ∈ s)
  /\ NoDup (sorted_set s)
  /\ Sorted str_le (sorted_set s).
Proof.
  unfold sorted_set.
  pose proof (sorted_with_perm String.leb (elements s)) as Hp.
  split; [|split].
  - intros x. rewrite <- list_elem_of_In, Hp. apply elem_of_elements.
  - rewrite Hp. apply NoDup_elements.
  - apply sorted_with_sorted. apply String.leb_total.
Qed.

Lemma run_records_discovered (rs : list (string * string * bool))
    (m : Analyze.TransitionFailureMatrix) :
  Analyze.discovered_states (run_records rs m)
  = Analyze.discovered_states m ∪ list_to_set (record_states rs)
  /\ Analyze.states (run_records rs m) = Analyze.states m.
Proof.
  revert m. induction rs as [|[[f t] s] rs IH]; intros m.
  - simpl. split; [set_solver|reflexivity].
  - change (run_records ((f, t, s) :: rs) m)
      with (run_records rs (Analyze.record_transition m f t s)).
    destruct (IH (Analyze.record_transition m f t s)) as [H1 H2].
    rewrite H1, H2. unfold Analyze.record_transition, record_states.
    destruct s; simpl; split; try reflexivity; set_solver.
Qed.

Lemma record_states_In (rs : list (string * string * bool)) (x : string) :
  In x (record_states rs)
  <-> exists f t s, In (f, t, s) rs /\ (x = f \/ x = t).
Proof.
  unfold record_states. rewrite in_concat. split.
  - intros (l & Hl & Hx). apply in_map_iff in Hl.
    destruct Hl as ([[f t] s] & <- & Hin). simpl in Hx.
    exists f, t, s. split; [exact Hin|]. destruct Hx as [<-|[<-|[]]]; auto.
  - intros (f & t & s & Hin & Hx). exists [f; t]. split.
    + apply in_map_iff. exists (f, t, s). auto.
    + simpl. destruct Hx as [->| ->]; auto.
Qed.

(** X11. Without a fixed state list, [get_all_states] of an analyzer matrix
    that has recorded transitions is the list of the states named by any
    record, as from_state or to_state, of a success or of a failure: each
    once, in ascending string order. With a fixed, non-empty state list it
    is that list as given, whatever has been recorded. *)
Theorem discovered_states_sorted (rs : list (string * string * bool))
    (s : string) (l : list string) (x : string) :
  let m := run_records rs (Analyze.init None) in
  (In x (Analyze.get_all_states m)
   <-> exists f t ok, In (f, t, ok) rs /\ (x = f \/ x = t))
  /\ NoDup (Analyze.get_all_states m)
  /\ Sorted str_le (Analyze.get_all_states m)
  /\ Analyze.get_all_states (run_records rs (Analyze.init (Some (s :: l))))
     = s :: l.
Proof.
  intros m.
  destruct (run_records_discovered rs (Analyze.init None)) as [Hd Hs].
  destruct (run_records_discovered rs (Analyze.init (Some (s :: l)))) as [_ Hs'].
  assert (Hall : Analyze.get_all_states m = sorted_set (Analyze.discovered_states m)).
  { unfold Analyze.get_all_states. subst m. now rewrite Hs. }
  destruct (sorted_set_spec (Analyze.discovered_states m)) as (H1 & H2 & H3).
  rewrite Hall. split; [|split; [exact H2|split; [exact H3|]]].
  - rewrite H1. subst m. rewrite Hd. rewrite <- record_states_In.
    rewrite <- list_elem_of_In. simpl. set_solver.
  - unfold Analyze.get_all_states. now rewrite Hs'.
Qed.

Lemma od_set_In_inv {V : Type} (k k' : string) (v v' : V) (d : odict V) :
  In (k', v') (od_set k v d) -> In (k', v') d \/ (k' = k /\ v' = v).
Proof.
  induction d as [|[k0 v0] d IH]; simpl.
  - intros [[= <- <-]|[]]. now right.
  - destruct (String.eqb_spec k k0) as [->|Hne]; simpl.
    + intros [[= <- <-]|H]; [now right|left; now right].
    + intros [H|H]; [left; now left|].
      destruct (IH H) as [H'|H']; [left; now right|now right].
Qed.

Lemma matrix_states_In (m : Matrix) (x : string) :
  In x (Decorator.matrix_states m)
  <-> exists f row, In (f, row) m /\ (x = f \/ In x (map fst row)).
Proof.
  unfold Decorator.matrix_states. rewrite in_concat. split.
  - intros (l & Hl & Hx). apply in_map_iff in Hl.
    destruct Hl as ([f row] & <- & Hin). simpl in Hx.
    exists f, row. split; [exact Hin|]. destruct Hx as [<-|Hx]; auto.
  - intros (f & row & Hin & Hx). exists (f :: map fst row). split.
    + apply in_map_iff. exists (f, row). auto.
    + simpl. destruct Hx as [->|Hx]; auto.
Qed.

Lemma matrix_incr_states (f t : string) (m : Matrix) (x : string) :
  In x (Decorator.matrix_states (matrix_incr f t m)) ->
  In x (Decorator.matrix_states m) \/ x = f \/ x = t.
Proof.
  rewrite !matrix_states_In. unfold matrix_incr.
  intros (f0 & row0 & Hin & Hx).
  apply od_set_In_inv in Hin. destruct Hin as [Hin|[-> ->]].
  - left. eauto.
  - destruct Hx as [->|Hx]; [auto|].
    apply in_map_iff in Hx. destruct Hx as ([t0 c0] & <- & Hc). simpl.
    apply od_set_In_inv in Hc. destruct Hc as [Hc|[-> _]]; [|auto].
    left. destruct (od_get f m) as [row|] eqn:E; simpl in Hc; [|contradiction].
    exists f, row. split; [now apply od_get_In|]. right.
    change t0 with (fst (t0, c0)). now apply in_map.
Qed.

Lemma run_calls_matrix_states (cs : list Call) (t : Decorator.TransitionTracker)
    (x : string) :
  In x (Decorator.matrix_states (Decorator.matrix (run_calls cs t))) ->
  In x (Decorator.matrix_states (Decorator.matrix t)) \/ In x (call_states cs).
Proof.
  revert t. induction cs as [|c cs IH]; intros t H; [now left|].
  change (run_calls (c :: cs) t) with (run_calls cs (do_call t c)) in H.
  apply IH in H. unfold call_states. cbn [map concat]. simpl app.
  destruct H as [H|H]; [|right; right; right; exact H].
  unfold do_call, Decorator.record_transition in H. cbn [Decorator.matrix] in H.
  destruct (call_success c); cbn [negb] in H; [now left|].
  apply matrix_incr_states in H. simpl. intuition (subst; auto).
Qed.

Lemma event_states_of_calls (cs : list Call) :
  Decorator.event_states (map call_event cs) = call_states cs.
Proof.
  unfold Decorator.event_states, call_states. rewrite map_map. reflexivity.
Qed.

Lemma call_states_In (cs : list Call) (x : string) :
  In x (call_states cs)
  <-> exists c, In c cs /\ (x = call_from c \/ x = call_to c).
Proof.
  unfold call_states. rewrite in_concat. split.
  - intros (l & Hl & Hx). apply in_map_iff in Hl.
    destruct Hl as (c & <- & Hin). simpl in Hx.
    exists c. split; [exact Hin|]. destruct Hx as [<-|[<-|[]]]; auto.
  - intros (c & Hin & Hx). exists [call_from c; call_to c]. split.
    + apply in_map_iff. exists c. auto.
    + simpl. destruct Hx as [->| ->]; auto.
Qed.

(** X12. After any sequence of [record_transition] calls on a fresh
    tracker, the states of [get_matrix_summary] (the rows and columns of
    the tracker's table) are the states named by any call, as from_state or
    to_state, successes included: each once, in ascending string order. *)
Theorem summary_states_sorted (cs : list Call) (x : string) :
  let states :=
    Decorator.summary_states
      (Decorator.get_matrix_summary (run_calls cs Decorator.init)) in
  (In x states
   <-> exists c, In c cs /\ (x = call_from c \/ x = call_to c))
  /\ NoDup states
  /\ Sorted str_le states.
Proof.
  intros states. subst states. cbn [Decorator.get_matrix_summary Decorator.summary_states].
  match goal with
  | |- context [sorted_set ?s] =>
      destruct (sorted_set_spec s) as (H1 & H2 & H3)
  end.
  split; [|now split].
  rewrite H1, elem_of_list_to_set, elem_of_app, !list_elem_of_In.
  rewrite run_calls_events. cbn [Decorator.events Decorator.init app].
  rewrite event_states_of_calls, <- call_states_In. split; [|now right].
  intros [H|H]; [|exact H].
  apply run_calls_matrix_states in H. destruct H as [H|H]; [|exact H].
  simpl in H. contradiction.
Qed.

(** ** The rendered tables *)

Lemma matrix_read_value (f t : string) (m : Matrix) :
  fst (matrix_read f t m) = failure_count m f t.
Proof.
  unfold matrix_read, failure_count.
  destruct (od_get f m) as [row|]; simpl.
  - now destruct (od_get t row).
  - reflexivity.
Qed.

Lemma table_row_counts (first : string -> string) (cell : Z -> string)
    (f : string) (states : list string) (m0 m : Matrix) :
  same_counts 1 m0 m ->
  fst (Analyze.table_row first cell f states m)
  = fold_left (fun row t => row +:+ cell (failure_count m0 f t)) states (first f).
Proof.
  unfold Analyze.table_row. generalize (first f) as row. revert m.
  induction states as [|t states IH]; intros m row Hm; [reflexivity|].
  cbn [fold_left snd fst].
  pose proof (matrix_read_value f t m) as Hv.
  pose proof (matrix_read_same_counts 1 f t m ltac:(lia)) as Hs.
  destruct (matrix_read f t m) as [count m']. cbn [fst snd] in *. subst count.
  rewrite (proj2 Hm f t).
  apply IH. eapply same_counts_trans; eassumption.
Qed.

Lemma table_rows_counts (first : string -> string) (cell : Z -> string)
    (states : list string) (m : Matrix) :
  fst (Analyze.table_rows first cell states m) = count_rows first cell states m.
Proof.
  unfold Analyze.table_rows, count_rows. generalize states at 1 3 as inner.
  intros inner.
  assert (H : forall acc : list string * Matrix,
             same_counts 1 m (snd acc) ->
             fst (fold_left
                    (fun acc from_state =>
                       let '(row, m') :=
                         Analyze.table_row first cell from_state inner (snd acc) in
                       (fst acc ++ [row], m'))
                    states acc)
             = fst acc
               ++ map (fun f => fold_left
                                  (fun row t => row +:+ cell (failure_count m f t))
                                  inner (first f)) states).
  { induction states as [|f states IH]; intros acc Hacc.
    - simpl. now rewrite app_nil_r.
    - cbn [fold_left map].
      pose proof (table_row_counts first cell f inner m (snd acc) Hacc) as Hr.
      pose proof (table_row_same_counts 1 first cell f inner (snd acc) ltac:(lia))
        as Hs.
      destruct (Analyze.table_row first cell f inner (snd acc)) as [row m'].
      cbn [fst snd] in *. subst row. rewrite IH.
      + cbn [fst]. now rewrite <- app_assoc.
      + cbn [snd]. eapply same_counts_trans; eassumption. }
  rewrite H; [reflexivity|now split].
Qed.

Lemma markdown_row_counts (f : string) (states : list string) (m0 m : Matrix) :
  same_counts 1 m0 m ->
  fst (Decorator.markdown_row f states m)
  = fold_left (fun row t => row +:+ markdown_cell (failure_count m0 f t)) states
              ("| **" +:+ f +:+ "** |").
Proof.
  unfold Decorator.markdown_row. generalize ("| **" +:+ f +:+ "** |") as row.
  revert m. induction states as [|t states IH]; intros m row Hm; [reflexivity|].
  cbn [fold_left snd fst].
  pose proof (matrix_read_value f t m) as Hv.
  pose proof (matrix_read_same_counts 1 f t m ltac:(lia)) as Hs.
  destruct (matrix_read f t m) as [count m']. cbn [fst snd] in *. subst count.
  rewrite (proj2 Hm f t).
  apply IH. eapply same_counts_trans; eassumption.
Qed.

Lemma markdown_rows_counts (states : list string) (m : Matrix) :
  fst (Decorator.markdown_rows states m)
  = count_rows (fun f => "| **" +:+ f +:+ "** |") markdown_cell states m.
Proof.
  unfold Decorator.markdown_rows, count_rows. generalize states at 1 3 as inner.
  intros inner.
  assert (H : forall acc : list string * Matrix,
             same_counts 1 m (snd acc) ->
             fst (fold_left
                    (fun acc from_state =>
                       let '(row, m') :=
                         Decorator.markdown_row from_state inner (snd acc) in
                       (fst acc ++ [row], m'))
                    states acc)
             = fst acc
               ++ map (fun f => fold_left
                                  (fun row t =>
                                     row +:+ markdown_cell (failure_count m f t))
                                  inner ("| **" +:+ f +:+ "** |")) states).
  { induction states as [|f states IH]; intros acc Hacc.
    - simpl. now rewrite app_nil_r.
    - cbn [fold_left map].
      pose proof (markdown_row_counts f inner m (snd acc) Hacc) as Hr.
      pose proof (markdown_row_same_counts 1 f inner (snd acc) ltac:(lia)) as Hs.
      destruct (Decorator.markdown_row f inner (snd acc)) as [row m'].
      cbn [fst snd] in *. subst row. rewrite IH.
      + cbn [fst]. now rewrite <- app_assoc.
      + cbn [snd]. eapply same_counts_trans; eassumption. }
  rewrite H; [reflexivity|now split].
Qed.

Lemma analyzer_markdown_text (format_1f : Q -> string)
    (self : Analyze.TransitionFailureMatrix) :
  fst <$> Analyze.render_markdown format_1f self
  = Some (markdown_of_counts format_1f self).
Proof.
  unfold Analyze.render_markdown, markdown_of_counts.
  destruct (Analyze.get_all_states self) as [|s l]; [reflexivity|].
  rewrite failure_rate_percent_value. cbn [mbind option_bind].
  match goal with
  | |- context [Analyze.table_rows ?a ?b ?c ?d] =>
      pose proof (table_rows_counts a b c d) as Hr;
      pose proof (table_rows_same_counts 2 a b c d ltac:(lia)) as Hs;
      destruct (Analyze.table_rows a b c d) as [rows m']
  end.
  cbn [fst snd] in Hr, Hs. subst rows.
  rewrite (same_counts_hotspots 2 _ _ Hs).
  destruct (0 <? Analyze.total_transitions self); reflexivity.
Qed.

Lemma analyzer_ascii_text (self : Analyze.TransitionFailureMatrix) :
  fst <$> Analyze.render_ascii self = Some (ascii_of_counts self).
Proof.
  unfold Analyze.render_ascii, ascii_of_counts.
  destruct (Analyze.get_all_states self) as [|s l]; [reflexivity|].
  cbn [py_max map mbind option_bind].
  match goal with
  | |- context [Analyze.table_rows ?a ?b ?c ?d] =>
      pose proof (table_rows_counts a b c d) as Hr;
      pose proof (table_rows_same_counts 2 a b c d ltac:(lia)) as Hs;
      destruct (Analyze.table_rows a b c d) as [rows m']
  end.
  cbn [fst snd] in Hr, Hs. subst rows.
  rewrite (same_counts_hotspots 2 _ _ Hs). reflexivity.
Qed.

Lemma tracker_markdown_text (self : Decorator.TransitionTracker) :
  fst (Decorator.render_markdown self) = tracker_markdown_of_counts self.
Proof.
  unfold Decorator.render_markdown, tracker_markdown_of_counts.
  destruct (Decorator.summary_states (Decorator.get_matrix_summary self))
    as [|s l]; [reflexivity|].
  match goal with
  | |- context [Decorator.markdown_rows ?c ?d] =>
      pose proof (markdown_rows_counts c d) as Hr;
      pose proof (markdown_rows_same_counts 2 c d ltac:(lia)) as Hs;
      destruct (Decorator.markdown_rows c d) as [rows m']
  end.
  cbn [fst snd] in Hr, Hs. subst rows.
  rewrite (same_counts_hotspots 2 _ _ Hs). reflexivity.
Qed.

Lemma count_rows_ext (first : string -> string) (cell : Z -> string)
    (states : list string) (m m' : Matrix) :
  (forall f t, failure_count m' f t = failure_count m f t) ->
  count_rows first cell states m' = count_rows first cell states m.
Proof.
  intros H. unfold count_rows. apply map_ext. intros f.
  generalize (first f) as row.
  induction states as [|t states IH]; intros row; [reflexivity|].
  simpl. rewrite H. apply IH.
Qed.

Lemma with_matrix_fields (self self' : Analyze.TransitionFailureMatrix) :
  Analyze.with_matrix self' (Analyze.matrix self) = self ->
  Analyze.get_all_states self' = Analyze.get_all_states self
  /\ Analyze.total_transitions self' = Analyze.total_transitions self
  /\ Analyze.total_failures self' = Analyze.total_failures self.
Proof.
  intros Hw. destruct self, self'. unfold Analyze.with_matrix in Hw. simpl in *.
  injection Hw as -> -> -> ->. now repeat split.
Qed.

Lemma markdown_of_counts_ext (format_1f : Q -> string)
    (self self' : Analyze.TransitionFailureMatrix) :
  same_counts 2 (Analyze.matrix self) (Analyze.matrix self') ->
  Analyze.with_matrix self' (Analyze.matrix self) = self ->
  markdown_of_counts format_1f self' = markdown_of_counts format_1f self.
Proof.
  intros Hs Hw. unfold markdown_of_counts.
  destruct (with_matrix_fields _ _ Hw) as (Hst & Htt & Htf).
  rewrite (same_counts_hotspots 2 _ _ Hs), Hst, Htt, Htf.
  destruct (Analyze.get_all_states self) as [|s l]; [reflexivity|].
  now rewrite (count_rows_ext _ _ _ _ _ (proj2 Hs)).
Qed.

Lemma ascii_of_counts_ext (self self' : Analyze.TransitionFailureMatrix) :
  same_counts 2 (Analyze.matrix self) (Analyze.matrix self') ->
  Analyze.with_matrix self' (Analyze.matrix self) = self ->
  ascii_of_counts self' = ascii_of_counts self.
Proof.
  intros Hs Hw. unfold ascii_of_counts.
  destruct (with_matrix_fields _ _ Hw) as (Hst & Htt & Htf).
  rewrite (same_counts_hotspots 2 _ _ Hs), Hst, Htt, Htf.
  destruct (Analyze.get_all_states self) as [|s l]; [reflexivity|].
  now rewrite (count_rows_ext _ _ _ _ _ (proj2 Hs)).
Qed.


(** X14. Rendering an analyzer matrix a second time, in the same or in the
    other table format, gives the text that the first rendering would have
    given: the zero cells a rendering leaves behind do not change a later
    table. *)
Theorem rendering_twice_same_text (format_1f : Q -> string)
    (self : Analyze.TransitionFailureMatrix) :
  (r ← Analyze.render_markdown format_1f self;
   fst <$> Analyze.render_markdown format_1f (snd r))
  = fst <$> Analyze.render_markdown format_1f self
  /\ (r ← Analyze.render_ascii self; fst <$> Analyze.render_ascii (snd r))
     = fst <$> Analyze.render_ascii self
  /\ (r ← Analyze.render_ascii self;
      fst <$> Analyze.render_markdown format_1f (snd r))
     = fst <$> Analyze.render_markdown format_1f self
  /\ (r ← Analyze.render_markdown format_1f self;
      fst <$> Analyze.render_ascii (snd r))
     = fst <$> Analyze.render_ascii self.
Proof.
  destruct (analyzer_render_markdown_keeps format_1f self 2 ltac:(lia))
    as (t1 & s1 & Hm & Hs1 & Hw1).
  destruct (analyzer_render_ascii_keeps self 2 ltac:(lia))
    as (t2 & s2 & Ha & Hs2 & Hw2).
  rewrite Hm, Ha. cbn [mbind option_bind snd].
  rewrite !analyzer_markdown_text, !analyzer_ascii_text.
  pose proof (analyzer_markdown_text format_1f self) as E1.
  pose proof (analyzer_ascii_text self) as E2.
  rewrite Hm in E1. rewrite Ha in E2. rewrite E1, E2.
  rewrite (markdown_of_counts_ext _ _ _ Hs1 Hw1), (markdown_of_counts_ext _ _ _ Hs2 Hw2).
  rewrite (ascii_of_counts_ext _ _ Hs1 Hw1), (ascii_of_counts_ext _ _ Hs2 Hw2).
  auto.
Qed.

(** ** The tracker's table rendered again *)

Lemma matrix_set_row_states_mono (f : string) (row' : odict Z) (m : Matrix)
    (x : string) :
  (forall y, In y (map fst (default [] (od_get f m))) -> In y (map fst row')) ->
  In x (Decorator.matrix_states m) ->
  In x (Decorator.matrix_states (od_set f row' m)).
Proof.
  unfold Decorator.matrix_states.
  induction m as [|[k r] m IH]; simpl; intros Hk Hx; [contradiction|].
  destruct (String.eqb f k); simpl in *.
  - destruct Hx as [Hx|Hx]; [now left|]. right.
    apply in_app_iff in Hx. apply in_app_iff.
    destruct Hx as [Hx|Hx]; [left; now apply Hk|now right].
  - destruct Hx as [Hx|Hx]; [now left|]. right.
    apply in_app_iff in Hx. apply in_app_iff.
    destruct Hx as [Hx|Hx]; [now left|right; now apply IH].
Qed.

Lemma matrix_read_states (f t : string) (m : Matrix) :
  states_within [f; t] m (snd (matrix_read f t m)).
Proof.
  intros x. unfold matrix_read. split.
  - intros Hx.
    destruct (od_get t (default [] (od_get f m))) as [c|] eqn:Et; simpl.
    + apply matrix_set_row_states_mono; auto.
    + apply matrix_set_row_states_mono; [|exact Hx].
      intros y Hy. rewrite od_set_keys.
      destruct (existsb _ _); [exact Hy|]. apply in_app_iff. now left.
  - intros Hx. apply matrix_states_In in Hx.
    destruct Hx as (f0 & row0 & Hin & Hx).
    assert (Hrow : forall y, In y (map fst (default [] (od_get f m))) ->
                             In y (Decorator.matrix_states m)).
    { intros y Hy. destruct (od_get f m) as [row|] eqn:Ef; simpl in Hy;
        [|contradiction].
      apply matrix_states_In. exists f, row. split; [now apply od_get_In|now right]. }
    destruct (od_get t (default [] (od_get f m))) as [c|] eqn:Et; simpl in Hin;
      apply od_set_In_inv in Hin; destruct Hin as [Hin|[-> ->]].
    + left. apply matrix_states_In. eauto.
    + destruct Hx as [->|Hx]; [right; now left|left; now apply Hrow].
    + left. apply matrix_states_In. eauto.
    + destruct Hx as [->|Hx]; [right; now left|].
      rewrite od_set_keys in Hx.
      destruct (existsb _ _); [left; now apply Hrow|].
      apply in_app_iff in Hx. destruct Hx as [Hx|[<-|[]]];
        [left; now apply Hrow|right; right; now left].
Qed.

Lemma states_within_trans (e1 e2 extra : list string) (m1 m2 m3 : Matrix) :
  (forall x, In x e1 -> In x extra) -> (forall x, In x e2 -> In x extra) ->
  states_within e1 m1 m2 -> states_within e2 m2 m3 ->
  states_within extra m1 m3.
Proof.
  intros H1 H2 A B x. destruct (A x) as [A1 A2]. destruct (B x) as [B1 B2].
  split; [auto|]. intros H. destruct (B2 H) as [H'|H']; [|auto].
  destruct (A2 H'); auto.
Qed.

Lemma markdown_row_states (f : string) (states extra : list string) (m : Matrix) :
  In f extra -> (forall x, In x states -> In x extra) ->
  states_within extra m (snd (Decorator.markdown_row f states m)).
Proof.
  intros Hf Hst. unfold Decorator.markdown_row.
  assert (H : forall acc : string * Matrix,
             states_within extra m (snd acc) ->
             states_within extra m
               (snd (fold_left
                       (fun acc to_state =>
                          let '(count, m') := matrix_read f to_state (snd acc) in
                          (fst acc +:+ (if 0 <? count
                                        then " **" +:+ str_Z count +:+ "** |"
                                        else " - |"), m'))
                       states acc))).
  { induction states as [|t states IH]; intros acc Hacc; [exact Hacc|].
    cbn [fold_left]. apply IH; [intros x Hx; apply Hst; now right|].
    pose proof (matrix_read_states f t (snd acc)) as Hr.
    destruct (matrix_read f t (snd acc)) as [count m']. cbn [snd] in *.
    eapply (states_within_trans extra [f; t]); [auto| |exact Hacc|exact Hr].
    intros x [<-|[<-|[]]]; [exact Hf|apply Hst; now left]. }
  apply H. intros x. split; auto.
Qed.

Lemma markdown_rows_fold_states (inner states extra : list string) (m : Matrix)
    (acc : list string * Matrix) :
  (forall x, In x inner -> In x extra) ->
  (forall x, In x states -> In x extra) ->
  states_within extra m (snd acc) ->
  states_within extra m
    (snd (fold_left
            (fun acc from_state =>
               let '(row, m') :=
                 Decorator.markdown_row from_state inner (snd acc) in
               (fst acc ++ [row], m'))
            states acc)).
Proof.
  intros Hinner. revert acc.
  induction states as [|f states IH]; intros acc Hst Hacc; [exact Hacc|].
  cbn [fold_left]. apply IH; [intros x Hx; apply Hst; now right|].
  pose proof (markdown_row_states f inner extra (snd acc)
                (Hst f ltac:(now left)) Hinner) as Hr.
  destruct (Decorator.markdown_row f inner (snd acc)) as [row m'].
  cbn [snd] in *.
  eapply (states_within_trans extra extra); [auto|auto|exact Hacc|exact Hr].
Qed.

Lemma markdown_rows_states (states extra : list string) (m : Matrix) :
  (forall x, In x states -> In x extra) ->
  states_within extra m (snd (Decorator.markdown_rows states m)).
Proof.
  intros Hst. unfold Decorator.markdown_rows.
  apply markdown_rows_fold_states; auto. intros x. split; auto.
Qed.

Lemma summary_states_after_render (self : Decorator.TransitionTracker) :
  Decorator.summary_states
    (Decorator.get_matrix_summary (snd (Decorator.render_markdown self)))
  = Decorator.summary_states (Decorator.get_matrix_summary self).
Proof.
  unfold Decorator.render_markdown. cbv zeta.
  remember (Decorator.summary_states (Decorator.get_matrix_summary self))
    as sts eqn:E.
  destruct sts as [|s l]; [exact (eq_sym E)|].
  pose proof (markdown_rows_states (s :: l) (s :: l) (Decorator.matrix self)
                ltac:(auto)) as Hw.
  destruct (Decorator.markdown_rows (s :: l) (Decorator.matrix self)) as [rows m'].
  cbn [snd] in *. rewrite E.
  cbn [Decorator.get_matrix_summary Decorator.summary_states Decorator.events
       Decorator.matrix].
  f_equal. apply set_eq. intros x.
  rewrite !elem_of_list_to_set, !elem_of_app, !list_elem_of_In.
  destruct (Hw x) as [H1 H2]. split.
  - intros [H|H]; [|now right]. destruct (H2 H) as [H'|H']; [now left|].
    rewrite E in H'.
    cbn [Decorator.get_matrix_summary Decorator.summary_states] in H'.
    apply sorted_set_spec in H'.
    rewrite elem_of_list_to_set, elem_of_app, !list_elem_of_In in H'. exact H'.
  - intros [H|H]; [left; now apply H1|now right].
Qed.

(** X15. Rendering the tracker's table a second time gives the same text,
    and the summary after a rendering names the same states and carries the
    same counters: the zero cells that the table's reads insert into the
    matrix only name states that the summary listed already. *)
Theorem tracker_rendering_twice_same_text (tracker : Decorator.TransitionTracker) :
  let tracker' := snd (Decorator.render_markdown tracker) in
  fst (Decorator.render_markdown tracker') = fst (Decorator.render_markdown tracker)
  /\ Decorator.summary_states (Decorator.get_matrix_summary tracker')
     = Decorator.summary_states (Decorator.get_matrix_summary tracker)
  /\ Decorator.total_events (Decorator.get_matrix_summary tracker')
     = Decorator.total_events (Decorator.get_matrix_summary tracker)
  /\ Decorator.total_failures (Decorator.get_matrix_summary tracker')
     = Decorator.total_failures (Decorator.get_matrix_summary tracker).
Proof.
  intros tracker'.
  destruct (tracker_render_markdown_keeps tracker 2 ltac:(lia))
    as (Hs & He & _).
  fold tracker' in Hs, He.
  pose proof (summary_states_after_render tracker) as Hst.
  fold tracker' in Hst.
  assert (Hev : Decorator.total_events (Decorator.get_matrix_summary tracker')
                = Decorator.total_events (Decorator.get_matrix_summary tracker)).
  { cbn [Decorator.get_matrix_summary Decorator.total_events]. now rewrite He. }
  assert (Hfl : Decorator.total_failures (Decorator.get_matrix_summary tracker')
                = Decorator.total_failures (Decorator.get_matrix_summary tracker)).
  { cbn [Decorator.get_matrix_summary Decorator.total_failures]. now rewrite He. }
  split; [|auto].
  rewrite !tracker_markdown_text. unfold tracker_markdown_of_counts.
  cbv zeta. rewrite Hst, Hev, Hfl, (same_counts_hotspots 2 _ _ Hs).
  destruct (Decorator.summary_states (Decorator.get_matrix_summary tracker))
    as [|s l]; [reflexivity|].
  now rewrite (count_rows_ext _ _ _ _ _ (proj2 Hs)).
Qed.
